(** * levanter: sharded gradient accumulation, loss, and the training loops

    A shallow embedding of
      - [src/levanter/modeling_utils.py]
        ([quick_gelu], [RunningMean], [accumulate_gradients],
         [accumulate_gradients_sharded], [recursive_checkpoint],
         [cross_entropy_loss_and_log_normalizers], [cross_entropy_loss]),
      - [src/levanter/main/train_lm.py] ([main]),
      - [projects/instruction_tuning/instruction_tune.py] ([main],
        [compute_loss], [batch_sampler]).

    Array values are taken in exact arithmetic: rationals ([Q]) for the
    accumulator, reals ([R]) where the code needs [exp] and [log]. *)

From Equations Require Import Equations.
From Stdlib Require Import String.
From Stdlib Require Import List Arith PeanoNat ZArith QArith Qround Lia Bool.
From Stdlib Require Import Permutation.
From Stdlib Require Reals Lra.
From Stdlib Require Floats.SpecFloat.
Import ListNotations.

Set Implicit Arguments.

(* ===================================================================== *)
(** ** Python outcomes *)
(* ===================================================================== *)

(** The exceptions the embedded code can raise. *)
Inductive PyError : Type :=
| AssertionError      (* a failed [assert] *)
| ZeroDivisionError   (* [//] on Python ints with a zero divisor *)
| ValueError          (* [jax.tree_map] on trees of different structure *)
| RuntimeError        (* a [StopIteration] raised inside a generator *)
| NameError.          (* a local variable read before it is assigned *)

(** What running a piece of code gives: a value, a raised exception, or
    (for array code) a [nan]: jnp does not raise on [0 / 0], it returns a
    value that is no rational number, and the model stops there. *)
Inductive outcome (A : Type) : Type :=
| Ok (a : A)
| Raise (e : PyError)
| NotANumber.

Arguments Ok {A} a.
Arguments Raise {A} e.
Arguments NotANumber {A}.

Definition inject_nat (n : nat) : Q := inject_Z (Z.of_nat n).

(** [jnp.sum] of a one-dimensional array. *)
Definition Qsum (xs : list Q) : Q := fold_right Qplus 0 xs.

(* ===================================================================== *)
(** ** modeling_utils.py: gradient accumulation *)
(* ===================================================================== *)

Module ModelingUtils.

(** A pytree of parameters (and so a gradient) is the list of the scalar
    entries of its leaves, in the order [jax.tree_util] flattens them; its
    structure is their number. The sums, quotients and means below act on
    each entry alone. *)
Definition PyTree := list Q.

(** [jax.tree_util.tree_map] with one tree. *)
Definition tree_map (g : Q -> Q) (t : PyTree) : PyTree := map g t.

Fixpoint zip_with (g : Q -> Q -> Q) (a b : PyTree) : PyTree :=
  match a, b with
  | x :: a', y :: b' => g x y :: zip_with g a' b'
  | _, _ => []
  end.

(** [jax.tree_map] with two trees: the structures must agree. *)
Definition tree_map2 (g : Q -> Q -> Q) (a b : PyTree) : outcome PyTree :=
  if Nat.eqb (length a) (length b) then Ok (zip_with g a b) else Raise ValueError.

(** [x.reshape((rows, cols) + x.shape[1:])] on an array whose leading axis
    has [rows * cols] entries: row-major, row [i] holds entries
    [i * cols .. (i + 1) * cols - 1]. *)
Fixpoint reshape {A : Type} (rows cols : nat) (xs : list A) : list (list A) :=
  match rows with
  | O => []
  | S r => firstn cols xs :: reshape r cols (skipn cols xs)
  end.

(** [jnp.mean] of a one-dimensional array; the mean of no element is [nan]. *)
Definition jnp_mean (xs : list Q) : outcome Q :=
  match xs with
  | [] => NotANumber
  | _ :: _ => Ok (Qsum xs / inject_nat (length xs))
  end.

Section Accumulator.

(** One example: the slice of every input array at one index of the
    leading batch axis. *)
Variable X : Type.

(** The loss-and-gradient function [f(model, *input)]. *)
Variable f : PyTree -> X -> Q * PyTree.

(** Running code that calls [f]: the examples [f] was invoked on, in
    order, and the outcome. *)
Definition Exec (A : Type) : Type := (list X * outcome A)%type.

Definition ret {A} (a : A) : Exec A := ([], Ok a).

Definition lift {A} (o : outcome A) : Exec A := ([], o).

Definition bind {A B} (c : Exec A) (k : A -> Exec B) : Exec B :=
  match c with
  | (tr, Ok a) => let (tr', o) := k a in (tr ++ tr', o)
  | (tr, Raise e) => (tr, Raise e)
  | (tr, NotANumber) => (tr, NotANumber)
  end.

Definition call_f (model : PyTree) (input : X) : Exec (Q * PyTree) :=
  ([input], Ok (f model input)).

Notation "x <- c ;; k" := (bind c (fun x => k))
  (at level 61, c at next level, right associativity).
Notation "' p <- c ;; k" := (bind c (fun x => let p := x in k))
  (at level 61, p pattern, c at next level, right associativity).

(** Modelled from the spec: [levanter.jax_utils.reduce] is not among the
    sources. The accumulator is to "accumulate losses by summation and
    gradients by elementwise summation, in an accumulator initialized to
    the model's zero-gradient shape": [reduce(fn, init, *xs)] is the left
    fold of [fn] from [init] over the leading axis of [xs]. *)
Fixpoint reduce {S : Type} (fn : S -> X -> Exec S) (init : S) (xs : list X) : Exec S :=
  match xs with
  | [] => ret init
  | x :: xs' => acc <- fn init x ;; reduce fn acc xs'
  end.

Definition compute_and_accumulate (model : PyTree) (acc : Q * PyTree * nat) (input : X)
  : Exec (Q * PyTree * nat) :=
  ' (loss, grad) <- call_f model input ;;
  let '(acc_loss, acc_grad, n) := acc in
  sum_grad <- lift (tree_map2 Qplus acc_grad grad) ;;
  ret (loss + acc_loss, sum_grad, S n).

Definition accumulate_gradients (model : PyTree) (inputs : list X) : Exec (Q * PyTree) :=
  let zero := (0, tree_map (fun _ => 0) model, O) in
  ' (total_loss, total_grad, total_n) <- reduce (compute_and_accumulate model) zero inputs ;;
  match total_n with
  | O => lift NotANumber
  | S _ => ret (total_loss / inject_nat total_n,
                tree_map (fun x => x / inject_nat total_n) total_grad)
  end.

(** [batch_size // microbatch_size] on Python ints that are sizes (a shape
    entry, the size of a mesh axis, a number of examples). *)
Definition floordiv (a b : nat) : outcome nat :=
  match b with
  | O => Raise ZeroDivisionError
  | S _ => Ok (a / b)%nat
  end.

Definition py_assert (b : bool) : outcome unit :=
  if b then Ok tt else Raise AssertionError.

(** Modelled from the spec: [hax.vmap] is not among the sources. "For
    each microbatch, independently invoke [f] once per example in that
    microbatch's per-shard slice": [hax.vmap(fn, axis)] is [fn] at every
    index of the mapped axis, here the leading axis of the reshaped
    inputs, the results stacked along it. The calls are independent; the
    trace lists them row by row. *)
Fixpoint vmap {A B : Type} (fn : A -> Exec B) (rows : list A) : Exec (list B) :=
  match rows with
  | [] => ret []
  | r :: rows' => y <- fn r ;; ys <- vmap fn rows' ;; ret (y :: ys)
  end.

(** The gradients [vmap] returns: a tree of the model's structure whose
    leaf [k] is the array, along the mapped axis, of the leaf [k] of
    each row's gradient. *)
Definition stack (model : PyTree) (grads : list PyTree) : list (list Q) :=
  map (fun k => map (fun g => nth k g 0) grads) (seq 0 (length model)).

Fixpoint all_ok {A : Type} (os : list (outcome A)) : outcome (list A) :=
  match os with
  | [] => Ok []
  | Ok a :: os' =>
      match all_ok os' with
      | Ok l => Ok (a :: l)
      | Raise e => Raise e
      | NotANumber => NotANumber
      end
  | Raise e :: _ => Raise e
  | NotANumber :: _ => NotANumber
  end.

(** Modelled from the spec: [hax.mean] is not among the sources; the
    "mean" of every leaf over the mapped axis, as [jnp.mean] has it. *)
Definition hax_mean (stacked : list (list Q)) : outcome PyTree :=
  all_ok (map jnp_mean stacked).

Definition accumulate_gradients_sharded
    (model : PyTree) (inputs : list X)
    (data_axis_size per_device_parallelism : nat) : Exec (Q * PyTree) :=
  let batch_size := length inputs in
  let microbatch_size := (data_axis_size * per_device_parallelism)%nat in
  num_micro_steps <- lift (floordiv batch_size microbatch_size) ;;
  _ <- lift (py_assert (Nat.eqb (num_micro_steps * microbatch_size) batch_size)) ;;
  let inputs' := reshape microbatch_size num_micro_steps inputs in
  results <- vmap (accumulate_gradients model) inputs' ;;
  let losses := map fst results in
  let grads := stack model (map snd results) in
  grads <- lift (hax_mean grads) ;;
  loss <- lift (jnp_mean losses) ;;
  ret (loss, grads).

(** The per-example losses of a batch, and the per-example values of
    leaf [k] of the gradient. *)
Definition example_losses (model : PyTree) (xs : list X) : list Q :=
  map (fun x => fst (f model x)) xs.

Definition example_leaf (model : PyTree) (k : nat) (xs : list X) : list Q :=
  map (fun x => nth k (snd (f model x)) 0) xs.

(** Following the spec, not the code: one full-batch computation, the sum
    of the per-example losses and of the per-example gradients, each
    divided by the total example count [B]. *)
Definition full_batch_mean (model : PyTree) (inputs : list X) : Q * PyTree :=
  let B := inject_nat (length inputs) in
  (Qsum (example_losses model inputs) / B,
   map (fun k => Qsum (example_leaf model k inputs) / B) (seq 0 (length model))).

End Accumulator.

(** The run did not end in a failed [assert]. *)
Definition no_assert {X A} (c : Exec X A) : Prop := snd c <> Raise AssertionError.

(** Equality of a (loss, gradient) pair in exact arithmetic. *)
Definition mean_equiv (a b : Q * PyTree) : Prop :=
  fst a == fst b /\ Forall2 Qeq (snd a) (snd b).

(** The scenario of the spec: example [i] has loss [i] and gradient [i],
    on a model of one parameter. *)
Definition scenario_f (model : PyTree) (x : Q) : Q * PyTree := (x, [x]).
Definition scenario_model : PyTree := [0].
Definition scenario_batch : list Q := [1; 2; 3; 4; 5; 6; 7; 8].

End ModelingUtils.


(* ===================================================================== *)
(** ** modeling_utils.py: gradient accumulation as float32 computes it *)
(* ===================================================================== *)

(** IEEE 754 binary32, the dtype of [jnp.zeros(())] and of the losses and
    gradients the accumulator adds: 24 bits of precision, rounding to
    nearest, ties to even. *)
Module Float32.

Definition float32 : Type := SpecFloat.spec_float.

Definition prec : Z := 24.
Definition emax : Z := 128.

Definition zero : float32 := SpecFloat.S754_zero false.

Definition add : float32 -> float32 -> float32 := SpecFloat.SFadd prec emax.

Definition div : float32 -> float32 -> float32 := SpecFloat.SFdiv prec emax.

(** An integer as a float32. *)
Definition of_Z (z : Z) : float32 := SpecFloat.binary_normalize prec emax z 0 false.

Definition of_nat (n : nat) : float32 := of_Z (Z.of_nat n).

(** The rational number a finite float32 is; none for [inf] and [nan]. *)
Definition to_Q (x : float32) : option Q :=
  match x with
  | SpecFloat.S754_zero _ => Some 0
  | SpecFloat.S754_finite s m e =>
      Some (Qred ((if s then - (1) else 1) * inject_Z (Zpos m) * Qpower 2 e))
  | _ => None
  end.

End Float32.

(** [accumulate_gradients] and [accumulate_gradients_sharded] once more,
    line for line as in [ModelingUtils], on float32 entries: every sum
    and quotient is rounded, and [0 / 0] is the value [nan]. *)
Module ModelingUtilsFloat32.
Import Float32.

Definition PyTree := list float32.

Definition tree_map (g : float32 -> float32) (t : PyTree) : PyTree := map g t.

Fixpoint zip_with (g : float32 -> float32 -> float32) (a b : PyTree) : PyTree :=
  match a, b with
  | x :: a', y :: b' => g x y :: zip_with g a' b'
  | _, _ => []
  end.

Definition tree_map2 (g : float32 -> float32 -> float32) (a b : PyTree) : outcome PyTree :=
  if Nat.eqb (length a) (length b) then Ok (zip_with g a b) else Raise ValueError.

(** [jnp.mean] of a one-dimensional array: the sum of the entries, here
    added from the first on, divided by their number. *)
Definition jnp_mean (xs : list float32) : float32 :=
  div (fold_left add xs zero) (of_nat (length xs)).

Section Accumulator.

Variable X : Type.
Variable f : PyTree -> X -> float32 * PyTree.

Local Abbreviation Exec := (ModelingUtils.Exec X).
Local Abbreviation lift := (@ModelingUtils.lift X _).
Local Abbreviation ret := (@ModelingUtils.ret X _).

Notation "x <- c ;; k" := (ModelingUtils.bind c (fun x => k))
  (at level 61, c at next level, right associativity).
Notation "' p <- c ;; k" := (ModelingUtils.bind c (fun x => let p := x in k))
  (at level 61, p pattern, c at next level, right associativity).

Definition call_f (model : PyTree) (input : X) : Exec (float32 * PyTree) :=
  ([input], Ok (f model input)).

Definition compute_and_accumulate (model : PyTree) (acc : float32 * PyTree * nat)
    (input : X) : Exec (float32 * PyTree * nat) :=
  ' (loss, grad) <- call_f model input ;;
  let '(acc_loss, acc_grad, n) := acc in
  sum_grad <- lift (tree_map2 add acc_grad grad) ;;
  ret (add loss acc_loss, sum_grad, S n).

Definition accumulate_gradients (model : PyTree) (inputs : list X)
  : Exec (float32 * PyTree) :=
  let zero := (zero, tree_map (fun _ => zero) model, O) in
  ' (total_loss, total_grad, total_n) <-
    ModelingUtils.reduce (compute_and_accumulate model) zero inputs ;;
  ret (div total_loss (of_nat total_n),
                     tree_map (fun x => div x (of_nat total_n)) total_grad).

Definition stack (model : PyTree) (grads : list PyTree) : list (list float32) :=
  map (fun k => map (fun g => nth k g zero) grads) (seq 0 (length model)).

Definition accumulate_gradients_sharded
    (model : PyTree) (inputs : list X)
    (data_axis_size per_device_parallelism : nat) : Exec (float32 * PyTree) :=
  let batch_size := length inputs in
  let microbatch_size := (data_axis_size * per_device_parallelism)%nat in
  num_micro_steps <-
    lift (ModelingUtils.floordiv batch_size microbatch_size) ;;
  _ <- lift
         (ModelingUtils.py_assert
            (Nat.eqb (num_micro_steps * microbatch_size) batch_size)) ;;
  let inputs' := ModelingUtils.reshape microbatch_size num_micro_steps inputs in
  results <- ModelingUtils.vmap (accumulate_gradients model) inputs' ;;
  let losses := map fst results in
  let grads := stack model (map snd results) in
  let grads := map jnp_mean grads in
  let loss := jnp_mean losses in
  ret (loss, grads).

End Accumulator.

(** Example [x] has loss [x] and gradient [x], on a model of one
    parameter; the batch of the spec's scenario, and a batch whose first
    loss is [2 ^ 24]. *)
Definition scenario_f (model : PyTree) (x : float32) : float32 * PyTree := (x, [x]).
Definition scenario_model : PyTree := [zero].
Definition scenario_batch : list float32 := map of_Z [1; 2; 3; 4; 5; 6; 7; 8]%Z.
Definition large_batch : list float32 := map of_Z [16777216; 1; 1; 1]%Z.

End ModelingUtilsFloat32.

(* ===================================================================== *)
(** ** modeling_utils.py: cross entropy *)
(* ===================================================================== *)

Module CrossEntropy.
Import Reals.
Local Open Scope R_scope.

(** Arrays in exact real arithmetic. A [NamedArray] with the axes
    (positions, [Label]) is the list of its rows along [Label], one row per
    position; an array over the positions alone is a list. *)
Definition Rsum (xs : list R) : R := fold_right Rplus 0 xs.

(** [hax.nn.logsumexp(pred_y, Label)]: at every position, the logarithm of
    the sum of the exponentials along [Label]. *)
Definition logsumexp_row (row : list R) : R := ln (Rsum (map exp row)).

Definition logsumexp (pred_y : list (list R)) : list R := map logsumexp_row pred_y.

(** [log_normalizers - pred_y]: the array over the positions is broadcast
    along [Label]. *)
Fixpoint broadcast_sub (log_normalizers : list R) (pred_y : list (list R))
  : list (list R) :=
  match log_normalizers, pred_y with
  | l :: ls, row :: rows => map (fun p => l - p) row :: broadcast_sub ls rows
  | _, _ => []
  end.

(** [hax.dot(Label, a, b)]: at every position, the contraction of the two
    rows along [Label]. *)
Fixpoint dot_row (a b : list R) : R :=
  match a, b with
  | x :: a', y :: b' => x * y + dot_row a' b'
  | _, _ => 0
  end.

Fixpoint dot (a b : list (list R)) : list R :=
  match a, b with
  | ra :: a', rb :: b' => dot_row ra rb :: dot a' b'
  | _, _ => []
  end.

(** [hax.nn.one_hot(targets, Label)]: at every position, 1 at the index
    of the target along [Label] and 0 elsewhere. *)
Definition one_hot_row (t size : nat) : list R :=
  map (fun k => if Nat.eqb k t then 1 else 0) (seq 0 size).

Definition one_hot (targets : list nat) (size : nat) : list (list R) :=
  map (fun t => one_hot_row t size) targets.

Definition cross_entropy_loss_and_log_normalizers
    (pred_y target_y : list (list R)) : list R * list R :=
  let log_normalizers := logsumexp pred_y in
  let neg_log_normalized := broadcast_sub log_normalizers pred_y in
  let loss := dot target_y neg_log_normalized in
  (loss, log_normalizers).

Definition cross_entropy_loss (pred_y target_y : list (list R)) : list R :=
  let '(loss, _) := cross_entropy_loss_and_log_normalizers pred_y target_y in
  loss.

(** The logit of the target at every position. *)
Fixpoint target_logits (pred_y : list (list R)) (targets : list nat) : list R :=
  match pred_y, targets with
  | row :: rows, t :: ts => nth t row 0 :: target_logits rows ts
  | _, _ => []
  end.

End CrossEntropy.

(* ===================================================================== *)
(** ** main/train_lm.py: the training loop *)
(* ===================================================================== *)

Module TrainLm.

(** The dtypes a [jmp.Policy] is built from. *)
Inductive DType : Type := BFloat16 | Float16 | Float32 | Float64.

(** [jmp.Policy]: the parameter, compute and output dtypes. *)
Record Policy : Type := {
  param_dtype : DType;
  compute_dtype : DType;
  output_dtype : DType
}.

(** The callbacks [main] registers on its [TrainerHooks]. *)
Inductive Hook : Type :=
| pbar_logger
| log_to_wandb
| log_performance_stats
| compute_validation_loss
| wandb_xla_logger
| checkpointer_on_step
| save_hf_checkpoint_callback
| compute_and_visualize_log_probs.

(** A model: its parameters and the dtype they are held in. *)
Record Model (Params : Type) : Type := { model_dtype : DType; model_params : Params }.

(** An array: its entries and its dtype. *)
Record Array (Values : Type) : Type := { array_dtype : DType; array_values : Values }.

(** What [main] takes from outside: the model, optimizer, random keys and
    data of the libraries it calls. *)
Class World : Type := {
  Params : Type;      (* the leaves of a model *)
  Values : Type;      (* the entries of an array *)
  OptState : Type;
  Key : Type;
  Example : Type;     (* an [LmExample] batch *)
  Grads : Type;
  Updates : Type;
  PRNGKey : Z -> Key;
  split2 : Key -> Key * Key;                    (* [jrandom.split(key, 2)] *)
  split4 : Key -> Key * Key * Key * Key;        (* [jrandom.split(key, 4)] *)
  astype_params : DType -> Params -> Params;    (* the leaves rounded to a dtype *)
  astype_values : DType -> Values -> Values;
  build : Key -> Model Params;                  (* [config.model.build(Vocab, key=key)] *)
  load_pretrained : Model Params;               (* [converter.load_pretrained(...)] *)
  forward : Model Params -> Example -> option Key -> bool -> Array Values;
                                                (* [model(tokens, attn_mask, key, inference)] *)
  one_hot_values : Example -> DType -> Values;
  cross_entropy_values : Array Values -> Array Values -> Example -> Values;
  mean_scalar : Array Values -> Q;              (* [hax.mean(...).scalar()] *)
  optimizer_init : Model Params -> OptState;
  optimizer_update : Grads -> OptState -> Model Params -> Updates * OptState;
  apply_updates : Model Params -> Updates -> Model Params;   (* [eqx.apply_updates] *)
  filter_value_and_grad :
    (Model Params -> Example -> Key -> Q) -> Model Params -> Example -> Key -> Q * Grads;
  grad_accum :                                  (* [levanter.grad_accum.accumulate_gradients_sharded] *)
    (Model Params -> Example -> Key -> Q * Grads) ->
    Model Params -> Example -> Key -> nat -> Q * Grads;
  train_loader : nat -> Example                 (* batch [i] of [non_caching_cycle(train_loader)] *)
}.

Section Main.

Context {W : World}.

Local Abbreviation Model := (Model Params).
Local Abbreviation Array := (Array Values).

(** [jmp.Policy.cast_to_compute], [cast_to_param] on a model and
    [cast_to_output] on an array. *)
Definition cast_to_compute (mp : Policy) (m : Model) : Model :=
  {| model_dtype := compute_dtype mp;
     model_params := astype_params (compute_dtype mp) (model_params m) |}.

Definition cast_to_param (mp : Policy) (m : Model) : Model :=
  {| model_dtype := param_dtype mp;
     model_params := astype_params (param_dtype mp) (model_params m) |}.

Definition cast_to_output (mp : Policy) (a : Array) : Array :=
  {| array_dtype := output_dtype mp;
     array_values := astype_values (output_dtype mp) (array_values a) |}.

(** [hax.nn.one_hot(example.targets, Vocab, dtype=dtype)]. *)
Definition one_hot (example : Example) (dtype : DType) : Array :=
  {| array_dtype := dtype; array_values := one_hot_values example dtype |}.

(** [cross_entropy_loss(pred_y, Vocab, target_y, where=example.loss_mask,
    reduction_axis=Pos)] of haliax: the result has the dtype of the
    predictions. *)
Definition cross_entropy_loss (pred_y target_y : Array) (example : Example) : Array :=
  {| array_dtype := array_dtype pred_y;
     array_values := cross_entropy_values pred_y target_y example |}.

Definition compute_loss (mp : Policy) (model : Model) (example : Example)
    (key : option Key) (inference : bool) : Array :=
  let model := cast_to_compute mp model in
  let pred_y := forward model example key inference in
  let pred_y := cast_to_output mp pred_y in
  let target_y := one_hot example (array_dtype pred_y) in
  cross_entropy_loss pred_y target_y example.

Definition train_loss (mp : Policy) (model : Model) (example : Example) (key : Key) : Q :=
  mean_scalar (compute_loss mp model example (Some key) false).

Definition eval_loss (mp : Policy) (model : Model) (example : Example) : Q :=
  mean_scalar (compute_loss mp model example None true).

Record TrainLmConfig : Type := {
  seed : Z;
  num_train_steps : nat;
  steps_per_eval : nat;
  per_device_parallelism : nat;
  mp : Policy;
  initialize_from_hf : bool;
  hf_save_path : option String.string;
  hf_save_steps : nat
}.

Definition train_step (config : TrainLmConfig) (model : Model) (opt_state : OptState)
    (examples : Example) (key : Key) : Q * Model * OptState :=
  let grad_loss := filter_value_and_grad (train_loss (mp config)) in
  let (loss, grads) :=
    grad_accum grad_loss model examples key (per_device_parallelism config) in
  let (updates, opt_state) := optimizer_update grads opt_state model in
  let model := apply_updates model updates in
  (loss, model, opt_state).

Definition init_model_and_opt_state (config : TrainLmConfig) (model_key : Key)
  : Model * OptState :=
  let model := build model_key in
  let model := cast_to_param (mp config) model in
  let opt_state := optimizer_init model in
  (model, opt_state).

Record StepInfo : Type := {
  info_step : nat;
  info_model : Model;
  info_opt_state : OptState;
  info_loss : Q;
  info_key : Key;
  info_step_duration : Q
}.

(** What a run does that can be seen from outside, in order. *)
Inductive Event : Type :=
| ev_seek (batch : Example)                            (* [next(iter_data)], dropped *)
| ev_train_step (step : nat) (batch : Example) (my_key : Key)
| ev_run_hooks (info : StepInfo) (force : bool)        (* [engine.run_hooks(info, force)] *)
| ev_callback (hook : Hook) (info : StepInfo)          (* [hook.fn(info)] *)
| ev_save (info : StepInfo) (force : bool).            (* the checkpointer writes *)

(** What differs from one run to the next with the same configuration:
    the durations [capture_time] measures and the checkpointer's own
    cadence (it saves by wall-clock time too). *)
Record Env : Type := {
  capture_time : nat -> Q;
  save_due : StepInfo -> bool
}.

(** Modelled from the spec: [Checkpointer.on_step] of [levanter], not
    among the sources; it "only performs an actual save when the
    configured cadence is met or force=true". *)
Definition on_step (env : Env) (info : StepInfo) (force : bool) : list Event :=
  if force || save_due env info then [ev_save info force] else [].

Definition callback (env : Env) (hook : Hook) (info : StepInfo) : list Event :=
  match hook with
  | checkpointer_on_step => on_step env info false
  | _ => []
  end.

(** Modelled from the spec: [TrainerHooks.run_hooks] of [levanter], not
    among the sources; it "invokes every registered callback whose
    step_index mod every_n_steps == 0, in registration order,
    synchronously, passing the step's StepInfo", and "a force=true
    dispatch invokes all callbacks regardless of cadence". The cadences
    [main] registers are 1 or options that count steps, taken positive. *)
Definition run_hooks (env : Env) (hooks : list (Hook * nat)) (info : StepInfo)
    (force : bool) : list Event :=
  ev_run_hooks info force ::
  flat_map (fun h : Hook * nat =>
              if force || Nat.eqb (info_step info mod snd h) 0
              then ev_callback (fst h) info :: callback env (fst h) info
              else [])
           hooks.

(** The registry after every [engine.add_hook] of [main]. *)
Definition engine (config : TrainLmConfig) : list (Hook * nat) :=
  [(pbar_logger, 1%nat); (log_to_wandb, 1%nat); (log_performance_stats, 1%nat);
   (compute_validation_loss, steps_per_eval config);
   (wandb_xla_logger, steps_per_eval config);
   (checkpointer_on_step, 1%nat)]
  ++ match hf_save_path config with
     | Some _ => [(save_hf_checkpoint_callback, hf_save_steps config)]
     | None => []
     end
  ++ [(compute_and_visualize_log_probs, steps_per_eval config)].

(** The variables the loop of [main] updates. *)
Record LoopState : Type := {
  st_model : Model;
  st_opt_state : OptState;
  st_training_key : Key;
  st_iter_data : nat;       (* how many batches [iter_data] has yielded *)
  st_step_loss : Q;
  st_step_time : Q
}.

(** One pass through the body of [for step in range(initial_step,
    num_train_steps)]. *)
Definition loop_body (config : TrainLmConfig) (env : Env) (step : nat) (st : LoopState)
  : LoopState * list Event :=
  let example := train_loader (st_iter_data st) in
  let (my_key, training_key) := split2 (st_training_key st) in
  let '(jax_step_loss, model, opt_state) :=
    train_step config (st_model st) (st_opt_state st) example my_key in
  let step_loss := jax_step_loss in
  let step_time := capture_time env step in
  let info := {| info_step := step; info_model := model;
                 info_opt_state := opt_state; info_loss := step_loss;
                 info_key := training_key; info_step_duration := step_time |} in
  ({| st_model := model; st_opt_state := opt_state;
      st_training_key := training_key; st_iter_data := S (st_iter_data st);
      st_step_loss := step_loss; st_step_time := step_time |},
   ev_train_step step example my_key :: run_hooks env (engine config) info false).

(** [for step in range(step, step + n)]. *)
Fixpoint train_loop (config : TrainLmConfig) (env : Env) (n : nat) (step : nat)
    (st : LoopState) : LoopState * list Event :=
  match n with
  | O => (st, [])
  | S n' =>
      let (st', events) := loop_body config env step st in
      let (st'', events') := train_loop config env n' (S step) st' in
      (st'', events ++ events')
  end.

(** [for _ in range(n): next(iter_data)]. *)
Fixpoint seek (n : nat) (iter_data : nat) : nat * list Event :=
  match n with
  | O => (iter_data, [])
  | S n' =>
      let batch := train_loader iter_data in
      let (iter_data', events) := seek n' (S iter_data) in
      (iter_data', ev_seek batch :: events)
  end.

(** What [config.trainer.maybe_load_checkpoint] found: the model, the
    optimizer state, the training key and the step of the checkpoint. *)
Definition Checkpoint : Type := (Model * OptState * Key * nat)%type.

Definition main (config : TrainLmConfig) (env : Env) (checkpoint : option Checkpoint)
  : list Event :=
  let '(data_key, loader_key, model_key, training_key) := split4 (PRNGKey (seed config)) in
  let '(model, opt_state, training_key, resume_step) :=
    match checkpoint with
    | Some (model, opt_state, training_key, step) =>
        (model, opt_state, training_key, Some step)
    | None =>
        if initialize_from_hf config then
          let model := load_pretrained in
          let opt_state := optimizer_init model in
          (model, opt_state, training_key, None)
        else
          let (model, opt_state) := init_model_and_opt_state config model_key in
          (model, opt_state, training_key, None)
    end in
  let iter_data := O in
  let '(iter_data, initial_step, seek_events) :=
    match resume_step with
    | Some resume_step =>
        let (iter_data, events) := seek (resume_step + 1) iter_data in
        (iter_data, (resume_step + 1)%nat, events)
    | None => (iter_data, O, [])
    end in
  let st := {| st_model := model; st_opt_state := opt_state;
               st_training_key := training_key; st_iter_data := iter_data;
               st_step_loss := 0; st_step_time := 0 |} in
  let (st, loop_events) :=
    train_loop config env (num_train_steps config - initial_step) initial_step st in
  let last_step := {| info_step := num_train_steps config; info_model := st_model st;
                      info_opt_state := st_opt_state st; info_loss := st_step_loss st;
                      info_key := st_training_key st;
                      info_step_duration := st_step_time st |} in
  seek_events ++ loop_events
    ++ run_hooks env (engine config) last_step true
    ++ on_step env last_step true.

(** *** Reading a run *)

(** The state [main] enters its loop with when it starts at [initial_step]
    with its iterator at [iter_data], and the [StepInfo] it builds after
    the loop. *)
Definition loop_entry (start : Model * OptState * Key) (iter_data : nat) : LoopState :=
  let '(model, opt_state, training_key) := start in
  {| st_model := model; st_opt_state := opt_state;
     st_training_key := training_key; st_iter_data := iter_data;
     st_step_loss := 0; st_step_time := 0 |}.

Definition last_step (config : TrainLmConfig) (st : LoopState) : StepInfo :=
  {| info_step := num_train_steps config; info_model := st_model st;
     info_opt_state := st_opt_state st; info_loss := st_step_loss st;
     info_key := st_training_key st;
     info_step_duration := st_step_time st |}.

(** The model, optimizer state and key of a run that starts without a
    checkpoint. *)
Definition fresh_start (config : TrainLmConfig) : Model * OptState * Key :=
  let '(_, _, model_key, training_key) := split4 (PRNGKey (seed config)) in
  if initialize_from_hf config then
    (load_pretrained, optimizer_init load_pretrained, training_key)
  else
    (fst (init_model_and_opt_state config model_key),
     snd (init_model_and_opt_state config model_key), training_key).

(** The parameters a run starts from: the checkpoint's, or those of
    [fresh_start]. *)
Definition first_model (config : TrainLmConfig) (checkpoint : option Checkpoint) : Model :=
  match checkpoint with
  | Some (model, _, _, _) => model
  | None => fst (fst (fresh_start config))
  end.

(** Events of the hook dispatcher: neither a seek nor a training step. *)
Definition hook_event (e : Event) : Prop :=
  match e with
  | ev_seek _ | ev_train_step _ _ _ => False
  | _ => True
  end.

(** Two loop states that agree on all but the measured duration. *)
Definition same_but_time (a b : LoopState) : Prop :=
  st_model a = st_model b /\ st_opt_state a = st_opt_state b
  /\ st_training_key a = st_training_key b /\ st_iter_data a = st_iter_data b
  /\ st_step_loss a = st_step_loss b.

(** The batches dropped while seeking. *)
Definition seeks (events : list Event) : list Example :=
  flat_map (fun e => match e with ev_seek b => [b] | _ => [] end) events.

(** The steps trained, each with its batch and its key. *)
Definition trained_on (events : list Event) : list (nat * Example * Key) :=
  flat_map (fun e => match e with ev_train_step s b k => [(s, b, k)] | _ => [] end) events.

(** Every [StepInfo] handed to [run_hooks], and the losses they carry. *)
Definition step_infos (events : list Event) : list StepInfo :=
  flat_map (fun e => match e with ev_run_hooks info _ => [info] | _ => [] end) events.

Definition losses (events : list Event) : list Q := map info_loss (step_infos events).

(** Every model a callback or the checkpointer was given. *)
Definition event_model (e : Event) : list Model :=
  match e with
  | ev_run_hooks info _ | ev_callback _ info | ev_save info _ => [info_model info]
  | _ => []
  end.

Definition models_seen (events : list Event) : list Model := flat_map event_model events.

(** The dispatches and saves made with [force=True]. *)
Definition is_forced (e : Event) : bool :=
  match e with
  | ev_run_hooks _ true | ev_save _ true => true
  | _ => false
  end.

Definition forced_events (events : list Event) : list Event := filter is_forced events.

(** The callbacks invoked, in order. *)
Definition called_hooks (events : list Event) : list Hook :=
  flat_map (fun e => match e with ev_callback h _ => [h] | _ => [] end) events.

End Main.

(** A world to run [main] in: numbers for keys, batches and parameters. *)
Definition toy_world : World := {|
  Params := Q; Values := Q; OptState := nat; Key := nat; Example := nat;
  Grads := Q; Updates := Q;
  PRNGKey := fun z => Z.to_nat z;
  split2 := fun k => ((2 * k + 1)%nat, (2 * k + 2)%nat);
  split4 := fun k => ((4 * k + 1)%nat, (4 * k + 2)%nat, (4 * k + 3)%nat, (4 * k + 4)%nat);
  astype_params := fun _ p => p;
  astype_values := fun _ v => v;
  build := fun k => {| model_dtype := Float16; model_params := inject_nat k |};
  load_pretrained := {| model_dtype := Float16; model_params := 0 |};
  forward := fun m e _ _ =>
    {| array_dtype := model_dtype m; array_values := model_params m * inject_nat e |};
  one_hot_values := fun e _ => inject_nat e;
  cross_entropy_values := fun p t _ => array_values p - array_values t;
  mean_scalar := fun a => array_values a;
  optimizer_init := fun _ => O;
  optimizer_update := fun g o _ => (- g, S o);
  apply_updates := fun m u =>
    {| model_dtype := model_dtype m; model_params := model_params m + u |};
  filter_value_and_grad := fun f m e k => (f m e k, inject_nat e);
  grad_accum := fun f m e k _ => f m e k;
  train_loader := fun i => (i mod 3)%nat
|}.

Definition toy_policy : Policy :=
  {| param_dtype := Float32; compute_dtype := BFloat16; output_dtype := Float32 |}.

Definition toy_config (steps : nat) : @TrainLmConfig :=
  {| seed := 0; num_train_steps := steps; steps_per_eval := 2;
     per_device_parallelism := 1; mp := toy_policy;
     initialize_from_hf := false; hf_save_path := None; hf_save_steps := 10 |}.


Definition toy_env : @Env toy_world :=
  {| capture_time := fun s => inject_nat s; save_due := fun _ => false |}.

Definition slow_env : @Env toy_world :=
  {| capture_time := fun s => inject_nat (s + 7); save_due := fun _ => true |}.

Definition toy_checkpoint (step : nat) : @Checkpoint toy_world :=
  ({| model_dtype := Float32; model_params := 1 |}, 5%nat, 7%nat, step).

End TrainLm.

(* ===================================================================== *)
(** ** projects/instruction_tuning/instruction_tune.py: the two phases *)
(* ===================================================================== *)

Module InstructionTune.

(** [x < y] on floats, taken as the rationals they are. *)
Definition Qltb (x y : Q) : bool := negb (Qle_bool y x).

(** [int(x)] on a float: truncation towards zero. *)
Definition py_int (x : Q) : Z := Z.quot (Qnum x) (Zpos (Qden x)).

(** Where a batch comes from: the instruction dataset or the dataset of
    the first phase. *)
Inductive Source : Type := from_itune_dataset | from_iter_data.

(** What [main] takes from outside. *)
Class World : Type := {
  Model : Type;
  OptState : Type;
  Key : Type;
  Keys : Type;            (* the array of per-example keys *)
  Batch : Type;
  Example : Type;         (* one example of the instruction dataset *)
  Decoded : Type;         (* a [DecoderOnlyExample] *)
  PRNGKey : Z -> Key;
  split2 : Key -> Key * Key;
  split3 : Key -> Key * Key * Key;
  global_key_array : Key -> nat -> Keys;
  load_hf_gpt2_checkpoint : Model;              (* after [resize_vocab] *)
  optimizer_init : Model -> OptState;
  train_step : Model -> OptState -> Batch -> Keys -> Q * Model * OptState;
  base_dataset : Key -> nat -> Batch;   (* batch [i] of [non_caching_cycle(base_dataset)] *)
  itune_dataset : list Example;         (* the lines of [instruction_dataset_path] *)
  convert_to_decoder_only : Example -> Decoded;
  shard_batch : list Decoded -> Batch;
  uniform : Key -> nat -> Q     (* draw [i] of [numpy.random.default_rng(key).uniform()] *)
}.

Section Main.

Context {W : World}.

Record InstructionTuneConfig : Type := {
  seed : Z;
  num_train_steps : Z;
  train_batch_size : nat;
  instruction_weight : Q;
  ul2r_phase_fraction : Q
}.

Record StepInfo : Type := {
  info_step : Z;
  info_model : Model;
  info_opt_state : OptState;
  info_loss : Q;
  info_key : Key;
  info_step_duration : Q
}.

Inductive Event : Type :=
| ev_next_batch (step : Z) (source : Source) (batch : Batch)
| ev_wandb_log_phase (phase : nat) (step : Z)      (* [wandb.log({"phase": phase}, step=step)] *)
| ev_run_hooks (info : StepInfo)
| ev_save_checkpoint (info : StepInfo) (tag : String.string).

(** The local variables of [main] the two loops assign; [step],
    [step_loss] and [step_time] are unbound until a loop body has run. *)
Record LoopState : Type := {
  st_model : Model;
  st_opt_state : OptState;
  st_training_key : Key;
  st_iter_data : nat;                  (* how many batches [iter_data] has yielded *)
  st_last : option (Z * Q * Q)         (* [step], [step_loss], [step_time()] *)
}.

(** The state of the generator [batch_sampler]: how many numbers its
    [prng] has drawn and what is left of [iter_itune]. The generator
    reads [iter_data] of [main], which is in [LoopState]. *)
Record SamplerState : Type := {
  sampler_draws : nat;
  iter_itune : list Example
}.

(** [for i in range(n): example = next(iter_itune); ...; batch.append(example)]:
    the batch and what is left, or nothing when the iterator runs out. *)
Fixpoint take_examples (n : nat) (it : list Example) : option (list Decoded * list Example) :=
  match n with
  | O => Some ([], it)
  | S n' =>
      match it with
      | [] => None
      | example :: it' =>
          match take_examples n' it' with
          | Some (batch, rest) => Some (convert_to_decoder_only example :: batch, rest)
          | None => None
          end
      end
  end.

(** One [next(iter_data_2)]: the body of [while True] of [batch_sampler]
    up to its [yield]. A [StopIteration] inside a generator surfaces as
    a [RuntimeError]. *)
Definition batch_sampler_next (config : InstructionTuneConfig) (ul2r_key itune_key : Key)
    (iter_data : nat) (sampler : SamplerState)
  : outcome (Batch * Source * nat * SamplerState) :=
  if Qltb (uniform itune_key (sampler_draws sampler)) (instruction_weight config) then
    match take_examples (train_batch_size config) (iter_itune sampler) with
    | Some (batch, rest) =>
        Ok (shard_batch batch, from_itune_dataset, iter_data,
            {| sampler_draws := S (sampler_draws sampler); iter_itune := rest |})
    | None => Raise RuntimeError
    end
  else
    Ok (base_dataset ul2r_key iter_data, from_iter_data, S iter_data,
        {| sampler_draws := S (sampler_draws sampler);
           iter_itune := iter_itune sampler |}).

(** The steps of a loop body after the batch is drawn, the same in both
    phases but for the phase logged. *)
Definition train_on (config : InstructionTuneConfig) (durations : Z -> Q) (phase : nat)
    (step : Z) (batch : Batch) (iter_data : nat) (st : LoopState)
  : LoopState * list Event :=
  let (my_key, training_key) := split2 (st_training_key st) in
  let example_keys := global_key_array my_key (train_batch_size config) in
  let '(step_loss, model, opt_state) :=
    train_step (st_model st) (st_opt_state st) batch example_keys in
  let step_time := durations step in
  ({| st_model := model; st_opt_state := opt_state; st_training_key := training_key;
      st_iter_data := iter_data; st_last := Some (step, step_loss, step_time) |},
   [ev_wandb_log_phase phase step;
    ev_run_hooks {| info_step := step; info_model := model; info_opt_state := opt_state;
                    info_loss := step_loss; info_key := training_key;
                    info_step_duration := step_time |}]).

(** [for step in range(step, step + n)] of the UL2R phase. *)
Fixpoint ul2r_loop (config : InstructionTuneConfig) (durations : Z -> Q) (ul2r_key : Key)
    (n : nat) (step : Z) (st : LoopState) : LoopState * list Event :=
  match n with
  | O => (st, [])
  | S n' =>
      let batch := base_dataset ul2r_key (st_iter_data st) in
      let (st', events) :=
        train_on config durations 1 step batch (S (st_iter_data st)) st in
      let (st'', events') := ul2r_loop config durations ul2r_key n' (step + 1)%Z st' in
      (st'', ev_next_batch step from_iter_data batch :: events ++ events')
  end.

(** [for step in range(step, step + n)] of the instruction-tuning phase. *)
Fixpoint itune_loop (config : InstructionTuneConfig) (durations : Z -> Q)
    (ul2r_key itune_key : Key) (n : nat) (step : Z) (st : LoopState)
    (sampler : SamplerState) : LoopState * list Event * outcome unit :=
  match n with
  | O => (st, [], Ok tt)
  | S n' =>
      match batch_sampler_next config ul2r_key itune_key (st_iter_data st) sampler with
      | Ok (batch, source, iter_data, sampler') =>
          let (st', events) := train_on config durations 2 step batch iter_data st in
          let '(st'', events', result) :=
            itune_loop config durations ul2r_key itune_key n' (step + 1)%Z st' sampler' in
          (st'', ev_next_batch step source batch :: events ++ events', result)
      | Raise e => (st, [], Raise e)
      | NotANumber => (st, [], NotANumber)
      end
  end.

(** [checkpointer.save_checkpoint(StepInfo(step, model, opt_state,
    step_loss, training_key, step_duration=step_time()), tag)]. *)
Definition save_checkpoint (st : LoopState) (tag : String.string) : list Event * outcome unit :=
  match st_last st with
  | Some (step, step_loss, step_time) =>
      ([ev_save_checkpoint
          {| info_step := step; info_model := st_model st;
             info_opt_state := st_opt_state st; info_loss := step_loss;
             info_key := st_training_key st; info_step_duration := step_time |} tag],
       Ok tt)
  | None => ([], Raise NameError)
  end.

Definition main (config : InstructionTuneConfig) (durations : Z -> Q)
  : list Event * outcome unit :=
  let '(ul2r_key, itune_key, training_key) := split3 (PRNGKey (seed config)) in
  let model := load_hf_gpt2_checkpoint in
  let opt_state := optimizer_init model in
  let st := {| st_model := model; st_opt_state := opt_state;
               st_training_key := training_key; st_iter_data := O;
               st_last := None |} in
  let ul2r_steps :=
    py_int (inject_Z (num_train_steps config) * ul2r_phase_fraction config) in
  let (st, events1) :=
    ul2r_loop config durations ul2r_key (Z.to_nat ul2r_steps) 0%Z st in
  let (saved1, result1) :=
    if (0 <? ul2r_steps)%Z then save_checkpoint st "ul2r_finished"%string else ([], Ok tt) in
  match result1 with
  | Ok _ =>
      let sampler := {| sampler_draws := O; iter_itune := itune_dataset |} in
      let '(st, events2, result2) :=
        itune_loop config durations ul2r_key itune_key
          (Z.to_nat (num_train_steps config - ul2r_steps)) ul2r_steps st sampler in
      match result2 with
      | Ok _ =>
          let (saved2, result3) := save_checkpoint st "instruction_tuned"%string in
          (events1 ++ saved1 ++ events2 ++ saved2, result3)
      | Raise e => (events1 ++ saved1 ++ events2, Raise e)
      | NotANumber => (events1 ++ saved1 ++ events2, NotANumber)
      end
  | Raise e => (events1 ++ saved1, Raise e)
  | NotANumber => (events1 ++ saved1, NotANumber)
  end.

(** *** Reading a run *)

(** The phase logs and the checkpoints saved, in order: [inl (phase,
    step)] for a log, [inr (tag, step)] for a checkpoint. *)
Definition milestones (events : list Event) : list (nat * Z + String.string * Z) :=
  flat_map (fun e => match e with
                     | ev_wandb_log_phase p s => [inl (p, s)]
                     | ev_save_checkpoint info tag => [inr (tag, info_step info)]
                     | _ => []
                     end) events.

Definition saved_tags (events : list Event) : list String.string :=
  flat_map (fun e => match e with ev_save_checkpoint _ tag => [tag] | _ => [] end) events.

(** The source of the batch of each step. *)
Definition sources (events : list Event) : list (Z * Source) :=
  flat_map (fun e => match e with ev_next_batch s src _ => [(s, src)] | _ => [] end) events.

(** [range(start, start + n)]. *)
Fixpoint py_range (start : Z) (n : nat) : list Z :=
  match n with
  | O => []
  | S n' => start :: py_range (start + 1)%Z n'
  end.



(** The number of steps of the first phase. *)
Definition ul2r_steps (config : InstructionTuneConfig) : Z :=
  py_int (inject_Z (num_train_steps config) * ul2r_phase_fraction config).

End Main.

(** A world to run [main] in. *)
Definition toy_tuner : World := {|
  Model := Q; OptState := nat; Key := nat; Keys := nat; Batch := list nat;
  Example := nat; Decoded := nat;
  PRNGKey := fun z => Z.to_nat z;
  split2 := fun k => ((2 * k + 1)%nat, (2 * k + 2)%nat);
  split3 := fun k => ((3 * k + 1)%nat, (3 * k + 2)%nat, (3 * k + 3)%nat);
  global_key_array := fun k n => (k + n)%nat;
  load_hf_gpt2_checkpoint := 0;
  optimizer_init := fun _ => O;
  train_step := fun m o b k => (inject_nat (length b), m + 1, S o);
  base_dataset := fun _ i => [i];
  itune_dataset := seq 100 20;
  convert_to_decoder_only := fun e => e;
  shard_batch := fun b => b;
  uniform := fun _ i => if Nat.even i then 1 # 4 else 3 # 4
|}.

Definition toy_tune_config : InstructionTuneConfig :=
  {| seed := 0; num_train_steps := 10; train_batch_size := 2;
     instruction_weight := 1 # 2; ul2r_phase_fraction := 1 # 2 |}.

End InstructionTune.

(* ===================================================================== *)
(** ** modeling_utils.py: activation, running mean, checkpointed chains *)
(* ===================================================================== *)

Module Activations.
Import Reals.
Local Open Scope R_scope.

(** [hnn.sigmoid] is [jax.nn.sigmoid], the logistic function. *)
Definition sigmoid (x : R) : R := 1 / (1 + exp (- x)).

Definition quick_gelu (x : R) : R := x * sigmoid (1.702 * x).

End Activations.

Module Running.

Section Shape.

(** The positions of an array of the [shape] the mean was created with;
    an array is its entry at every position, and [x - mean], [/ count]
    and [+=] act on each entry alone. *)
Variable I : Type.

Record RunningMean : Type := {
  mean : I -> Q;
  count : nat
}.

(** [__init__]: [jnp.zeros(shape, dtype)] and [0]. *)
Definition init : RunningMean := {| mean := fun _ => 0; count := 0 |}.

Definition update (self : RunningMean) (x : I -> Q) : RunningMean :=
  let count' := S (count self) in
  {| mean := fun i => mean self i + (x i - mean self i) / inject_nat count';
     count := count' |}.

(** The object after [update] was called on each of [xs] in turn. *)
Definition updates (self : RunningMean) (xs : list (I -> Q)) : RunningMean :=
  fold_left update xs self.

End Shape.

End Running.

Module Checkpointing.

(** [functools.reduce(function, iterable)] without an initial value: the
    left fold from the first element; on an empty iterable it raises
    [TypeError], here [None]. *)
Definition functools_reduce {T : Type} (fn : T -> T -> T) (xs : list T) : option T :=
  match xs with
  | [] => None
  | x :: xs' => Some (fold_left fn xs' x)
  end.

(** [jax.remat(f)] computes what [f] computes; it only changes what is
    kept for the backward pass. *)
Definition remat {A : Type} (f : A -> A) : A -> A := f.

(** [None] is the [TypeError] of [functools.reduce]. The recursive calls
    take the default [threshold=2]. *)
Equations? recursive_checkpoint {A : Type} (funs : list (A -> A)) (threshold : nat)
  : option (A -> A) by wf (length funs) lt :=
recursive_checkpoint [] threshold :=
  functools_reduce (fun f g => fun x => g (f x)) [];
recursive_checkpoint [f] threshold := Some f;
recursive_checkpoint [f1; f2] threshold := Some (fun x => f2 (f1 x));
recursive_checkpoint (f1 :: f2 :: f3 :: rest) threshold :=
  let funs := f1 :: f2 :: f3 :: rest in
  if length funs <=? threshold
  then functools_reduce (fun f g => fun x => g (f x)) funs
  else
    match recursive_checkpoint (firstn (length funs / 2) funs) 2 with
    | None => None
    | Some g1 =>
        match recursive_checkpoint (skipn (length funs / 2) funs) 2 with
        | None => None
        | Some g2 => Some (fun x => g2 (remat g1 x))
        end
    end.
Proof.
- pose proof (Nat.div_lt (length (f1 :: f2 :: f3 :: rest)) 2
                ltac:(simpl; lia) ltac:(lia)) as Hhalf.
  change (length (firstn (length (f1 :: f2 :: f3 :: rest) / 2)
                         (f1 :: f2 :: f3 :: rest))
          < length (f1 :: f2 :: f3 :: rest))%nat.
  rewrite length_firstn. lia.
- pose proof (Nat.div_le_lower_bound (length (f1 :: f2 :: f3 :: rest)) 2 1
                ltac:(lia) ltac:(simpl; lia)) as Hhalf.
  change (length (skipn (length (f1 :: f2 :: f3 :: rest) / 2)
                        (f1 :: f2 :: f3 :: rest))
          < length (f1 :: f2 :: f3 :: rest))%nat.
  rewrite length_skipn. simpl length in *. lia.
Qed.

(** What the chain is to compute: every function in turn, first to last. *)
Definition chain {A : Type} (funs : list (A -> A)) (x : A) : A :=
  fold_left (fun acc f => f acc) funs x.

End Checkpointing.

(* ===================================================================== *)
(** ** Reading the cross entropy, the losses and the runs *)
(* ===================================================================== *)

Module Logits.
Import Reals.
Local Open Scope R_scope.

(** The logits with [c] added to every entry. *)
Definition shift (c : R) (pred_y : list (list R)) : list (list R) :=
  map (map (fun p => p + c)) pred_y.

End Logits.

(** [compute_loss] of instruction_tune.py. The casts of the mixed
    precision policy round; in exact arithmetic they change nothing. *)
Module InstructionTuneLoss.
Import Reals.
Local Open Scope R_scope.

(** The entries of [xs] at the positions where [mask] holds. *)
Fixpoint masked (mask : list bool) (xs : list R) : list R :=
  match mask, xs with
  | m :: mask', x :: xs' => if m then x :: masked mask' xs' else masked mask' xs'
  | _, _ => []
  end.

(** [hax.mean(xs, where=mask)]: the mean over the positions where the
    mask holds, a [nan] ([None]) when it holds nowhere. *)
Definition hax_mean_where (xs : list R) (mask : list bool) : option R :=
  match masked mask xs with
  | [] => None
  | kept => Some (CrossEntropy.Rsum kept / INR (length kept))
  end.

Section ComputeLoss.

Variables Model Example Key : Type.

(** The size of the axis [Vocab]. *)
Variable Vocab : nat.

(** [model(ex.tokens, ex.attn_mask, key=key, inference=inference)]: one
    row of logits over [Vocab] per position. *)
Variable forward : Model -> Example -> Key -> bool -> list (list R).

(** [ex.targets] and [ex.loss_mask], one entry per position. *)
Variable targets : Example -> list nat.
Variable loss_mask : Example -> list bool.

Definition compute_loss (model : Model) (ex : Example) (inference : bool) (key : Key)
  : option R :=
  let pred_y := forward model ex key inference in
  let loss :=
    CrossEntropy.cross_entropy_loss pred_y (CrossEntropy.one_hot (targets ex) Vocab) in
  hax_mean_where loss (loss_mask ex).

End ComputeLoss.

(** Two examples of two positions over two labels, told apart by a
    boolean: they differ at the second position only, which their mask
    leaves out. *)
Definition toy_forward (_ : unit) (ex : bool) (_ : unit) (_ : bool) : list (list R) :=
  [[0; 0]; if ex then [1; 0] else [5; 7]].

Definition toy_targets (ex : bool) : list nat := [0%nat; if ex then 1%nat else 0%nat].

Definition toy_loss_mask (_ : bool) : list bool := [true; false].

End InstructionTuneLoss.

Module TrainLmReading.
Import TrainLm.

Section Reading.

Context {W : World}.

(** The keys [my_key] of [n] passes through the loop that is entered
    with [training_key]. *)
Fixpoint step_keys (training_key : Key) (n : nat) : list Key :=
  match n with
  | O => []
  | S n' =>
      let (my_key, training_key') := split2 training_key in
      my_key :: step_keys training_key' n'
  end.

(** What the loop does when it runs [n] steps from [start] on with
    [training_key]: the step, its batch and its key. *)
Definition schedule (start n : nat) (training_key : Key)
  : list (nat * Example * Key) :=
  combine (combine (seq start n) (map train_loader (seq start n)))
          (step_keys training_key n).

(** The checkpoint that holds the model, optimizer state, key and step of
    a [StepInfo]. *)
Definition checkpoint_of (info : StepInfo) : Checkpoint :=
  (info_model info, info_opt_state info, info_key info, info_step info).

(** A [StepInfo] without its measured duration. *)
Definition outcome_of (info : StepInfo)
  : nat * Model Params * OptState * Q * Key :=
  (info_step info, info_model info, info_opt_state info, info_loss info, info_key info).

Definition outcomes (events : list Event) : list (nat * Model Params * OptState * Q * Key) :=
  map outcome_of (step_infos events).

(** The [StepInfo] built at [step] from the variables of the loop. *)
Definition info_of (step : nat) (st : LoopState) : StepInfo :=
  {| info_step := step; info_model := st_model st;
     info_opt_state := st_opt_state st; info_loss := st_step_loss st;
     info_key := st_training_key st; info_step_duration := st_step_time st |}.

(** Two loop states with the same model, optimizer state, key and place
    in the data. *)
Definition same_start (a b : LoopState) : Prop :=
  st_model a = st_model b /\ st_opt_state a = st_opt_state b
  /\ st_training_key a = st_training_key b /\ st_iter_data a = st_iter_data b.

End Reading.

End TrainLmReading.

Module InstructionTuneReading.
Import InstructionTune.

Section Reading.

Context {W : World}.

(** The batches a run took from [iter_data], and those its sampler built
    from the instruction dataset, in order. *)
Definition base_batches (events : list Event) : list Batch :=
  flat_map (fun e => match e with
                     | ev_next_batch _ from_iter_data b => [b]
                     | _ => []
                     end) events.

Definition itune_batches (events : list Event) : list Batch :=
  flat_map (fun e => match e with
                     | ev_next_batch _ from_itune_dataset b => [b]
                     | _ => []
                     end) events.

(** The keys of [main]. *)
Definition ul2r_key (config : InstructionTuneConfig) : Key :=
  fst (fst (split3 (PRNGKey (seed config)))).

Definition itune_key (config : InstructionTuneConfig) : Key :=
  snd (fst (split3 (PRNGKey (seed config)))).

(** Of the [n] draws of the sampler from draw [draw] on, how many fall
    below the instruction weight: the batches [n] steps of the second
    phase take from the instruction dataset. *)
Fixpoint instruction_draws (config : InstructionTuneConfig) (itune_key : Key)
    (draw n : nat) : nat :=
  match n with
  | O => O
  | S n' =>
      ((if Qltb (uniform itune_key draw) (instruction_weight config) then 1 else 0)
       + instruction_draws config itune_key (S draw) n')%nat
  end.

(** The variables [main] enters its first loop with. *)
Definition first_state (config : InstructionTuneConfig) : LoopState :=
  {| st_model := load_hf_gpt2_checkpoint;
     st_opt_state := optimizer_init load_hf_gpt2_checkpoint;
     st_training_key := snd (split3 (PRNGKey (seed config)));
     st_iter_data := O; st_last := None |}.

(** The parts of a run: the first loop, the checkpoint after it, the
    second loop. *)
Definition phase1 (config : InstructionTuneConfig) (durations : Z -> Q)
  : LoopState * list Event :=
  ul2r_loop config durations (ul2r_key config) (Z.to_nat (ul2r_steps config)) 0%Z
    (first_state config).

Definition saved1 (config : InstructionTuneConfig) (durations : Z -> Q)
  : list Event * outcome unit :=
  if (0 <? ul2r_steps config)%Z
  then save_checkpoint (fst (phase1 config durations)) "ul2r_finished"%string
  else ([], Ok tt).

Definition phase2 (config : InstructionTuneConfig) (durations : Z -> Q)
  : LoopState * list Event * outcome unit :=
  itune_loop config durations (ul2r_key config) (itune_key config)
    (Z.to_nat (num_train_steps config - ul2r_steps config)) (ul2r_steps config)
    (fst (phase1 config durations))
    {| sampler_draws := O; iter_itune := itune_dataset |}.

End Reading.

(** [toy_tuner] with an instruction dataset of six examples: three
    batches of two, fewer than the five steps of a second phase. *)
Definition small_tuner : World := {|
  Model := Q; OptState := nat; Key := nat; Keys := nat; Batch := list nat;
  Example := nat; Decoded := nat;
  PRNGKey := fun z => Z.to_nat z;
  split2 := fun k => ((2 * k + 1)%nat, (2 * k + 2)%nat);
  split3 := fun k => ((3 * k + 1)%nat, (3 * k + 2)%nat, (3 * k + 3)%nat);
  global_key_array := fun k n => (k + n)%nat;
  load_hf_gpt2_checkpoint := 0;
  optimizer_init := fun _ => O;
  train_step := fun m o b k => (inject_nat (length b), m + 1, S o);
  base_dataset := fun _ i => [i];
  itune_dataset := seq 100 6;
  convert_to_decoder_only := fun e => e;
  shard_batch := fun b => b;
  uniform := fun _ i => if Nat.even i then 1 # 4 else 3 # 4
|}.

(** A first phase of [int(4 * 1.5) = 6] steps for 4 training steps, and
    a batch size the 20 examples of [toy_tuner] cannot fill. *)
Definition overlong_config : InstructionTuneConfig :=
  {| seed := 0; num_train_steps := 4; train_batch_size := 2;
     instruction_weight := 1 # 2; ul2r_phase_fraction := 3 # 2 |}.

Definition starved_config : InstructionTuneConfig :=
  {| seed := 0; num_train_steps := 10; train_batch_size := 21;
     instruction_weight := 1 # 2; ul2r_phase_fraction := 1 # 2 |}.

End InstructionTuneReading.

(* ===================================================================== *)
(** ** Facts: gradient accumulation *)
(* ===================================================================== *)

Module ModelingUtilsFacts.
Import ModelingUtils.

Lemma inject_nat_pos (n : nat) : (0 < n)%nat -> 0 < inject_nat n.
Proof.
  intros H. unfold inject_nat.
  change 0 with (inject_Z 0). rewrite <- Zlt_Qlt. lia.
Qed.

Lemma inject_nat_nonzero (n : nat) : (0 < n)%nat -> ~ inject_nat n == 0.
Proof.
  intros H E. pose proof (inject_nat_pos H) as P. rewrite E in P.
  exact (Qlt_irrefl 0 P).
Qed.

Lemma inject_nat_mul (m n : nat) : inject_nat (m * n) == inject_nat m * inject_nat n.
Proof.
  unfold inject_nat. rewrite Nat2Z.inj_mul, inject_Z_mult. reflexivity.
Qed.

Lemma Qsum_app (xs ys : list Q) : Qsum (xs ++ ys) == Qsum xs + Qsum ys.
Proof.
  induction xs as [|x xs IH]; simpl.
  - ring.
  - rewrite IH. ring.
Qed.

(** *** Reshaping *)

Lemma reshape_length {A} (rows cols : nat) (xs : list A) :
  length (reshape rows cols xs) = rows.
Proof.
  revert xs. induction rows as [|r IH]; intros xs; simpl; [reflexivity|].
  now rewrite IH.
Qed.

Lemma reshape_concat {A} (rows cols : nat) (xs : list A) :
  length xs = (rows * cols)%nat -> concat (reshape rows cols xs) = xs.
Proof.
  revert xs. induction rows as [|r IH]; intros xs H; simpl in *.
  - destruct xs; [reflexivity | discriminate].
  - rewrite IH.
    + apply firstn_skipn.
    + rewrite length_skipn. lia.
Qed.

Lemma reshape_rows {A} (rows cols : nat) (xs : list A) :
  length xs = (rows * cols)%nat ->
  Forall (fun row => length row = cols) (reshape rows cols xs).
Proof.
  revert xs. induction rows as [|r IH]; intros xs H; simpl in *.
  - constructor.
  - constructor.
    + rewrite length_firstn. lia.
    + apply IH. rewrite length_skipn. lia.
Qed.

(** The sum over a batch is the sum of the sums over its rows. *)
Lemma Qsum_concat_rows {A} (phi : A -> Q) (rows : list (list A)) :
  Qsum (map phi (concat rows)) == Qsum (map (fun row => Qsum (map phi row)) rows).
Proof.
  induction rows as [|r rows IH]; simpl.
  - reflexivity.
  - rewrite map_app, Qsum_app, IH. reflexivity.
Qed.

(** *** The accumulator on one row *)

Lemma zip_with_length (g : Q -> Q -> Q) (a b : PyTree) :
  length a = length b -> length (zip_with g a b) = length a.
Proof.
  revert b. induction a as [|x a IH]; intros [|y b] H; simpl in *; try discriminate; auto.
Qed.

Lemma zip_with_nth (a b : PyTree) (k : nat) :
  length a = length b ->
  nth k (zip_with Qplus a b) 0 == nth k a 0 + nth k b 0.
Proof.
  revert b k. induction a as [|x a IH]; intros [|y b] k H; simpl in *; try discriminate.
  - destruct k; ring.
  - destruct k; [reflexivity | apply IH; lia].
Qed.

Lemma Forall2_Qeq_nth (a b : PyTree) :
  length a = length b ->
  (forall k, (k < length a)%nat -> nth k a 0 == nth k b 0) ->
  Forall2 Qeq a b.
Proof.
  revert b. induction a as [|x a IH]; intros [|y b] HL Hn; simpl in *; try discriminate.
  - constructor.
  - constructor.
    + apply (Hn O). lia.
    + apply IH; [lia|]. intros k Hk. apply (Hn (S k)). lia.
Qed.

Lemma nth_zeros (t : PyTree) (k : nat) : nth k (tree_map (fun _ => 0) t) 0 = 0.
Proof.
  unfold tree_map. revert k. induction t as [|m ms IH]; intros [|k]; simpl; auto.
Qed.

Lemma Forall2_Qeq_nth_inv (a b : PyTree) (k : nat) :
  Forall2 Qeq a b -> nth k a 0 == nth k b 0.
Proof.
  intros H. revert k. induction H as [|x y a b Hxy _ IH]; intros [|k]; simpl;
    try reflexivity; auto.
Qed.

(** The mean over the rows of the means of rows of equal length is the
    mean over the whole batch. *)
Lemma mean_of_row_means {A} (phi : A -> Q) (rows : list (list A)) (n : nat) :
  (0 < n)%nat -> (0 < length rows)%nat ->
  Forall (fun row => length row = n) rows ->
  Qsum (map (fun row => Qsum (map phi row) / inject_nat (length row)) rows)
    / inject_nat (length rows)
  == Qsum (map phi (concat rows)) / inject_nat (length rows * n).
Proof.
  intros Hn Hm Hrows.
  assert (E : Qsum (map (fun row => Qsum (map phi row) / inject_nat (length row)) rows)
              == Qsum (map phi (concat rows)) / inject_nat n).
  { rewrite Qsum_concat_rows. clear Hm.
    induction Hrows as [|row rows Hrow _ IH]; simpl.
    - unfold Qdiv. ring.
    - rewrite IH, Hrow. unfold Qdiv. ring. }
  rewrite E, inject_nat_mul.
  field. split; apply inject_nat_nonzero; assumption.
Qed.

Lemma hax_mean_stack (model : PyTree) (grads : list PyTree) :
  grads <> [] ->
  hax_mean (stack model grads)
  = Ok (map (fun k => Qsum (map (fun g => nth k g 0) grads) / inject_nat (length grads))
            (seq 0 (length model))).
Proof.
  intros Hne. unfold hax_mean, stack.
  induction (seq 0 (length model)) as [|k ks IH]; simpl.
  - reflexivity.
  - rewrite IH. destruct grads as [|g gs]; [congruence|].
    simpl. now rewrite length_map.
Qed.

Section AccumulatorFacts.

Variable X : Type.
Variable f : PyTree -> X -> Q * PyTree.
Variable model : PyTree.

(** [f] returns a gradient of the model's structure, as its type
    [Callable[[M, X], Tuple[float, M]]] says. *)
Hypothesis f_shape : forall x, length (snd (f model x)) = length model.

Lemma reduce_compute_and_accumulate (xs : list X) :
  forall (l0 : Q) (g0 : PyTree) (n0 : nat),
    length g0 = length model ->
    exists l g,
      reduce (compute_and_accumulate f model) (l0, g0, n0) xs
        = (xs, Ok (l, g, (n0 + length xs)%nat))
      /\ l == l0 + Qsum (example_losses f model xs)
      /\ length g = length model
      /\ forall k, nth k g 0 == nth k g0 0 + Qsum (example_leaf f model k xs).
Proof.
  induction xs as [|x xs IH]; intros l0 g0 n0 Hg0.
  - exists l0, g0. simpl. rewrite Nat.add_0_r.
    split; [reflexivity | split; [simpl; ring | split; [exact Hg0 |]]].
    intros k. simpl. ring.
  - simpl. unfold compute_and_accumulate at 1. unfold call_f, bind at 2. simpl.
    pose proof (f_shape x) as Hx.
    destruct (f model x) as [lx gx] eqn:E. simpl in Hx.
    unfold tree_map2. rewrite Hg0, <- Hx, Nat.eqb_refl. simpl.
    destruct (IH (lx + l0) (zip_with Qplus g0 gx) (S n0)) as (l & g & Hr & Hl & Hlen & Hk).
    { rewrite zip_with_length; congruence. }
    exists l, g. unfold bind. rewrite Hr.
    replace (n0 + S (length xs))%nat with (S n0 + length xs)%nat by lia.
    split; [reflexivity | split; [| split; [congruence |]]].
    + rewrite Hl. unfold example_losses. simpl. ring.
    + intros k. rewrite Hk, zip_with_nth by congruence.
      unfold example_leaf. simpl. ring.
Qed.

Lemma nth_tree_scale (c : Q) (g : PyTree) (k : nat) :
  (k < length g)%nat -> nth k (tree_map (fun x => x / c) g) 0 = nth k g 0 / c.
Proof.
  intros Hk. unfold tree_map.
  rewrite (nth_indep _ 0 (0 / c)) by (rewrite length_map; exact Hk).
  apply (map_nth (fun x => x / c)).
Qed.

Lemma nth_full_batch_mean (xs : list X) (k : nat) :
  (k < length model)%nat ->
  nth k (snd (full_batch_mean f model xs)) 0
    = Qsum (example_leaf f model k xs) / inject_nat (length xs).
Proof.
  intros Hk. unfold full_batch_mean. simpl.
  rewrite (nth_indep _ 0 ((fun j => Qsum (example_leaf f model j xs) / inject_nat (length xs)) O))
    by (rewrite length_map, length_seq; exact Hk).
  rewrite (map_nth (fun j => Qsum (example_leaf f model j xs) / inject_nat (length xs))).
  rewrite seq_nth by exact Hk. reflexivity.
Qed.

Lemma length_full_batch_mean (xs : list X) :
  length (snd (full_batch_mean f model xs)) = length model.
Proof. unfold full_batch_mean. simpl. now rewrite length_map, length_seq. Qed.

(** On a row that is not empty, [accumulate_gradients] calls [f] on each
    example once, in order, and returns the mean over the row. *)
Lemma accumulate_gradients_row (xs : list X) :
  xs <> [] ->
  exists r,
    accumulate_gradients f model xs = (xs, Ok r)
    /\ mean_equiv r (full_batch_mean f model xs).
Proof.
  intros Hne. unfold accumulate_gradients.
  destruct (reduce_compute_and_accumulate xs 0 (tree_map (fun _ => 0) model) O)
    as (l & g & Hr & Hl & Hlen & Hk).
  { unfold tree_map. apply length_map. }
  unfold bind. rewrite Hr. simpl.
  destruct xs as [|x xs']; [congruence|]. simpl length in *.
  exists (l / inject_nat (S (length xs')),
          tree_map (fun y => y / inject_nat (S (length xs'))) g).
  split.
  - simpl. now rewrite app_nil_r.
  - split.
    + cbn [fst]. rewrite Hl. unfold full_batch_mean. cbn [fst length].
      apply Qdiv_comp; [unfold example_losses; simpl; ring | reflexivity].
    + cbn [snd]. apply Forall2_Qeq_nth.
      * unfold tree_map at 1. rewrite length_map, length_full_batch_mean. exact Hlen.
      * intros k Hlt. unfold tree_map at 1 in Hlt. rewrite length_map in Hlt.
        rewrite nth_tree_scale by exact Hlt.
        rewrite nth_full_batch_mean by congruence.
        rewrite Hk, nth_zeros. cbn [length].
        apply Qdiv_comp; [unfold example_leaf; simpl; ring | reflexivity].
Qed.

Lemma vmap_accumulate_gradients (rows : list (list X)) :
  Forall (fun row => row <> []) rows ->
  exists ys,
    vmap (accumulate_gradients f model) rows = (concat rows, Ok ys)
    /\ Forall2 (fun row y => mean_equiv y (full_batch_mean f model row)) rows ys.
Proof.
  induction 1 as [|row rows Hrow _ IH].
  - exists []. split; [reflexivity | constructor].
  - destruct (accumulate_gradients_row Hrow) as (r & Hr & Heq).
    destruct IH as (ys & Hys & Hall).
    exists (r :: ys). split.
    + simpl. unfold bind at 1. rewrite Hr.
      unfold bind at 1. rewrite Hys. simpl. now rewrite app_nil_r.
    + constructor; assumption.
Qed.

Lemma rows_losses (rows : list (list X)) (ys : list (Q * PyTree)) :
  Forall2 (fun row y => mean_equiv y (full_batch_mean f model row)) rows ys ->
  Qsum (map fst ys)
  == Qsum (map (fun row => Qsum (map (fun x => fst (f model x)) row)
                            / inject_nat (length row)) rows).
Proof.
  induction 1 as [|row y rows ys [Hl _] _ IH]; simpl.
  - reflexivity.
  - rewrite IH, Hl. reflexivity.
Qed.

Lemma rows_leaves (k : nat) (rows : list (list X)) (ys : list (Q * PyTree)) :
  (k < length model)%nat ->
  Forall2 (fun row y => mean_equiv y (full_batch_mean f model row)) rows ys ->
  Qsum (map (fun g => nth k g 0) (map snd ys))
  == Qsum (map (fun row => Qsum (map (fun x => nth k (snd (f model x)) 0) row)
                            / inject_nat (length row)) rows).
Proof.
  intros Hk. induction 1 as [|row y rows ys [_ Hg] _ IH]; simpl.
  - reflexivity.
  - rewrite IH, (Forall2_Qeq_nth_inv k Hg), nth_full_batch_mean by exact Hk.
    reflexivity.
Qed.

(** The accumulator on a batch that is not empty and divides evenly:
    [f] runs on every example once, and the result is the full-batch
    mean. *)
Lemma sharded_full_batch (inputs : list X) (data_axis_size per_device_parallelism : nat) :
  (0 < data_axis_size * per_device_parallelism)%nat ->
  inputs <> [] ->
  Nat.divide (data_axis_size * per_device_parallelism) (length inputs) ->
  exists r,
    accumulate_gradients_sharded f model inputs data_axis_size per_device_parallelism
      = (inputs, Ok r)
    /\ mean_equiv r (full_batch_mean f model inputs).
Proof.
  intros Hmb Hne [q Hq].
  set (mb := (data_axis_size * per_device_parallelism)%nat) in *.
  assert (HB : (0 < length inputs)%nat) by (destruct inputs; [congruence | simpl; lia]).
  assert (Hqpos : (0 < q)%nat) by (destruct q; simpl in Hq; lia).
  unfold accumulate_gradients_sharded. fold mb.
  unfold floordiv. destruct mb as [|mb'] eqn:Emb; [lia|]. rewrite <- Emb in *.
  assert (Hdiv : (length inputs / mb)%nat = q) by (rewrite Hq; apply Nat.div_mul; lia).
  unfold lift, bind at 1. rewrite Hdiv.
  replace (Nat.eqb (q * mb) (length inputs)) with true
    by (symmetry; apply Nat.eqb_eq; lia).
  unfold py_assert, bind at 1.
  assert (Hlen : length inputs = (mb * q)%nat) by lia.
  pose proof (reshape_rows mb q inputs Hlen) as Hrows.
  destruct (vmap_accumulate_gradients (rows := reshape mb q inputs)) as (ys & Hv & Hall).
  { eapply Forall_impl; [| exact Hrows]. intros row Hrow E. subst row. simpl in Hrow. lia. }
  rewrite (reshape_concat mb q inputs Hlen) in Hv.
  unfold bind at 1. rewrite Hv.
  assert (Hys : length ys = mb).
  { rewrite <- (Forall2_length Hall). apply reshape_length. }
  assert (Hysne : map snd ys <> []).
  { destruct ys; [simpl in Hys; lia | discriminate]. }
  rewrite (hax_mean_stack model Hysne). unfold bind at 1.
  unfold jnp_mean. destruct (map fst ys) as [|l0 ls] eqn:El.
  { destruct ys; [simpl in Hys; lia | discriminate]. }
  rewrite <- El. unfold bind, ret. cbn [app].
  eexists. split; [rewrite !app_nil_r; reflexivity|].
  assert (Hrl : length (reshape mb q inputs) = mb) by apply reshape_length.
  assert (Hm : (0 < length (reshape mb q inputs))%nat) by (rewrite Hrl; lia).
  split; cbn [fst snd].
  - assert (E := mean_of_row_means (fun x => fst (f model x)) Hqpos Hm Hrows).
    rewrite Hrl, (reshape_concat mb q inputs Hlen), <- Hlen in E.
    rewrite length_map, Hys, (rows_losses Hall), E. reflexivity.
  - apply Forall2_Qeq_nth.
    + rewrite length_map, length_seq, length_full_batch_mean. reflexivity.
    + intros k Hk. rewrite length_map, length_seq in Hk.
      rewrite nth_full_batch_mean by exact Hk.
      rewrite (nth_indep _ 0 ((fun j => Qsum (map (fun g => nth j g 0) (map snd ys))
                                        / inject_nat (length (map snd ys))) O))
        by (rewrite length_map, length_seq; exact Hk).
      rewrite (map_nth (fun j => Qsum (map (fun g => nth j g 0) (map snd ys))
                                 / inject_nat (length (map snd ys)))).
      rewrite seq_nth by exact Hk. cbn [Nat.add].
      assert (E := mean_of_row_means (fun x => nth k (snd (f model x)) 0) Hqpos Hm Hrows).
      rewrite Hrl, (reshape_concat mb q inputs Hlen), <- Hlen in E.
      rewrite length_map, Hys, (rows_leaves Hk Hall), E. reflexivity.
Qed.

End AccumulatorFacts.

Lemma mean_equiv_sym (a b : Q * PyTree) : mean_equiv a b -> mean_equiv b a.
Proof.
  intros [Hl Hg]. split; [symmetry; exact Hl|].
  induction Hg; constructor; auto. now symmetry.
Qed.

Lemma mean_equiv_trans (a b c : Q * PyTree) :
  mean_equiv a b -> mean_equiv b c -> mean_equiv a c.
Proof.
  intros [Hl Hg] [Hl' Hg']. split; [now rewrite Hl|].
  clear Hl Hl'. revert Hg'. generalize (snd c). induction Hg as [|x y xs ys Hxy _ IH]; intros zs Hz.
  - inversion Hz. constructor.
  - inversion Hz; subst. constructor; [now rewrite Hxy | now apply IH].
Qed.

(** *** No assertion fails once the divisibility check has passed *)

Lemma bind_ok_nil {X A B} (a : A) (k : A -> Exec X B) : bind ([], Ok a) k = k a.
Proof. unfold bind. destruct (k a). reflexivity. Qed.

Lemma no_assert_bind {X A B} (c : Exec X A) (k : A -> Exec X B) :
  no_assert c -> (forall a, no_assert (k a)) -> no_assert (bind c k).
Proof.
  unfold no_assert, bind. destruct c as [tr [a| e |]]; simpl; intros Hc Hk.
  - specialize (Hk a). destruct (k a). exact Hk.
  - intros E. apply Hc. inversion E. reflexivity.
  - discriminate.
Qed.

Lemma no_assert_tree_map2 {X} (g : Q -> Q -> Q) (a b : PyTree) :
  no_assert (@lift X _ (tree_map2 g a b)).
Proof.
  unfold no_assert, lift, tree_map2. simpl. destruct (Nat.eqb _ _); discriminate.
Qed.

Lemma no_assert_reduce {X S} (fn : S -> X -> Exec X S) (xs : list X) :
  (forall s x, no_assert (fn s x)) -> forall init, no_assert (reduce fn init xs).
Proof.
  intros Hfn. induction xs as [|x xs IH]; intros init; simpl.
  - discriminate.
  - apply no_assert_bind; auto.
Qed.

Lemma no_assert_accumulate_gradients {X} (f : PyTree -> X -> Q * PyTree) model xs :
  no_assert (accumulate_gradients f model xs).
Proof.
  unfold accumulate_gradients. apply no_assert_bind.
  - apply no_assert_reduce. intros [[l g] n] x.
    unfold compute_and_accumulate. apply no_assert_bind; [discriminate|].
    intros [l' g']. apply no_assert_bind; [apply no_assert_tree_map2 | discriminate].
  - intros [[l g] [|n]]; discriminate.
Qed.

Lemma no_assert_vmap {X A B} (fn : A -> Exec X B) (rows : list A) :
  (forall r, no_assert (fn r)) -> no_assert (vmap fn rows).
Proof.
  intros Hfn. induction rows as [|r rows IH]; simpl.
  - discriminate.
  - apply no_assert_bind; auto. intros y.
    apply no_assert_bind; auto. discriminate.
Qed.

Lemma no_assert_all_ok_mean {X} (stacked : list (list Q)) :
  no_assert (@lift X _ (hax_mean stacked)).
Proof.
  unfold no_assert, lift, hax_mean. simpl.
  induction stacked as [|l ls IH]; simpl; [discriminate|].
  destruct l as [|q l]; simpl; [discriminate|].
  destruct (all_ok (map jnp_mean ls)); [discriminate | exact IH | discriminate].
Qed.

End ModelingUtilsFacts.

(* ===================================================================== *)
(** ** The accumulator: mean, divisibility check, independence *)
(* ===================================================================== *)

Section AccumulatorProperties.
Import ModelingUtils ModelingUtilsFacts.

(** C1, in exact arithmetic. On a batch of [B] examples, [B] a multiple
    of [data_axis_size * per_device_parallelism],
    [accumulate_gradients_sharded] calls [f] on every example once and
    returns the mean loss and the mean gradient: the sum of the
    per-example losses, and of every leaf of the per-example gradients,
    divided by the example count [B] (and not by the number of micro
    steps). *)
Theorem accumulate_gradients_sharded_mean :
  forall (X : Type) (f : PyTree -> X -> Q * PyTree) (model : PyTree)
         (inputs : list X) (data_axis_size per_device_parallelism : nat),
    (forall x, length (snd (f model x)) = length model) ->
    (0 < data_axis_size * per_device_parallelism)%nat ->
    inputs <> [] ->
    Nat.divide (data_axis_size * per_device_parallelism) (length inputs) ->
    exists mean_loss mean_grad,
      accumulate_gradients_sharded f model inputs data_axis_size per_device_parallelism
        = (inputs, Ok (mean_loss, mean_grad))
      /\ mean_loss
         == Qsum (map (fun x => fst (f model x)) inputs) / inject_nat (length inputs)
      /\ length mean_grad = length model
      /\ forall k, (k < length model)%nat ->
           nth k mean_grad 0
           == Qsum (map (fun x => nth k (snd (f model x)) 0) inputs)
              / inject_nat (length inputs).
Proof.
  intros X f model inputs dpw pdp Hf Hmb Hne Hdiv.
  destruct (@sharded_full_batch X f model Hf inputs dpw pdp Hmb Hne Hdiv) as ([l g] & Hr & Hl & Hg).
  exists l, g. rewrite Hr. cbn [fst snd] in *.
  split; [reflexivity|]. split; [exact Hl|]. split.
  - rewrite (Forall2_length Hg). apply length_full_batch_mean.
  - intros k Hk. rewrite (Forall2_Qeq_nth_inv k Hg).
    rewrite nth_full_batch_mean by exact Hk. reflexivity.
Qed.

(** The scenario of the spec: 8 examples, data axis of size 2, 2 examples
    per device, example [i] with loss [i] and gradient [i]: both means are
    4.5 (and not 36 / 2 = 18). *)
Lemma accumulate_gradients_sharded_mean_scenario :
  exists mean_loss mean_grad,
    accumulate_gradients_sharded scenario_f scenario_model scenario_batch 2 2
      = (scenario_batch, Ok (mean_loss, mean_grad))
    /\ mean_loss == 9 # 2
    /\ length mean_grad = 1%nat
    /\ nth 0 mean_grad 0 == 9 # 2.
Proof.
  destruct (@accumulate_gradients_sharded_mean Q scenario_f scenario_model scenario_batch 2 2)
    as (l & g & Hr & Hl & Hlen & Hk).
  - intros x. reflexivity.
  - simpl. lia.
  - discriminate.
  - exists 2%nat. reflexivity.
  - exists l, g. split; [exact Hr|]. split; [|split; [exact Hlen|]].
    + rewrite Hl. vm_compute. reflexivity.
    + rewrite (Hk 0%nat) by (simpl; lia). vm_compute. reflexivity.
Defined.

(** In float32, as the code computes, the sums are rounded and the
    result is not the sum divided by [B]: with losses and gradients
    [2 ^ 24, 1, 1, 1] in one microbatch row, every [+ 1] is rounded away
    and both means are [4194304], where the sum divided by 4 is
    [4194304.75]. *)
Lemma accumulate_gradients_sharded_float32_rounds :
  map Float32.to_Q ModelingUtilsFloat32.large_batch
  = [Some (16777216 # 1); Some 1; Some 1; Some 1]
  /\ (exists mean_loss mean_grad,
        ModelingUtilsFloat32.accumulate_gradients_sharded
          ModelingUtilsFloat32.scenario_f ModelingUtilsFloat32.scenario_model
          ModelingUtilsFloat32.large_batch 1 1
        = (ModelingUtilsFloat32.large_batch, Ok (mean_loss, [mean_grad]))
        /\ Float32.to_Q mean_loss = Some (4194304 # 1)
        /\ Float32.to_Q mean_grad = Some (4194304 # 1))
  /\ ~ (4194304 # 1) == Qsum [16777216 # 1; 1; 1; 1] / inject_nat 4.
Proof.
  split; [vm_compute; reflexivity|]. split.
  - eexists. eexists. split; [vm_compute; reflexivity|].
    split; vm_compute; reflexivity.
  - vm_compute. discriminate.
Qed.

(** The scenario of the spec is within what float32 holds exactly: there
    too both means are 4.5. *)
Lemma accumulate_gradients_sharded_float32_scenario :
  exists mean_loss mean_grad,
    ModelingUtilsFloat32.accumulate_gradients_sharded
      ModelingUtilsFloat32.scenario_f ModelingUtilsFloat32.scenario_model
      ModelingUtilsFloat32.scenario_batch 2 2
    = (ModelingUtilsFloat32.scenario_batch, Ok (mean_loss, [mean_grad]))
    /\ Float32.to_Q mean_loss = Some (9 # 2)
    /\ Float32.to_Q mean_grad = Some (9 # 2).
Proof.
  eexists. eexists. split; [vm_compute; reflexivity|].
  split; vm_compute; reflexivity.
Qed.

(** C2. A batch size that [data_axis_size * per_device_parallelism] does not
    divide makes [accumulate_gradients_sharded] fail before [f] is invoked
    on any example: the [assert] fails (and with a product of zero the
    floor division raises before it). When the product divides the batch
    size the assertion does not fail. *)
Theorem accumulate_gradients_sharded_divisibility :
  forall (X : Type) (f : PyTree -> X -> Q * PyTree) (model : PyTree)
         (inputs : list X) (data_axis_size per_device_parallelism : nat),
    let microbatch_size := (data_axis_size * per_device_parallelism)%nat in
    let run := accumulate_gradients_sharded f model inputs
                 data_axis_size per_device_parallelism in
    (microbatch_size <> 0%nat ->
     (length inputs mod microbatch_size)%nat <> 0%nat ->
     run = ([], Raise AssertionError))
    /\ (microbatch_size = 0%nat -> run = ([], Raise ZeroDivisionError))
    /\ (microbatch_size <> 0%nat ->
        (length inputs mod microbatch_size)%nat = 0%nat ->
        snd run <> Raise AssertionError).
Proof.
  intros X f model inputs dpw pdp mb run. subst run.
  unfold accumulate_gradients_sharded. fold mb.
  split; [|split].
  - intros Hmb Hmod. destruct mb as [|mb'] eqn:E; [congruence|].
    unfold floordiv, lift. rewrite bind_ok_nil.
    assert (Hneq : Nat.eqb (length inputs / S mb' * S mb') (length inputs) = false).
    { apply Nat.eqb_neq. intros Heq.
      apply Hmod. rewrite <- Heq. apply Nat.Div0.mod_mul. }
    rewrite Hneq. reflexivity.
  - intros Hmb. rewrite Hmb. reflexivity.
  - intros Hmb Hmod. destruct mb as [|mb'] eqn:E; [congruence|].
    unfold floordiv, lift. rewrite bind_ok_nil.
    assert (Heq : Nat.eqb (length inputs / S mb' * S mb') (length inputs) = true).
    { apply Nat.eqb_eq.
      pose proof (Nat.div_mod_eq (length inputs) (S mb')) as D. lia. }
    rewrite Heq. unfold py_assert. rewrite bind_ok_nil.
    apply no_assert_bind.
    + apply no_assert_vmap. intros r. apply no_assert_accumulate_gradients.
    + intros ys. apply no_assert_bind; [apply no_assert_all_ok_mean|].
      intros g. apply no_assert_bind; [|discriminate].
      unfold no_assert, lift, jnp_mean. simpl. destruct (map fst ys); discriminate.
Qed.

(** A batch of 7 examples on a data axis of size 2 with 2 examples per
    device fails at the assertion with [f] not run; a batch of 8 does not. *)
Lemma accumulate_gradients_sharded_divisibility_scenario :
  accumulate_gradients_sharded scenario_f scenario_model [1; 2; 3; 4; 5; 6; 7] 2 2
    = ([], Raise AssertionError)
  /\ accumulate_gradients_sharded scenario_f scenario_model scenario_batch 0 2
    = ([], Raise ZeroDivisionError)
  /\ snd (accumulate_gradients_sharded scenario_f scenario_model scenario_batch 2 2)
     <> Raise AssertionError.
Proof.
  split; [|split].
  - apply (@accumulate_gradients_sharded_divisibility Q scenario_f scenario_model
             [1; 2; 3; 4; 5; 6; 7] 2 2); simpl; discriminate.
  - apply (@accumulate_gradients_sharded_divisibility Q scenario_f scenario_model
             scenario_batch 0 2). reflexivity.
  - apply (@accumulate_gradients_sharded_divisibility Q scenario_f scenario_model
             scenario_batch 2 2); [simpl; discriminate | reflexivity].
Defined.

(** C3. For a fixed model and batch, in exact arithmetic, the loss and the
    gradient [accumulate_gradients_sharded] returns do not depend on
    [per_device_parallelism]: any two admissible choices give the same
    result, which is also the result without microbatching (one micro step,
    [microbatch_size = B]) and the full-batch mean of the spec. *)
Theorem accumulate_gradients_sharded_independent :
  forall (X : Type) (f : PyTree -> X -> Q * PyTree) (model : PyTree)
         (inputs : list X) (data_axis_size p p' : nat),
    (forall x, length (snd (f model x)) = length model) ->
    inputs <> [] ->
    (0 < data_axis_size * p)%nat ->
    (0 < data_axis_size * p')%nat ->
    Nat.divide (data_axis_size * p) (length inputs) ->
    Nat.divide (data_axis_size * p') (length inputs) ->
    exists r r' r1,
      snd (accumulate_gradients_sharded f model inputs data_axis_size p) = Ok r
      /\ snd (accumulate_gradients_sharded f model inputs data_axis_size p') = Ok r'
      /\ snd (accumulate_gradients_sharded f model inputs data_axis_size
                (length inputs / data_axis_size)) = Ok r1
      /\ (data_axis_size * (length inputs / data_axis_size) = length inputs)%nat
      /\ mean_equiv r r'
      /\ mean_equiv r r1
      /\ mean_equiv r (full_batch_mean f model inputs).
Proof.
  intros X f model inputs d p p' Hf Hne Hp Hp' Hd Hd'.
  assert (Hfull : (d * (length inputs / d))%nat = length inputs).
  { destruct Hd as [q Hq]. assert (d <> 0)%nat by lia.
    assert (Hdd : Nat.divide d (length inputs)) by (exists (q * p)%nat; lia).
    destruct Hdd as [c Hc]. rewrite Hc, Nat.div_mul by assumption. lia. }
  assert (HB : (0 < length inputs)%nat) by (destruct inputs; [congruence | simpl; lia]).
  destruct (@sharded_full_batch X f model Hf inputs d p Hp Hne Hd) as (r & Hr & Hm).
  destruct (@sharded_full_batch X f model Hf inputs d p' Hp' Hne Hd') as (r' & Hr' & Hm').
  destruct (@sharded_full_batch X f model Hf inputs d (length inputs / d)) as (r1 & Hr1 & Hm1);
    [lia | exact Hne | exists 1%nat; lia |].
  exists r, r', r1. rewrite Hr, Hr', Hr1. cbn [snd].
  repeat (split; [reflexivity|]). split; [exact Hfull|].
  split; [|split]; [| | exact Hm].
  - eapply mean_equiv_trans; [exact Hm | apply mean_equiv_sym; exact Hm'].
  - eapply mean_equiv_trans; [exact Hm | apply mean_equiv_sym; exact Hm1].
Qed.

(** The scenario batch with 1, 2 and 4 examples per device. *)
Lemma accumulate_gradients_sharded_independent_scenario :
  exists r r' r1,
    snd (accumulate_gradients_sharded scenario_f scenario_model scenario_batch 2 1) = Ok r
    /\ snd (accumulate_gradients_sharded scenario_f scenario_model scenario_batch 2 2) = Ok r'
    /\ snd (accumulate_gradients_sharded scenario_f scenario_model scenario_batch 2 4) = Ok r1
    /\ mean_equiv r r' /\ mean_equiv r r1
    /\ mean_equiv r (full_batch_mean scenario_f scenario_model scenario_batch).
Proof.
  destruct (@accumulate_gradients_sharded_independent Q scenario_f scenario_model
              scenario_batch 2 1 2)
    as (r & r' & r1 & H & H' & H1 & _ & E & E1 & Ef).
  - intros x. reflexivity.
  - discriminate.
  - simpl. lia.
  - simpl. lia.
  - exists 4%nat. reflexivity.
  - exists 2%nat. reflexivity.
  - exists r, r', r1.
    exact (conj H (conj H' (conj H1 (conj E (conj E1 Ef))))).
Defined.

End AccumulatorProperties.

(* ===================================================================== *)
(** ** Cross entropy against a one-hot target *)
(* ===================================================================== *)

Module CrossEntropyFacts.
Import Reals Lra CrossEntropy.
Local Open Scope R_scope.

Lemma Rsum_exp_nonneg (xs : list R) : 0 <= Rsum (map exp xs).
Proof.
  induction xs as [|x xs IH]; simpl; [lra|].
  pose proof (exp_pos x). lra.
Qed.

(** Each exponential is at most the sum of all of them. *)
Lemma exp_le_Rsum (xs : list R) (t : nat) :
  (t < length xs)%nat -> exp (nth t xs 0) <= Rsum (map exp xs).
Proof.
  revert t. induction xs as [|x xs IH]; intros t Ht; simpl in *; [lia|].
  destruct t as [|t].
  - pose proof (Rsum_exp_nonneg xs). lra.
  - assert (exp (nth t xs 0) <= Rsum (map exp xs)) by (apply IH; lia).
    pose proof (exp_pos x). lra.
Qed.

(** Contracting with a one-hot row selects one entry. *)
Lemma dot_one_hot_from (g : R -> R) (xs : list R) :
  forall (s t : nat),
    dot_row (map (fun k => if Nat.eqb k t then 1 else 0) (seq s (length xs))) (map g xs)
    = if Nat.ltb t s then 0
      else if Nat.ltb (t - s) (length xs) then g (nth (t - s) xs 0) else 0.
Proof.
  induction xs as [|x xs IH]; intros s t; simpl.
  - destruct (Nat.ltb t s); [reflexivity|]. destruct (t - s)%nat; reflexivity.
  - rewrite IH.
    destruct (Nat.eqb_spec s t) as [E|E].
    + subst t. rewrite Nat.ltb_irrefl, Nat.sub_diag.
      replace (Nat.ltb s (S s)) with true by (symmetry; apply Nat.ltb_lt; lia).
      simpl. lra.
    + destruct (Nat.ltb_spec t s) as [L|L].
      * replace (Nat.ltb t (S s)) with true by (symmetry; apply Nat.ltb_lt; lia). lra.
      * replace (Nat.ltb t (S s)) with false by (symmetry; apply Nat.ltb_ge; lia).
        destruct (t - s)%nat as [|d] eqn:D; [lia|].
        replace (t - S s)%nat with d by lia.
        change (Nat.ltb (S d) (S (length xs))) with (Nat.ltb d (length xs)).
        destruct (Nat.ltb d (length xs)); lra.
Qed.

Lemma dot_row_one_hot (l : R) (row : list R) (t : nat) :
  (t < length row)%nat ->
  dot_row (one_hot_row t (length row)) (map (fun p => l - p) row) = l - nth t row 0.
Proof.
  intros Ht. unfold one_hot_row.
  rewrite (dot_one_hot_from (fun p => l - p) row 0 t).
  simpl. rewrite Nat.sub_0_r.
  replace (Nat.ltb t (length row)) with true by (symmetry; apply Nat.ltb_lt; exact Ht).
  reflexivity.
Qed.

Lemma logsumexp_row_ge (row : list R) (t : nat) :
  (t < length row)%nat -> nth t row 0 <= logsumexp_row row.
Proof.
  intros Ht. unfold logsumexp_row.
  rewrite <- (ln_exp (nth t row 0)) at 1.
  destruct (Rle_lt_or_eq_dec _ _ (exp_le_Rsum row Ht)) as [L|E].
  - apply Rlt_le, ln_increasing; [apply exp_pos | exact L].
  - rewrite E. apply Rle_refl.
Qed.

(** Position by position: the loss is the log normalizer minus the logit
    of the target. *)
Lemma cross_entropy_loss_rows (size : nat) (pred_y : list (list R)) :
  forall targets,
    Forall (fun row => length row = size) pred_y ->
    Forall (fun t => (t < size)%nat) targets ->
    length targets = length pred_y ->
    Forall2 (fun loss lt => loss = fst lt - snd lt /\ snd lt <= fst lt)
            (cross_entropy_loss pred_y (one_hot targets size))
            (combine (logsumexp pred_y) (target_logits pred_y targets)).
Proof.
  unfold cross_entropy_loss, cross_entropy_loss_and_log_normalizers.
  induction pred_y as [|row rows IH]; intros [|t ts] Hrows Hts Hlen;
    simpl in Hlen; try discriminate; simpl.
  - constructor.
  - inversion Hrows as [|? ? Hrow Hrows']; subst.
    inversion Hts as [|? ? Ht Hts']; subst.
    constructor.
    + cbn [fst snd]. split.
      * apply dot_row_one_hot. exact Ht.
      * apply logsumexp_row_ge. exact Ht.
    + apply IH; [assumption | assumption | lia].
Qed.

Lemma losses_eq_map (losses : list R) (lts : list (R * R)) :
  Forall2 (fun loss lt => loss = fst lt - snd lt /\ snd lt <= fst lt) losses lts ->
  losses = map (fun lt => fst lt - snd lt) lts
  /\ Forall (fun loss => 0 <= loss) losses.
Proof.
  induction 1 as [|loss lt ls lts' [Hl Hle] _ [IH1 IH2]]; simpl.
  - split; [reflexivity | constructor].
  - split; [now rewrite Hl, IH1|]. constructor; [rewrite Hl; lra | exact IH2].
Qed.

Lemma length_logits (pred_y : list (list R)) :
  forall targets,
    length targets = length pred_y ->
    length (combine (logsumexp pred_y) (target_logits pred_y targets)) = length pred_y.
Proof.
  induction pred_y as [|row rows IH]; intros [|t ts] Hlen; simpl in *;
    try discriminate; [reflexivity|].
  f_equal. apply IH. lia.
Qed.

End CrossEntropyFacts.

Section CrossEntropyProperties.
Import Reals Lra CrossEntropy CrossEntropyFacts.
Local Open Scope R_scope.

(** C10. For logits [pred_y] over [Label] and the one-hot targets of the
    indices [targets], [cross_entropy_loss] is, at every position, the
    log-sum-exp of the logits over [Label] minus the logit at the target,
    the log normalizers returned beside it being those log-sum-exps; over
    the reals no such loss is negative. *)
Theorem cross_entropy_loss_one_hot_nonneg :
  forall (size : nat) (pred_y : list (list R)) (targets : list nat),
    Forall (fun row => length row = size) pred_y ->
    Forall (fun t => (t < size)%nat) targets ->
    length targets = length pred_y ->
    cross_entropy_loss pred_y (one_hot targets size)
      = map (fun lt => fst lt - snd lt)
            (combine (logsumexp pred_y) (target_logits pred_y targets))
    /\ snd (cross_entropy_loss_and_log_normalizers pred_y (one_hot targets size))
       = logsumexp pred_y
    /\ length (cross_entropy_loss pred_y (one_hot targets size)) = length pred_y
    /\ Forall (fun loss => 0 <= loss) (cross_entropy_loss pred_y (one_hot targets size)).
Proof.
  intros size pred_y targets Hrows Hts Hlen.
  pose proof (cross_entropy_loss_rows Hrows Hts Hlen) as H.
  destruct (losses_eq_map H) as [Heq Hpos].
  split; [exact Heq|]. split; [reflexivity|]. split; [|exact Hpos].
  rewrite (Forall2_length H). apply length_logits, Hlen.
Qed.

(** Two positions, two labels: equal logits with target 0, and logits
    [1, 0] with target 1. *)
Lemma cross_entropy_loss_one_hot_nonneg_two_positions :
  cross_entropy_loss [[0; 0]; [1; 0]] (one_hot [0%nat; 1%nat] 2)
    = [logsumexp_row [0; 0] - 0; logsumexp_row [1; 0] - 0]
  /\ Forall (fun loss => 0 <= loss)
            (cross_entropy_loss [[0; 0]; [1; 0]] (one_hot [0%nat; 1%nat] 2)).
Proof.
  destruct (@cross_entropy_loss_one_hot_nonneg 2%nat [[0; 0]; [1; 0]] [0%nat; 1%nat])
    as (H1 & _ & _ & H4).
  - repeat constructor.
  - repeat constructor.
  - reflexivity.
  - split; [exact H1 | exact H4].
Defined.

End CrossEntropyProperties.

(* ===================================================================== *)
(** ** Facts: the training loop of train_lm.py *)
(* ===================================================================== *)

Module TrainLmFacts.
Import TrainLm.

Section LoopFacts.

Context {W : World}.
Variable config : TrainLmConfig.

Lemma flat_map_nil {A B} (g : A -> list B) (l : list A) :
  Forall (fun a => g a = []) l -> flat_map g l = [].
Proof.
  induction 1 as [|a l Ha _ IH]; simpl; [reflexivity|]. now rewrite Ha, IH.
Qed.

Lemma on_step_hook_event env info force : Forall hook_event (on_step env info force).
Proof.
  unfold on_step. destruct (force || save_due env info); repeat constructor.
Qed.

Lemma callback_hook_event env h info : Forall hook_event (callback env h info).
Proof.
  destruct h; simpl; try constructor. apply on_step_hook_event.
Qed.

Lemma run_hooks_hook_event env hooks info force :
  Forall hook_event (run_hooks env hooks info force).
Proof.
  unfold run_hooks. constructor; [exact I|].
  induction hooks as [|h hooks IH]; simpl; [constructor|].
  apply Forall_app. split; [|exact IH].
  destruct (force || Nat.eqb (info_step info mod snd h) 0); [|constructor].
  constructor; [exact I | apply callback_hook_event].
Qed.

Lemma seeks_hook_events events : Forall hook_event events -> seeks events = [].
Proof.
  intros H. apply flat_map_nil. eapply Forall_impl; [|exact H].
  intros [] Hh; simpl in *; tauto.
Qed.

Lemma trained_on_hook_events events : Forall hook_event events -> trained_on events = [].
Proof.
  intros H. apply flat_map_nil. eapply Forall_impl; [|exact H].
  intros [] Hh; simpl in *; tauto.
Qed.

(** A dispatch reads one [StepInfo]: its own. *)
Lemma step_infos_run_hooks env hooks info force :
  step_infos (run_hooks env hooks info force) = [info].
Proof.
  unfold run_hooks, step_infos. simpl. f_equal.
  apply flat_map_nil. rewrite Forall_forall. intros e He.
  apply in_flat_map in He. destruct He as (h & _ & He).
  destruct (force || Nat.eqb (info_step info mod snd h) 0); [|contradiction].
  destruct He as [<-|He]; [reflexivity|].
  destruct (fst h); simpl in He; try contradiction.
  unfold on_step in He. destruct (false || save_due env info); [|contradiction].
  destruct He as [<-|[]]. reflexivity.
Qed.

(** Without [force], a dispatch forces nothing. *)
Lemma forced_events_run_hooks env hooks info :
  forced_events (run_hooks env hooks info false) = [].
Proof.
  unfold run_hooks, forced_events. simpl.
  induction hooks as [|h hooks IH]; simpl; [reflexivity|].
  rewrite filter_app, IH, app_nil_r.
  destruct (Nat.eqb (info_step info mod snd h) 0); [|reflexivity]. simpl.
  destruct (fst h); simpl; try reflexivity.
  unfold on_step. destruct (false || save_due env info); reflexivity.
Qed.

(** The callbacks themselves force nothing: the checkpointer's is
    called as [on_step(info)], without [force]. *)
Lemma forced_events_callbacks env hooks info :
  forced_events (flat_map (fun h : Hook * nat =>
                             ev_callback (fst h) info :: callback env (fst h) info)
                          hooks) = [].
Proof.
  unfold forced_events.
  induction hooks as [|h hooks IH]; simpl; [reflexivity|].
  rewrite filter_app, IH, app_nil_r.
  destruct (fst h); simpl; try reflexivity.
  unfold on_step. destruct (false || save_due env info); reflexivity.
Qed.

(** With [force], a dispatch reaches every registered callback, once, in
    the order of registration. *)
Lemma called_hooks_callback env h info : called_hooks (callback env h info) = [].
Proof.
  destruct h; simpl; try reflexivity.
  unfold on_step. destruct (false || save_due env info); reflexivity.
Qed.

Lemma called_hooks_run_hooks_forced env hooks info :
  called_hooks (run_hooks env hooks info true) = map fst hooks.
Proof.
  unfold run_hooks. cbn [orb]. unfold called_hooks at 1. cbn [flat_map app].
  induction hooks as [|h hooks IH]; [reflexivity|].
  cbn [flat_map map]. rewrite flat_map_app. cbn [flat_map app].
  rewrite IH. f_equal.
  change (flat_map _ (callback env (fst h) info))
    with (called_hooks (callback env (fst h) info)).
  now rewrite called_hooks_callback.
Qed.

Lemma models_seen_run_hooks env hooks info force :
  Forall (fun m => m = info_model info) (models_seen (run_hooks env hooks info force)).
Proof.
  unfold run_hooks, models_seen. simpl. constructor; [reflexivity|].
  induction hooks as [|h hooks IH]; simpl; [constructor|].
  rewrite flat_map_app. apply Forall_app. split; [|exact IH].
  destruct (force || Nat.eqb (info_step info mod snd h) 0); [|constructor].
  simpl. constructor; [reflexivity|].
  destruct (fst h); simpl; try constructor.
  unfold on_step. destruct (false || save_due env info); simpl; repeat constructor.
Qed.

(** *** Seeking *)

Lemma seek_spec (n i : nat) :
  seek n i = ((i + n)%nat, map (fun j => ev_seek (train_loader j)) (seq i n)).
Proof.
  revert i. induction n as [|n IH]; intros i; simpl.
  - now rewrite Nat.add_0_r.
  - rewrite IH. f_equal. lia.
Qed.

Lemma seeks_seek_events (i n : nat) :
  seeks (map (fun j => ev_seek (train_loader j)) (seq i n)) = map train_loader (seq i n).
Proof.
  unfold seeks. induction (seq i n) as [|j l IH]; simpl; [reflexivity|]. now rewrite IH.
Qed.

(** *** One pass through the loop body *)

Lemma loop_body_spec env step st :
  exists info,
    snd (loop_body config env step st)
      = ev_train_step step (train_loader (st_iter_data st))
                      (fst (split2 (st_training_key st)))
        :: run_hooks env (engine config) info false
    /\ info_step info = step
    /\ info_model info = st_model (fst (loop_body config env step st))
    /\ info_loss info = st_step_loss (fst (loop_body config env step st))
    /\ st_iter_data (fst (loop_body config env step st)) = S (st_iter_data st)
    /\ fst (train_step config (st_model st) (st_opt_state st)
              (train_loader (st_iter_data st))
              (fst (split2 (st_training_key st))))
       = (info_loss info, info_model info).
Proof.
  unfold loop_body.
  destruct (split2 (st_training_key st)) as [my_key key']. cbn [fst].
  destruct (train_step config (st_model st) (st_opt_state st)
              (train_loader (st_iter_data st)) my_key) as [[l m] o].
  eexists. cbn [fst snd]. split; [reflexivity|]. cbn. repeat split; reflexivity.
Qed.

(** The state after the body does not depend on the run's environment,
    the measured duration apart. *)
Lemma loop_body_same_but_time env env' step a b :
  same_but_time a b ->
  same_but_time (fst (loop_body config env step a)) (fst (loop_body config env' step b))
  /\ losses (snd (loop_body config env step a))
     = losses (snd (loop_body config env' step b)).
Proof.
  intros (Hm & Ho & Hk & Hi & Hl). unfold loop_body.
  rewrite Hm, Ho, Hk, Hi.
  destruct (split2 (st_training_key b)) as [my_key key'].
  destruct (train_step config (st_model b) (st_opt_state b)
              (train_loader (st_iter_data b)) my_key) as [[l m] o].
  cbn [fst snd]. split.
  - repeat split; reflexivity.
  - unfold losses. cbn [step_infos flat_map app].
    change (flat_map _ ?evs) with (step_infos evs).
    now rewrite !step_infos_run_hooks.
Qed.

(** *** The loop *)

Lemma train_loop_hooks_only env n :
  forall step st,
    seeks (snd (train_loop config env n step st)) = []
    /\ forced_events (snd (train_loop config env n step st)) = [].
Proof.
  induction n as [|n IH]; intros step st; simpl; [split; reflexivity|].
  destruct (loop_body_spec env step st) as (info & Hev & _).
  destruct (loop_body config env step st) as [st' evs]. cbn [fst snd] in *.
  specialize (IH (S step) st').
  destruct (train_loop config env n (S step) st') as [st'' evs']. cbn [fst snd] in *.
  destruct IH as [IH1 IH2]. subst evs. split.
  - unfold seeks in *. rewrite flat_map_app, IH1, app_nil_r. cbn [flat_map app].
    apply seeks_hook_events, run_hooks_hook_event.
  - unfold forced_events in *. rewrite filter_app, IH2, app_nil_r. cbn [filter is_forced].
    apply forced_events_run_hooks.
Qed.

(** Step [step + i] trains on batch [iter_data + i]. *)
Lemma train_loop_trained_on env n :
  forall step st,
    map fst (trained_on (snd (train_loop config env n step st)))
    = combine (seq step n) (map train_loader (seq (st_iter_data st) n)).
Proof.
  induction n as [|n IH]; intros step st; simpl; [reflexivity|].
  destruct (loop_body_spec env step st) as (info & Hev & _ & _ & _ & Hit & _).
  destruct (loop_body config env step st) as [st' evs]. cbn [fst snd] in *.
  specialize (IH (S step) st').
  destruct (train_loop config env n (S step) st') as [st'' evs']. cbn [fst snd] in *.
  subst evs. unfold trained_on in *. rewrite flat_map_app, map_app, IH, Hit.
  cbn [flat_map app map fst].
  change (flat_map _ (run_hooks env (engine config) info false))
    with (trained_on (run_hooks env (engine config) info false)).
  rewrite (trained_on_hook_events (run_hooks_hook_event env (engine config) info false)).
  reflexivity.
Qed.

(** The first pass of a loop that runs trains on the state it entered
    with. *)
Lemma train_loop_first env n step st :
  exists info rest,
    snd (train_loop config env (S n) step st)
    = ev_train_step step (train_loader (st_iter_data st))
                    (fst (split2 (st_training_key st)))
      :: ev_run_hooks info false :: rest
    /\ info_step info = step
    /\ fst (train_step config (st_model st) (st_opt_state st)
              (train_loader (st_iter_data st))
              (fst (split2 (st_training_key st))))
       = (info_loss info, info_model info).
Proof.
  simpl.
  destruct (loop_body_spec env step st) as (info & Hev & Hs & _ & _ & _ & Ht).
  destruct (loop_body config env step st) as [st' evs]. cbn [fst snd] in *.
  destruct (train_loop config env n (S step) st') as [st'' evs']. cbn [fst snd].
  subst evs. unfold run_hooks. cbn [app].
  eexists. eexists. split; [reflexivity|]. split; assumption.
Qed.

(** The losses of the loop are those of any other run from the same
    state. *)
Lemma train_loop_losses env env' n :
  forall step a b,
    same_but_time a b ->
    same_but_time (fst (train_loop config env n step a))
                  (fst (train_loop config env' n step b))
    /\ losses (snd (train_loop config env n step a))
       = losses (snd (train_loop config env' n step b)).
Proof.
  induction n as [|n IH]; intros step a b Hab; simpl; [split; [exact Hab | reflexivity]|].
  destruct (loop_body_same_but_time env env' step Hab) as [Hst Hl].
  destruct (loop_body config env step a) as [a' evs].
  destruct (loop_body config env' step b) as [b' evs']. cbn [fst snd] in *.
  destruct (IH (S step) a' b' Hst) as [Hst' Hl'].
  destruct (train_loop config env n (S step) a') as [a'' evs2].
  destruct (train_loop config env' n (S step) b') as [b'' evs2']. cbn [fst snd] in *.
  split; [exact Hst'|].
  unfold losses, step_infos in *. rewrite !flat_map_app, !map_app. congruence.
Qed.

(** The loop hands one [StepInfo] to the hooks per step. *)
Lemma train_loop_step_infos env n :
  forall step st, length (step_infos (snd (train_loop config env n step st))) = n.
Proof.
  induction n as [|n IH]; intros step st; simpl; [reflexivity|].
  destruct (loop_body_spec env step st) as (info & Hev & _).
  destruct (loop_body config env step st) as [st' evs]. cbn [fst snd] in *.
  specialize (IH (S step) st').
  destruct (train_loop config env n (S step) st') as [st'' evs']. cbn [fst snd] in *.
  subst evs. unfold step_infos in *. rewrite flat_map_app, length_app, IH.
  cbn [flat_map app].
  change (flat_map _ (run_hooks env (engine config) info false))
    with (step_infos (run_hooks env (engine config) info false)).
  now rewrite step_infos_run_hooks.
Qed.

(** *** Dtypes along the loop *)

Section Dtypes.

(** [eqx.apply_updates] returns parameters of the dtype of the
    parameters it is given. *)
Hypothesis apply_updates_dtype :
  forall (m : Model Params) (u : Updates), model_dtype (apply_updates m u) = model_dtype m.

Lemma train_step_dtype m o e k :
  model_dtype (snd (fst (train_step config m o e k))) = model_dtype m.
Proof.
  unfold train_step.
  destruct (grad_accum _ m e k (per_device_parallelism config)) as [l g].
  destruct (optimizer_update g o m) as [u o']. cbn [fst snd].
  apply apply_updates_dtype.
Qed.

Lemma loop_body_models env step st :
  model_dtype (st_model (fst (loop_body config env step st))) = model_dtype (st_model st)
  /\ Forall (fun m => model_dtype m = model_dtype (st_model st))
            (models_seen (snd (loop_body config env step st))).
Proof.
  destruct (loop_body_spec env step st) as (info & Hev & _ & Hm & _ & _ & Ht).
  assert (Hd : model_dtype (info_model info) = model_dtype (st_model st)).
  { pose proof (train_step_dtype (st_model st) (st_opt_state st)
                  (train_loader (st_iter_data st))
                  (fst (split2 (st_training_key st)))) as H.
    rewrite Ht in H. exact H. }
  split; [rewrite <- Hm; exact Hd|].
  rewrite Hev. unfold models_seen. cbn [flat_map event_model app].
  eapply Forall_impl; [|apply models_seen_run_hooks].
  intros m ->. exact Hd.
Qed.

Lemma train_loop_models env n :
  forall step st,
    model_dtype (st_model (fst (train_loop config env n step st)))
      = model_dtype (st_model st)
    /\ Forall (fun m => model_dtype m = model_dtype (st_model st))
              (models_seen (snd (train_loop config env n step st))).
Proof.
  induction n as [|n IH]; intros step st; simpl; [split; [reflexivity | constructor]|].
  destruct (loop_body_models env step st) as [Hm Hall].
  destruct (loop_body config env step st) as [st' evs]. cbn [fst snd] in *.
  destruct (IH (S step) st') as [Hm' Hall'].
  destruct (train_loop config env n (S step) st') as [st'' evs']. cbn [fst snd] in *.
  split; [congruence|].
  unfold models_seen in *. rewrite flat_map_app. apply Forall_app. split; [exact Hall|].
  eapply Forall_impl; [|exact Hall']. intros m Hd. congruence.
Qed.

End Dtypes.

(** *** The shape of a run *)

Lemma main_resumed env model opt_state key step :
  main config env (Some (model, opt_state, key, step))
  = let run := train_loop config env (num_train_steps config - (step + 1)) (step + 1)
                 (loop_entry (model, opt_state, key) (step + 1)) in
    map (fun j => ev_seek (train_loader j)) (seq 0 (step + 1))
    ++ snd run
    ++ run_hooks env (engine config) (last_step config (fst run)) true
    ++ on_step env (last_step config (fst run)) true.
Proof.
  unfold main. destruct (split4 (PRNGKey (seed config))) as [[[? ?] ?] ?].
  rewrite seek_spec. cbn [loop_entry Nat.add].
  destruct (train_loop config env (num_train_steps config - (step + 1)) (step + 1) _).
  reflexivity.
Qed.

Lemma main_fresh env :
  main config env (@None (Model Params * OptState * Key * nat))
  = let run := train_loop config env (num_train_steps config) 0
                 (loop_entry (fresh_start config) 0) in
    snd run
    ++ run_hooks env (engine config) (last_step config (fst run)) true
    ++ on_step env (last_step config (fst run)) true.
Proof.
  unfold main, fresh_start.
  destruct (split4 (PRNGKey (seed config))) as [[[? ?] model_key] key].
  destruct (initialize_from_hf config).
  - cbn [loop_entry]. cbv zeta. cbv iota. cbv zeta. rewrite Nat.sub_0_r.
    destruct (train_loop config env (num_train_steps config) 0 _). reflexivity.
  - destruct (init_model_and_opt_state config model_key) as [m o].
    cbn [fst snd loop_entry]. cbv zeta. cbv iota. cbv zeta. rewrite Nat.sub_0_r.
    destruct (train_loop config env (num_train_steps config) 0 _). reflexivity.
Qed.

(** *** Dtypes along a run *)

Section RunDtypes.

Hypothesis apply_updates_dtype :
  forall (m : Model Params) (u : Updates), model_dtype (apply_updates m u) = model_dtype m.

(** Every model the hooks and the checkpointer are given has the dtype of
    the parameters the run started from. *)
Lemma main_models env (checkpoint : option (Model Params * OptState * Key * nat)) :
  Forall (fun m => model_dtype m = model_dtype (first_model config checkpoint))
         (models_seen (main config env checkpoint)).
Proof.
  assert (Hrun : forall n step st,
             Forall (fun m => model_dtype m = model_dtype (st_model st))
                    (models_seen
                       (snd (train_loop config env n step st)
                        ++ run_hooks env (engine config)
                             (last_step config (fst (train_loop config env n step st))) true
                        ++ on_step env
                             (last_step config (fst (train_loop config env n step st))) true))).
  { intros n step st.
    destruct (train_loop_models apply_updates_dtype env n step st) as [Hm Hall].
    unfold models_seen. rewrite !flat_map_app.
    apply Forall_app; split; [|apply Forall_app; split].
    - exact Hall.
    - eapply Forall_impl; [|apply models_seen_run_hooks]. intros m ->.
      cbn [last_step info_model]. exact Hm.
    - unfold on_step. cbn [orb flat_map event_model app last_step info_model].
      constructor; [exact Hm | constructor]. }
  destruct checkpoint as [[[[m o] k] r]|].
  - rewrite main_resumed. cbv zeta. unfold models_seen. rewrite flat_map_app.
    apply Forall_app. split.
    + replace (flat_map _ (map _ (seq 0 (r + 1)))) with (@nil (Model Params));
        [constructor|].
      symmetry. apply flat_map_nil. rewrite Forall_forall. intros e He.
      apply in_map_iff in He. destruct He as (j & <- & _). reflexivity.
    + apply (Hrun _ _ (loop_entry (m, o, k) (r + 1))).
  - rewrite main_fresh. cbv zeta. cbn [first_model].
    destruct (fresh_start config) as [[m o] k] eqn:E. cbn [fst].
    apply (Hrun _ _ (loop_entry (m, o, k) 0)).
Qed.

(** Started from a pretrained model, [main] casts nothing: the run keeps
    the parameters in the dtype [load_pretrained] returned them in. *)
Lemma main_from_hf_models env :
  initialize_from_hf config = true ->
  Forall (fun m => model_dtype m = model_dtype load_pretrained)
         (models_seen (main config env (@None (Model Params * OptState * Key * nat)))).
Proof.
  intros Hhf. eapply Forall_impl; [|apply main_models]. intros m ->.
  cbn [first_model]. unfold fresh_start.
  destruct (split4 (PRNGKey (seed config))) as [[[? ?] model_key] key].
  rewrite Hhf. reflexivity.
Qed.

End RunDtypes.

End LoopFacts.

End TrainLmFacts.

(* ===================================================================== *)
(** ** The training loop: resuming, finishing, determinism, dtypes *)
(* ===================================================================== *)

Section TrainLmProperties.
Import TrainLm TrainLmFacts.

Lemma combine_map_self {A B} (g : A -> B) (l : list A) :
  combine l (map g l) = map (fun a => (a, g a)) l.
Proof. induction l as [|a l IH]; simpl; [reflexivity | now rewrite IH]. Qed.

(** C4. Started from a checkpoint of step [step], [main] draws and drops
    exactly the first [step + 1] batches of a new data iterator before it
    trains, and trains from step [step + 1] on, on the batches that follow,
    beginning from the restored model, optimizer state and key. *)
Theorem main_resume_seeks :
  forall (W : World) (config : TrainLmConfig) (env : Env)
         (model : Model Params) (opt_state : OptState) (key : Key) (step : nat),
    let events := main config env (Some (model, opt_state, key, step)) in
    exists rest,
      events = map (fun j => ev_seek (train_loader j)) (seq 0 (step + 1)) ++ rest
      /\ seeks rest = []
      /\ seeks events = map train_loader (seq 0 (step + 1))
      /\ length (seeks events) = (step + 1)%nat
      /\ map fst (trained_on events)
         = map (fun s => (s, train_loader s))
               (seq (step + 1) (num_train_steps config - (step + 1)))
      /\ ((step + 1 < num_train_steps config)%nat ->
          exists info rest',
            rest = ev_train_step (step + 1) (train_loader (step + 1)) (fst (split2 key))
                   :: ev_run_hooks info false :: rest'
            /\ info_step info = (step + 1)%nat
            /\ fst (train_step config model opt_state (train_loader (step + 1))
                      (fst (split2 key)))
               = (info_loss info, info_model info)).
Proof.
  intros W config env model opt_state key step events. subst events.
  rewrite main_resumed. cbv zeta.
  set (N := (num_train_steps config - (step + 1))%nat).
  set (st0 := loop_entry (model, opt_state, key) (step + 1)).
  set (run := train_loop config env N (step + 1) st0).
  set (final := run_hooks env (engine config) (last_step config (fst run)) true
                ++ on_step env (last_step config (fst run)) true).
  assert (Hfinal : Forall hook_event final).
  { apply Forall_app. split; [apply run_hooks_hook_event | apply on_step_hook_event]. }
  destruct (train_loop_hooks_only config env N (step + 1) st0) as [Hseek _]. fold run in Hseek.
  assert (Hseeks : seeks (map (fun j => ev_seek (train_loader j)) (seq 0 (step + 1))
                          ++ snd run ++ final)
                   = map train_loader (seq 0 (step + 1))).
  { unfold seeks in *. rewrite !flat_map_app, Hseek.
    change (flat_map _ final) with (seeks final). rewrite (seeks_hook_events Hfinal).
    change (flat_map _ (map _ (seq 0 (step + 1))))
      with (seeks (map (fun j => ev_seek (train_loader j)) (seq 0 (step + 1)))).
    rewrite seeks_seek_events, !app_nil_r. reflexivity. }
  exists (snd run ++ final). split; [reflexivity|]. split; [|split; [|split; [|split]]].
  - unfold seeks in *. rewrite flat_map_app, Hseek. apply (seeks_hook_events Hfinal).
  - exact Hseeks.
  - rewrite Hseeks, length_map, length_seq. reflexivity.
  - unfold trained_on. rewrite !flat_map_app, !map_app.
    change (flat_map _ final) with (trained_on final).
    rewrite (trained_on_hook_events Hfinal).
    change (flat_map _ (snd run)) with (trained_on (snd run)).
    unfold run. rewrite train_loop_trained_on. cbn [map app]. rewrite app_nil_r.
    replace (flat_map _ (map _ (seq 0 (step + 1)))) with (@nil (nat * Example * Key)).
    + cbn [map app]. unfold st0. cbn [loop_entry st_iter_data]. apply combine_map_self.
    + symmetry. apply flat_map_nil. rewrite Forall_forall. intros e He.
      apply in_map_iff in He. destruct He as (j & <- & _). reflexivity.
  - intros Hlt. destruct N as [|n] eqn:EN; [lia|].
    destruct (train_loop_first config env n (step + 1) st0) as (info & rest' & Hr & Hs & Ht).
    fold run in Hr. exists info, (rest' ++ final). rewrite Hr. cbn [app].
    split; [reflexivity|]. split; assumption.
Qed.

(** A run of 3 steps in the toy world resumed from the checkpoint of step
    0: one batch is dropped, then steps 1 and 2 train on batches 1 and 2. *)
Lemma main_resume_seeks_toy :
  seeks (main (toy_config 3) toy_env (Some (toy_checkpoint 0))) = [0%nat]
  /\ map fst (trained_on (main (toy_config 3) toy_env (Some (toy_checkpoint 0))))
     = [(1%nat, 1%nat); (2%nat, 2%nat)].
Proof.
  destruct (@main_resume_seeks toy_world (toy_config 3) toy_env
              {| model_dtype := Float32; model_params := 1 |} 5%nat 7%nat 0%nat)
    as (rest & _ & _ & _ & _ & Htr & _).
  split; [reflexivity | exact Htr].
Defined.

(** C5. Whatever the number of steps (zero too) and wherever the run
    started, [main] ends with one dispatch of the hooks with [force=True],
    which reaches every registered callback once whatever its cadence, the
    checkpointer's among them, followed by one forced save of the
    checkpoint; nothing before is forced, and both are given the
    [StepInfo] of step [num_train_steps]. *)
Theorem main_final_forced :
  forall (W : World) (config : TrainLmConfig) (env : Env) (checkpoint : option Checkpoint),
    exists before last callbacks,
      main config env checkpoint
        = before ++ (ev_run_hooks last true :: callbacks) ++ [ev_save last true]
      /\ info_step last = num_train_steps config
      /\ forced_events before = []
      /\ forced_events callbacks = []
      /\ called_hooks callbacks = map fst (engine config)
      /\ In checkpointer_on_step (called_hooks callbacks)
      /\ forced_events (main config env checkpoint)
         = [ev_run_hooks last true; ev_save last true].
Proof.
  intros W config env checkpoint.
  assert (Hshape : exists before st,
             main config env checkpoint
             = before ++ run_hooks env (engine config) (last_step config st) true
                 ++ on_step env (last_step config st) true
             /\ forced_events before = []).
  { destruct checkpoint as [[[[m o] k] r]|].
    - eexists (_ ++ _), _.
      split; [etransitivity; [apply main_resumed|]; cbv zeta;
              rewrite app_assoc; reflexivity|].
      unfold forced_events. rewrite filter_app.
      destruct (train_loop_hooks_only config env (num_train_steps config - (r + 1)) (r + 1)
                  (loop_entry (m, o, k) (r + 1))) as [_ Hf].
      unfold forced_events in Hf. rewrite Hf, app_nil_r.
      induction (seq 0 (r + 1)) as [|j l IH]; simpl; [reflexivity | exact IH].
    - eexists _, _. split; [etransitivity; [apply main_fresh|]; cbv zeta; reflexivity|].
      destruct (train_loop_hooks_only config env (num_train_steps config) 0
                  (loop_entry (fresh_start config) 0)) as [_ Hf]. exact Hf. }
  destruct Hshape as (before & st & Hmain & Hbefore).
  set (last := last_step config st) in *.
  set (callbacks := flat_map (fun h : Hook * nat =>
                                ev_callback (fst h) last :: callback env (fst h) last)
                             (engine config)).
  assert (Hrun : run_hooks env (engine config) last true = ev_run_hooks last true :: callbacks)
    by reflexivity.
  assert (Hcalled : called_hooks callbacks = map fst (engine config)).
  { pose proof (called_hooks_run_hooks_forced env (engine config) last) as H.
    rewrite Hrun in H. exact H. }
  assert (Hforced : forced_events callbacks = []) by apply forced_events_callbacks.
  exists before, last, callbacks.
  split; [rewrite Hmain, Hrun; reflexivity|].
  split; [reflexivity|]. split; [exact Hbefore|]. split; [exact Hforced|].
  split; [exact Hcalled|]. split.
  - rewrite Hcalled. unfold engine. rewrite map_app. apply in_or_app. left.
    simpl. tauto.
  - rewrite Hmain, Hrun. unfold forced_events in *.
    rewrite filter_app, Hbefore. cbn [app filter is_forced].
    rewrite filter_app, Hforced. reflexivity.
Qed.

(** With no step to train, the toy run is the forced dispatch to the
    seven registered callbacks and the forced save, and nothing else. *)
Lemma main_final_forced_no_step :
  exists last,
    forced_events (main (toy_config 0) toy_env None)
      = [ev_run_hooks last true; ev_save last true]
    /\ info_step last = 0%nat
    /\ called_hooks (main (toy_config 0) toy_env None)
       = [pbar_logger; log_to_wandb; log_performance_stats; compute_validation_loss;
          wandb_xla_logger; checkpointer_on_step; compute_and_visualize_log_probs]
    /\ trained_on (main (toy_config 0) toy_env None) = [].
Proof.
  destruct (@main_final_forced toy_world (toy_config 0) toy_env None)
    as (before & last & callbacks & _ & Hstep & _ & _ & _ & _ & Hf).
  exists last. split; [exact Hf|]. split; [exact Hstep|]. split; reflexivity.
Defined.

(** C8. Two runs of [main] from the same seed and configuration, on the
    same data and from the same start, hand the hooks the same sequence of
    losses, one per step and the last one again at the end, whatever the
    durations measured and whatever the checkpointer decided to save. *)
Theorem main_losses_deterministic :
  forall (W : World) (config : TrainLmConfig) (checkpoint : option Checkpoint)
         (env env' : Env),
    losses (main config env checkpoint) = losses (main config env' checkpoint)
    /\ length (losses (main config env None)) = S (num_train_steps config).
Proof.
  intros W config checkpoint env env'.
  assert (Hsave : forall e info force, step_infos (on_step e info force) = []).
  { intros e info force. unfold on_step.
    destruct (force || save_due e info); reflexivity. }
  assert (Hsave' : forall e info force, losses (on_step e info force) = []).
  { intros e info force. unfold losses. now rewrite Hsave. }
  assert (Hfinal : forall e st,
             losses (run_hooks e (engine config) (last_step config st) true)
             = [st_step_loss st]).
  { intros e st. unfold losses. now rewrite step_infos_run_hooks. }
  assert (Happ : forall a b, losses (a ++ b) = losses a ++ losses b).
  { intros a b. unfold losses, step_infos. now rewrite flat_map_app, map_app. }
  unfold Checkpoint in *. split.
  - destruct checkpoint as [[[[m o] k] r]|].
    + rewrite !main_resumed. cbv zeta. rewrite !Happ, !Hfinal, !Hsave'.
      destruct (train_loop_losses config env env' (num_train_steps config - (r + 1))
                  (r + 1) (a := loop_entry (m, o, k) (r + 1))
                  (b := loop_entry (m, o, k) (r + 1)))
        as [(_ & _ & _ & _ & Hl) Hls]; [repeat split|].
      now rewrite Hls, Hl.
    + rewrite !main_fresh. cbv zeta. rewrite !Happ, !Hfinal, !Hsave'.
      destruct (train_loop_losses config env env' (num_train_steps config) 0
                  (a := loop_entry (fresh_start config) 0)
                  (b := loop_entry (fresh_start config) 0))
        as [(_ & _ & _ & _ & Hl) Hls]; [repeat split|].
      now rewrite Hls, Hl.
  - rewrite main_fresh. cbv zeta. rewrite !Happ, Hfinal, Hsave', !length_app.
    unfold losses. rewrite length_map, train_loop_step_infos. simpl. lia.
Qed.

(** Two toy runs of 3 steps that differ in every duration and in what the
    checkpointer saves report the same four losses. *)
Lemma main_losses_deterministic_toy :
  losses (main (toy_config 3) toy_env None) = losses (main (toy_config 3) slow_env None)
  /\ length (losses (main (toy_config 3) toy_env None)) = 4%nat.
Proof.
  exact (@main_losses_deterministic toy_world (toy_config 3) None toy_env slow_env).
Defined.




End TrainLmProperties.

(* ===================================================================== *)
(** ** Facts: the two phases of instruction_tune.py *)
(* ===================================================================== *)

Module InstructionTuneFacts.
Import InstructionTune.

Lemma Qltb_lt (x y : Q) : Qltb x y = true <-> x < y.
Proof.
  unfold Qltb. rewrite negb_true_iff. split.
  - intros H. apply Qnot_le_lt. intros L. apply Qle_bool_iff in L. congruence.
  - intros H. destruct (Qle_bool y x) eqn:E; [|reflexivity].
    apply Qle_bool_iff in E. exfalso. exact (Qlt_not_le _ _ H E).
Qed.

(** [int] depends on the number only, not on how the fraction is
    written. *)
Lemma py_int_Qeq (x y : Q) : x == y -> py_int x = py_int y.
Proof.
  unfold Qeq, py_int. destruct x as [a b], y as [c d]. cbn [Qnum Qden]. intros H.
  rewrite <- (Z.quot_mul_cancel_r a (Zpos b) (Zpos d)) by discriminate.
  rewrite H, (Z.mul_comm c (Zpos b)).
  rewrite Z.quot_mul_cancel_l by discriminate. reflexivity.
Qed.

Section SamplerFacts.

Context {W : World}.
Variable config : InstructionTuneConfig.
Variable durations : Z -> Q.
Variables ul2r_key itune_key : Key.

Lemma take_examples_enough (n : nat) :
  forall it, (n <= length it)%nat ->
    take_examples n it = Some (map convert_to_decoder_only (firstn n it), skipn n it).
Proof.
  induction n as [|n IH]; intros it Hn; simpl; [reflexivity|].
  destruct it as [|e it]; simpl in *; [lia|].
  rewrite IH by lia. reflexivity.
Qed.

Lemma take_examples_short (n : nat) :
  forall it, (length it < n)%nat -> take_examples n it = None.
Proof.
  induction n as [|n IH]; intros it Hn; simpl; [lia|].
  destruct it as [|e it]; simpl in *; [reflexivity|].
  rewrite IH by lia. reflexivity.
Qed.


Lemma train_on_spec phase step batch iter_data st :
  exists l t info,
    st_last (fst (train_on config durations phase step batch iter_data st))
      = Some (step, l, t)
    /\ snd (train_on config durations phase step batch iter_data st)
       = [ev_wandb_log_phase phase step; ev_run_hooks info]
    /\ info_step info = step.
Proof.
  unfold train_on. destruct (split2 (st_training_key st)) as [my_key key'].
  destruct (train_step (st_model st) (st_opt_state st) batch
              (global_key_array my_key (train_batch_size config))) as [[l m] o].
  eexists _, _, _. cbn. repeat split; reflexivity.
Qed.

(** The first phase: [n] steps logged with phase 1, each on the next
    batch of the first dataset. *)
Lemma ul2r_loop_spec (n : nat) :
  forall step st,
    milestones (snd (ul2r_loop config durations ul2r_key n step st))
      = map (fun s => inl (1%nat, s)) (py_range step n)
    /\ sources (snd (ul2r_loop config durations ul2r_key n step st))
       = map (fun s => (s, from_iter_data)) (py_range step n)
    /\ saved_tags (snd (ul2r_loop config durations ul2r_key n step st)) = []
    /\ match n with
       | O => fst (ul2r_loop config durations ul2r_key n step st) = st
       | S n' => exists l t,
           st_last (fst (ul2r_loop config durations ul2r_key n step st))
           = Some ((step + Z.of_nat n')%Z, l, t)
       end.
Proof.
  induction n as [|n IH]; intros step st.
  - simpl. repeat split; reflexivity.
  - cbn [ul2r_loop].
    destruct (train_on_spec 1 step (base_dataset ul2r_key (st_iter_data st))
                (S (st_iter_data st)) st) as (l & t & info & Hlast & Hev & _).
    destruct (train_on config durations 1 step _ _ st) as [st' evs]. cbn [fst snd] in *.
    specialize (IH (step + 1)%Z st').
    destruct (ul2r_loop config durations ul2r_key n (step + 1)%Z st') as [st'' evs'].
    cbn [fst snd] in *. destruct IH as (Hm & Hs & Ht & Hl). subst evs.
    split; [|split; [|split]].
    + unfold milestones in *. cbn [flat_map app py_range map]. rewrite Hm. reflexivity.
    + unfold sources in *. cbn [flat_map app py_range map]. rewrite Hs. reflexivity.
    + unfold saved_tags in *. cbn [flat_map app]. exact Ht.
    + destruct n as [|n'].
      * subst st''. exists l, t. rewrite Hlast. f_equal. f_equal. f_equal. lia.
      * destruct Hl as (l' & t' & Hl). exists l', t'. rewrite Hl.
        f_equal. f_equal. f_equal. lia.
Qed.


End SamplerFacts.

Section MainFacts.

Context {W : World}.
Variable config : InstructionTuneConfig.
Variable durations : Z -> Q.

Let n1 : nat := Z.to_nat (ul2r_steps config).
Let n2 : nat := Z.to_nat (num_train_steps config - ul2r_steps config).
Let itune_key : Key := snd (fst (split3 (PRNGKey (seed config)))).


End MainFacts.

End InstructionTuneFacts.

(** The same, asking of the instruction dataset only the batches the
    sampler takes from it. *)
Module InstructionTuneDrawsFacts.
Import InstructionTune InstructionTuneReading InstructionTuneFacts.

Section DrawsFacts.

Context {W : World}.
Variable config : InstructionTuneConfig.
Variable durations : Z -> Q.

Lemma itune_loop_spec_drawn ul2r_key itune_key (n : nat) :
  forall step st sampler,
    (instruction_draws config itune_key (sampler_draws sampler) n
     * train_batch_size config <= length (iter_itune sampler))%nat ->
    exists st' events,
      itune_loop config durations ul2r_key itune_key n step st sampler
        = (st', events, Ok tt)
      /\ milestones events = map (fun s => inl (2%nat, s)) (py_range step n)
      /\ match n with
         | O => st' = st
         | S n' => exists l t, st_last st' = Some ((step + Z.of_nat n')%Z, l, t)
         end.
Proof.
  induction n as [|n IH]; intros step st sampler Hn.
  - exists st, []. repeat split; reflexivity.
  - cbn [itune_loop instruction_draws] in *. unfold batch_sampler_next.
    destruct (Qltb (uniform itune_key (sampler_draws sampler)) (instruction_weight config)).
    + rewrite (take_examples_enough (iter_itune sampler)) by lia.
      set (batch := shard_batch _).
      destruct (train_on_spec config durations 2 step batch (st_iter_data st) st)
        as (l & t & info & Hlast & Hev & _).
      destruct (train_on config durations 2 step batch (st_iter_data st) st) as [st1 evs].
      cbn [fst snd] in *.
      destruct (IH (step + 1)%Z st1
                  {| sampler_draws := S (sampler_draws sampler);
                     iter_itune := skipn (train_batch_size config) (iter_itune sampler) |})
        as (st2 & evs2 & Hloop & Hm & Hl).
      { cbn [sampler_draws iter_itune]. rewrite length_skipn. lia. }
      rewrite Hloop. subst evs. eexists _, _. split; [reflexivity|]. split.
      * unfold milestones in *. cbn [flat_map app py_range map]. rewrite Hm. reflexivity.
      * destruct n as [|n'].
        -- subst st2. exists l, t. rewrite Hlast. do 3 f_equal. lia.
        -- destruct Hl as (l' & t' & Hl). exists l', t'. rewrite Hl. do 3 f_equal. lia.
    + set (batch := base_dataset ul2r_key (st_iter_data st)).
      destruct (train_on_spec config durations 2 step batch (S (st_iter_data st)) st)
        as (l & t & info & Hlast & Hev & _).
      destruct (train_on config durations 2 step batch (S (st_iter_data st)) st)
        as [st1 evs].
      cbn [fst snd] in *.
      destruct (IH (step + 1)%Z st1
                  {| sampler_draws := S (sampler_draws sampler);
                     iter_itune := iter_itune sampler |})
        as (st2 & evs2 & Hloop & Hm & Hl).
      { cbn [sampler_draws iter_itune]. lia. }
      rewrite Hloop. subst evs. eexists _, _. split; [reflexivity|]. split.
      * unfold milestones in *. cbn [flat_map app py_range map]. rewrite Hm. reflexivity.
      * destruct n as [|n'].
        -- subst st2. exists l, t. rewrite Hlast. do 3 f_equal. lia.
        -- destruct Hl as (l' & t' & Hl). exists l', t'. rewrite Hl. do 3 f_equal. lia.
Qed.

(** A run whose second phase has a step to run and whose instruction
    dataset holds the batches its sampler takes. *)
Lemma main_spec_drawn :
  (ul2r_steps config < num_train_steps config)%Z ->
  (instruction_draws config (itune_key config) 0
     (Z.to_nat (num_train_steps config - ul2r_steps config))
   * train_batch_size config <= length itune_dataset)%nat ->
  snd (main config durations) = Ok tt
  /\ milestones (fst (main config durations))
     = map (fun s => inl (1%nat, s)) (py_range 0 (Z.to_nat (ul2r_steps config)))
       ++ (if (0 <? ul2r_steps config)%Z
           then [inr ("ul2r_finished"%string, (ul2r_steps config - 1)%Z)] else [])
       ++ map (fun s => inl (2%nat, s))
              (py_range (ul2r_steps config)
                 (Z.to_nat (num_train_steps config - ul2r_steps config)))
       ++ [inr ("instruction_tuned"%string, (num_train_steps config - 1)%Z)].
Proof.
  intros Hlt Henough. unfold main, itune_key in *.
  destruct (split3 (PRNGKey (seed config))) as [[ul2r_key itune_key] training_key].
  cbn [fst snd] in *. fold (ul2r_steps config).
  set (n1 := Z.to_nat (ul2r_steps config)) in *.
  set (n2 := Z.to_nat (num_train_steps config - ul2r_steps config)) in *.
  set (st0 := {| st_model := load_hf_gpt2_checkpoint;
                 st_opt_state := optimizer_init load_hf_gpt2_checkpoint;
                 st_training_key := training_key; st_iter_data := 0;
                 st_last := None |}).
  destruct (ul2r_loop_spec config durations ul2r_key n1 0%Z st0) as (Hm1 & _ & _ & Hl1).
  destruct (ul2r_loop config durations ul2r_key n1 0%Z st0) as [st1 events1].
  cbn [fst snd] in *.
  assert (Hn2 : (0 < n2)%nat) by (subst n2; lia).
  assert (Hsave1 : exists saved1,
             (if (0 <? ul2r_steps config)%Z
              then save_checkpoint st1 "ul2r_finished"%string else ([], Ok tt))
             = (saved1, Ok tt)
             /\ milestones saved1
                = (if (0 <? ul2r_steps config)%Z
                   then [inr ("ul2r_finished"%string, (ul2r_steps config - 1)%Z)] else [])).
  { destruct (0 <? ul2r_steps config)%Z eqn:Epos.
    - apply Z.ltb_lt in Epos. destruct n1 as [|n1'] eqn:En1; [subst n1; lia|].
      destruct Hl1 as (l & t & Hl1). unfold save_checkpoint. rewrite Hl1.
      eexists. split; [reflexivity|]. cbn.
      repeat f_equal. subst n1. lia.
    - exists []. split; reflexivity. }
  destruct Hsave1 as (saved1 & Hsave1 & Hm1s). rewrite Hsave1.
  destruct (itune_loop_spec_drawn ul2r_key itune_key n2 (ul2r_steps config) st1
              {| sampler_draws := 0; iter_itune := itune_dataset |})
    as (st2 & events2 & Hloop & Hm2 & Hl2); [exact Henough|].
  rewrite Hloop. destruct n2 as [|n2'] eqn:En2; [lia|].
  destruct Hl2 as (l & t & Hl2). unfold save_checkpoint. rewrite Hl2. cbn [fst snd].
  split; [reflexivity|].
  unfold milestones in *. rewrite !flat_map_app, Hm1, Hm1s, Hm2. cbn [flat_map app].
  repeat f_equal. cbn [info_step]. subst n2. lia.
Qed.

End DrawsFacts.

End InstructionTuneDrawsFacts.

(* ===================================================================== *)
(** ** The two-phase loop: phases, checkpoints, the sampler *)
(* ===================================================================== *)

Section InstructionTuneProperties.
Import InstructionTune InstructionTuneReading InstructionTuneFacts InstructionTuneDrawsFacts.

(** C6, as the code has it. With [ul2r_phase_fraction = 0.5] and
    [num_train_steps = 10], and an instruction dataset that holds the
    batches the sampler takes from it (one batch for each of the five
    draws of the second phase that fall below the instruction weight),
    the run logs phase 1 at steps 0 to 4, saves a checkpoint tagged
    "ul2r_finished" with the [StepInfo] of step 4, logs phase 2 at steps
    5 to 9, and saves a checkpoint tagged "instruction_tuned" with the
    [StepInfo] of step 9. *)
Theorem main_two_phase_scenario :
  forall (W : World) (config : InstructionTuneConfig) (durations : Z -> Q),
    num_train_steps config = 10%Z ->
    ul2r_phase_fraction config == 1 # 2 ->
    (instruction_draws config (itune_key config) 0 5 * train_batch_size config
     <= length itune_dataset)%nat ->
    snd (main config durations) = Ok tt
    /\ milestones (fst (main config durations))
       = [inl (1%nat, 0%Z); inl (1%nat, 1%Z); inl (1%nat, 2%Z); inl (1%nat, 3%Z);
          inl (1%nat, 4%Z);
          inr ("ul2r_finished"%string, 4%Z);
          inl (2%nat, 5%Z); inl (2%nat, 6%Z); inl (2%nat, 7%Z); inl (2%nat, 8%Z);
          inl (2%nat, 9%Z);
          inr ("instruction_tuned"%string, 9%Z)].
Proof.
  intros W config durations HN Hfrac Henough.
  assert (Hsteps : ul2r_steps config = 5%Z).
  { unfold ul2r_steps. rewrite HN.
    rewrite (py_int_Qeq (y := inject_Z 10 * (1 # 2))) by (rewrite Hfrac; reflexivity).
    reflexivity. }
  destruct (main_spec_drawn config durations) as (Hok & Hm).
  - rewrite Hsteps, HN. lia.
  - rewrite Hsteps, HN. exact Henough.
  - split; [exact Hok|]. rewrite Hm, Hsteps, HN. reflexivity.
Qed.

(** A dataset of six examples for batches of two: the five draws of the
    second phase take three batches, all there is, and five batches
    would not be there. *)
Lemma main_two_phase_scenario_toy :
  (instruction_draws toy_tune_config (@itune_key small_tuner toy_tune_config) 0 5
   * train_batch_size toy_tune_config <= length (@itune_dataset small_tuner))%nat
  /\ ~ (5 * train_batch_size toy_tune_config <= length (@itune_dataset small_tuner))%nat
  /\ snd (@main small_tuner toy_tune_config (fun _ => 0)) = Ok tt
  /\ milestones (fst (@main small_tuner toy_tune_config (fun _ => 0)))
     = [inl (1%nat, 0%Z); inl (1%nat, 1%Z); inl (1%nat, 2%Z); inl (1%nat, 3%Z);
        inl (1%nat, 4%Z);
        inr ("ul2r_finished"%string, 4%Z);
        inl (2%nat, 5%Z); inl (2%nat, 6%Z); inl (2%nat, 7%Z); inl (2%nat, 8%Z);
        inl (2%nat, 9%Z);
        inr ("instruction_tuned"%string, 9%Z)].
Proof.
  assert (Hdrawn : (instruction_draws toy_tune_config
                      (@itune_key small_tuner toy_tune_config) 0 5
                    * train_batch_size toy_tune_config
                    <= length (@itune_dataset small_tuner))%nat)
    by (vm_compute; lia).
  split; [exact Hdrawn|]. split; [simpl; lia|].
  apply (@main_two_phase_scenario small_tuner toy_tune_config (fun _ => 0)).
  - reflexivity.
  - reflexivity.
  - exact Hdrawn.
Defined.

(** In that run no checkpoint is tagged "phase-boundary": the two
    checkpoints saved are tagged "ul2r_finished" and "instruction_tuned". *)
Lemma main_two_phase_no_phase_boundary_tag :
  saved_tags (fst (@main toy_tuner toy_tune_config (fun _ => 0)))
    = ["ul2r_finished"%string; "instruction_tuned"%string]
  /\ ~ In "phase-boundary"%string
         (saved_tags (fst (@main toy_tuner toy_tune_config (fun _ => 0)))).
Proof.
  assert (E : saved_tags (fst (@main toy_tuner toy_tune_config (fun _ => 0)))
              = ["ul2r_finished"%string; "instruction_tuned"%string]) by reflexivity.
  split; [exact E|]. rewrite E. intros [H|[H|[]]]; discriminate H.
Qed.



End InstructionTuneProperties.

(* ===================================================================== *)
(** ** The running mean *)
(* ===================================================================== *)

Module RunningFacts.
Import Running.

Lemma inject_nat_S (n : nat) : inject_nat (S n) == inject_nat n + 1.
Proof.
  unfold inject_nat. rewrite Nat2Z.inj_succ. unfold Z.succ.
  rewrite inject_Z_plus. reflexivity.
Qed.

(** One [update]: [count * mean] grows by [x]. *)
Lemma update_total {I} (self : RunningMean I) (x : I -> Q) (i : I) :
  mean (update self x) i * inject_nat (count (update self x))
  == mean self i * inject_nat (count self) + x i.
Proof.
  unfold update. cbn [mean count].
  pose proof (@ModelingUtilsFacts.inject_nat_nonzero (S (count self)) ltac:(lia)) as Hnz.
  assert (E := inject_nat_S (count self)).
  set (c' := inject_nat (S (count self))) in *.
  set (c := inject_nat (count self)) in *.
  assert (Ec : c == c' - 1) by (rewrite E; ring).
  rewrite Ec. field. exact Hnz.
Qed.

Lemma updates_total {I} (xs : list (I -> Q)) :
  forall (self : RunningMean I),
    count (updates self xs) = (count self + length xs)%nat /\
    forall i, mean (updates self xs) i * inject_nat (count (updates self xs))
              == mean self i * inject_nat (count self) + Qsum (map (fun x => x i) xs).
Proof.
  induction xs as [|x xs IH]; intros self.
  - split; [simpl; lia|]. intros i. simpl. ring.
  - destruct (IH (update self x)) as [Hc Hm]. split.
    + unfold updates in *. simpl fold_left. rewrite Hc. simpl. lia.
    + intros i. unfold updates in *. simpl fold_left. rewrite (Hm i).
      rewrite update_total. simpl. ring.
Qed.

End RunningFacts.

Section RunningProperties.
Import Running.

Variable I : Type.

(** X1. A [RunningMean] that was created and then updated with the
    arrays [xs], one or more, has counted them and holds, at every
    position, their arithmetic mean. *)
Theorem RunningMean_updates_mean (xs : list (I -> Q)) :
  xs <> [] ->
  let r := updates (init I) xs in
  count r = length xs /\
  forall i, mean r i == Qsum (map (fun x => x i) xs) / inject_nat (length xs).
Proof.
  intros Hne r. destruct (RunningFacts.updates_total xs (init I)) as [Hc Hm].
  fold r in Hc, Hm. simpl in Hc. split; [exact Hc|].
  intros i. specialize (Hm i). rewrite Hc in Hm. simpl in Hm.
  assert (Hpos : (0 < length xs)%nat) by (destruct xs; [congruence | simpl; lia]).
  pose proof (ModelingUtilsFacts.inject_nat_nonzero Hpos) as Hnz.
  assert (E : Qsum (map (fun x => x i) xs) == mean r i * inject_nat (length xs)).
  { rewrite Hm. ring. }
  rewrite E. field. exact Hnz.
Qed.

End RunningProperties.

Lemma RunningMean_updates_mean_three :
  [fun _ : unit => 1; fun _ => 2; fun _ => 6] <> [] /\
  Running.count (Running.updates (Running.init unit)
                   [fun _ : unit => 1; fun _ => 2; fun _ => 6]) = 3%nat /\
  Running.mean (Running.updates (Running.init unit)
                  [fun _ : unit => 1; fun _ => 2; fun _ => 6]) tt == 3.
Proof.
  assert (Hne : [fun _ : unit => 1; fun _ => 2; fun _ => 6] <> []) by discriminate.
  split; [exact Hne|].
  destruct (@RunningMean_updates_mean unit _ Hne) as [Hc Hm].
  split; [exact Hc|]. rewrite (Hm tt). reflexivity.
Defined.

(* ===================================================================== *)
(** ** The quick GELU activation *)
(* ===================================================================== *)

Module ActivationsFacts.
Import Reals Lra.
Import Activations.
Local Open Scope R_scope.

Lemma sigmoid_pos (x : R) : 0 < sigmoid x.
Proof.
  unfold sigmoid. pose proof (exp_pos (- x)) as E.
  apply Rdiv_lt_0_compat; lra.
Qed.

Lemma sigmoid_lt_1 (x : R) : sigmoid x < 1.
Proof.
  unfold sigmoid. pose proof (exp_pos (- x)) as E.
  apply (Rmult_lt_reg_r (1 + exp (- x))); [lra|].
  unfold Rdiv. rewrite Rmult_assoc, Rinv_l by lra. lra.
Qed.

Lemma sigmoid_opp (x : R) : sigmoid (- x) = 1 - sigmoid x.
Proof.
  unfold sigmoid. rewrite Ropp_involutive, exp_Ropp.
  pose proof (exp_pos x) as E.
  assert (0 < / exp x) by (apply Rinv_0_lt_compat; exact E).
  field. split; [|lra].
  intros C. assert (exp x + 1 = 0) by lra. lra.
Qed.

(** Above one half exactly on the positive arguments. *)
Lemma sigmoid_half_pos (x : R) : 0 < x -> 1 / 2 < sigmoid x.
Proof.
  intros Hx. unfold sigmoid. pose proof (exp_pos (- x)) as E.
  assert (L : exp (- x) < 1).
  { rewrite <- exp_0. apply exp_increasing. lra. }
  apply (Rmult_lt_reg_r (1 + exp (- x))); [lra|].
  unfold Rdiv at 2. rewrite Rmult_assoc, Rinv_l by lra. lra.
Qed.

Lemma sigmoid_half_neg (x : R) : x < 0 -> sigmoid x < 1 / 2.
Proof.
  intros Hx. assert (P : 0 < - x) by lra.
  pose proof (sigmoid_half_pos P) as H. rewrite sigmoid_opp in H. lra.
Qed.

End ActivationsFacts.

Section ActivationsProperties.
Import Reals Lra.
Import Activations ActivationsFacts.
Local Open Scope R_scope.

(** X2. The quick GELU of [x] and of [-x] differ by [x]: the function is
    [x / 2] plus an even function. *)
Theorem quick_gelu_reflect (x : R) : quick_gelu x - quick_gelu (- x) = x.
Proof.
  unfold quick_gelu.
  replace (1.702 * - x) with (- (1.702 * x)) by ring.
  rewrite sigmoid_opp. ring.
Qed.

(** X3. Over the reals (in floating point the sigmoid saturates and the
    bounds are reached), the quick GELU lies strictly between [x / 2]
    and [x] on the positive inputs, strictly between [x / 2] and [0] on
    the negative ones, and is [0] at [0]. *)
Theorem quick_gelu_bounds (x : R) :
  (0 < x -> x / 2 < quick_gelu x < x) /\
  (x < 0 -> x / 2 < quick_gelu x < 0) /\
  quick_gelu 0 = 0.
Proof.
  unfold quick_gelu. split; [|split].
  - intros Hx. assert (P : 0 < 1.702 * x) by lra.
    pose proof (sigmoid_half_pos P) as Hh.
    pose proof (sigmoid_lt_1 (1.702 * x)) as H1.
    split; nra.
  - intros Hx. assert (P : 1.702 * x < 0) by lra.
    pose proof (sigmoid_half_neg P) as Hh.
    pose proof (sigmoid_pos (1.702 * x)) as H0.
    split; nra.
  - ring.
Qed.

End ActivationsProperties.

(* ===================================================================== *)
(** ** Checkpointed chains of functions *)
(* ===================================================================== *)

Module CheckpointingFacts.
Import Checkpointing.

Lemma fold_compose {A} (rest : list (A -> A)) :
  forall (f : A -> A) (x : A),
    fold_left (fun f g => fun x => g (f x)) rest f x = chain rest (f x).
Proof.
  induction rest as [|g rest IH]; intros f x; simpl.
  - reflexivity.
  - rewrite IH. reflexivity.
Qed.

Lemma chain_app {A} (l1 l2 : list (A -> A)) (x : A) :
  chain (l1 ++ l2) x = chain l2 (chain l1 x).
Proof. unfold chain. apply fold_left_app. Qed.

Lemma length_pos_nonempty {T} (l : list T) : (0 < length l)%nat -> l <> [].
Proof. destruct l; simpl; [lia | discriminate]. Qed.

Lemma recursive_checkpoint_some {A} (n : nat) :
  forall (funs : list (A -> A)) (threshold : nat),
    (length funs <= n)%nat -> funs <> [] ->
    exists g, recursive_checkpoint funs threshold = Some g /\
              forall x, g x = chain funs x.
Proof.
  induction n as [|n IH]; intros funs threshold Hlen Hne.
  - destruct funs; [congruence | simpl in Hlen; lia].
  - destruct funs as [|f1 [|f2 [|f3 rest]]]; [congruence| | |].
    + simp recursive_checkpoint. eexists; split; [reflexivity|]. reflexivity.
    + simp recursive_checkpoint. eexists; split; [reflexivity|]. reflexivity.
    + simp recursive_checkpoint. cbv zeta.
      set (funs := f1 :: f2 :: f3 :: rest) in *.
      destruct (length funs <=? threshold).
      * unfold funs, functools_reduce. eexists; split; [reflexivity|].
        intros x. rewrite fold_compose. reflexivity.
      * assert (Hlo : (1 <= length funs / 2)%nat).
        { apply Nat.div_le_lower_bound; [lia|]. unfold funs. simpl. lia. }
        assert (Hhi : (length funs / 2 < length funs)%nat).
        { apply Nat.div_lt; [unfold funs; simpl; lia | lia]. }
        destruct (IH (firstn (length funs / 2) funs) 2%nat) as [g1 [E1 H1]].
        { rewrite length_firstn. lia. }
        { apply length_pos_nonempty. rewrite length_firstn. lia. }
        destruct (IH (skipn (length funs / 2) funs) 2%nat) as [g2 [E2 H2]].
        { rewrite length_skipn. lia. }
        { apply length_pos_nonempty. rewrite length_skipn. lia. }
        rewrite E1, E2. eexists; split; [reflexivity|].
        intros x. unfold remat. rewrite H2, H1, <- chain_app, firstn_skipn.
        reflexivity.
Qed.

End CheckpointingFacts.

Section CheckpointingProperties.
Import Checkpointing.

Variable A : Type.

(** X4. Whatever the threshold, [recursive_checkpoint] of one or more
    functions returns a function that applies each of them in turn, the
    first of the list first; of an empty list it raises the [TypeError]
    of [functools.reduce]. *)
Theorem recursive_checkpoint_composes (funs : list (A -> A)) (threshold : nat) :
  (funs = [] -> recursive_checkpoint funs threshold = None) /\
  (funs <> [] ->
   exists g, recursive_checkpoint funs threshold = Some g /\
             forall x, g x = chain funs x).
Proof.
  split.
  - intros ->. simp recursive_checkpoint. reflexivity.
  - intros Hne. apply (@CheckpointingFacts.recursive_checkpoint_some A (length funs));
      [lia | exact Hne].
Qed.

End CheckpointingProperties.

(* ===================================================================== *)
(** ** The accumulator at its edges *)
(* ===================================================================== *)

Module AccumulatorEdgeFacts.
Import ModelingUtils.

Section Facts.

Variable X : Type.
Variable f : PyTree -> X -> Q * PyTree.
Variable model : PyTree.


End Facts.


End AccumulatorEdgeFacts.

Section AccumulatorEdgeProperties.
Import ModelingUtils.

Variable X : Type.
Variable f : PyTree -> X -> Q * PyTree.
Variable model : PyTree.


(** X6. On no example at all the accumulator divides zero by zero: the
    result is a [nan], with no call to [f] and no exception, for
    [accumulate_gradients] and for [accumulate_gradients_sharded] on an
    empty batch with a microbatch size that is not zero. *)
Theorem accumulate_gradients_sharded_empty (data_axis_size per_device_parallelism : nat) :
  (0 < data_axis_size * per_device_parallelism)%nat ->
  accumulate_gradients f model [] = ([], NotANumber)
  /\ accumulate_gradients_sharded f model [] data_axis_size per_device_parallelism
     = ([], NotANumber).
Proof.
  intros Hpos. split; [reflexivity|].
  unfold accumulate_gradients_sharded.
  destruct (data_axis_size * per_device_parallelism)%nat as [|m]; [lia|].
  reflexivity.
Qed.

End AccumulatorEdgeProperties.


Lemma accumulate_gradients_sharded_empty_scenario :
  (0 < 2 * 2)%nat
  /\ ModelingUtils.accumulate_gradients ModelingUtils.scenario_f
       ModelingUtils.scenario_model [] = ([], NotANumber)
  /\ ModelingUtils.accumulate_gradients_sharded ModelingUtils.scenario_f
       ModelingUtils.scenario_model [] 2 2 = ([], NotANumber).
Proof.
  assert (Hpos : (0 < 2 * 2)%nat) by (simpl; lia).
  split; [exact Hpos|].
  exact (@accumulate_gradients_sharded_empty Q ModelingUtils.scenario_f
           ModelingUtils.scenario_model 2 2 Hpos).
Defined.

(* ===================================================================== *)
(** ** Cross entropy: soft targets, shifted logits, the number of labels *)
(* ===================================================================== *)

Module CrossEntropyMoreFacts.
Import Reals Lra CrossEntropy CrossEntropyFacts.
Local Open Scope R_scope.

Lemma Rsum_exp_pos (xs : list R) : xs <> [] -> 0 < Rsum (map exp xs).
Proof.
  destruct xs as [|x xs]; [congruence|]. intros _. simpl.
  pose proof (exp_pos x). pose proof (Rsum_exp_nonneg xs). lra.
Qed.

(** With two labels or more, each exponential is below the sum. *)
Lemma exp_lt_Rsum (xs : list R) (t : nat) :
  (t < length xs)%nat -> (2 <= length xs)%nat ->
  exp (nth t xs 0) < Rsum (map exp xs).
Proof.
  intros Ht H2. destruct xs as [|x xs]; [simpl in Ht; lia|].
  destruct t as [|t]; simpl.
  - assert (0 < Rsum (map exp xs)).
    { apply Rsum_exp_pos. destruct xs; [simpl in H2; lia | discriminate]. }
    lra.
  - assert (exp (nth t xs 0) <= Rsum (map exp xs)).
    { apply exp_le_Rsum. simpl in Ht. lia. }
    pose proof (exp_pos x). lra.
Qed.

Lemma logsumexp_row_gt (row : list R) (t : nat) :
  (t < length row)%nat -> (2 <= length row)%nat -> nth t row 0 < logsumexp_row row.
Proof.
  intros Ht H2. unfold logsumexp_row.
  rewrite <- (ln_exp (nth t row 0)) at 1.
  apply ln_increasing; [apply exp_pos | apply exp_lt_Rsum; assumption].
Qed.

Lemma logsumexp_row_single (p : R) : logsumexp_row [p] = p.
Proof. unfold logsumexp_row. simpl. rewrite Rplus_0_r. apply ln_exp. Qed.

Lemma dot_row_nonneg (l : R) (row : list R) :
  (forall t, (t < length row)%nat -> nth t row 0 <= l) ->
  forall trow, Forall (fun y => 0 <= y) trow ->
    0 <= dot_row trow (map (fun p => l - p) row).
Proof.
  induction row as [|p row IH]; intros Hle trow Ht.
  - destruct trow; simpl; lra.
  - destruct trow as [|y trow]; simpl; [lra|].
    inversion Ht as [|? ? Hy Ht']; subst.
    assert (Hp : p <= l) by (apply (Hle 0%nat); simpl; lia).
    assert (0 <= dot_row trow (map (fun q => l - q) row)).
    { apply IH; [|exact Ht']. intros t Hlt. apply (Hle (S t)). simpl. lia. }
    assert (0 <= y * (l - p)) by (apply Rmult_le_pos; lra).
    lra.
Qed.

Lemma Rsum_exp_shift (c : R) (row : list R) :
  Rsum (map exp (map (fun p => p + c) row)) = exp c * Rsum (map exp row).
Proof.
  induction row as [|p row IH]; simpl.
  - ring.
  - rewrite IH, exp_plus. ring.
Qed.

Lemma logsumexp_row_shift (c : R) (row : list R) :
  row <> [] -> logsumexp_row (map (fun p => p + c) row) = logsumexp_row row + c.
Proof.
  intros Hne. unfold logsumexp_row.
  rewrite Rsum_exp_shift, ln_mult, ln_exp;
    [ring | apply exp_pos | apply Rsum_exp_pos; exact Hne].
Qed.

Lemma broadcast_sub_shift (c : R) (pred_y : list (list R)) :
  Forall (fun row => row <> []) pred_y ->
  broadcast_sub (logsumexp (Logits.shift c pred_y)) (Logits.shift c pred_y)
  = broadcast_sub (logsumexp pred_y) pred_y.
Proof.
  induction 1 as [|row rows Hrow _ IH]; [reflexivity|].
  unfold Logits.shift, logsumexp in *. cbn [map broadcast_sub].
  rewrite IH. f_equal.
  rewrite map_map. apply map_ext. intros p.
  rewrite logsumexp_row_shift by exact Hrow. ring.
Qed.

(** Against one-hot targets, a property of [log normalizer - target
    logit] holds of every loss. *)
Lemma cross_entropy_loss_Forall (P : R -> Prop) (size : nat) :
  (forall row t, length row = size -> (t < size)%nat ->
                 P (logsumexp_row row - nth t row 0)) ->
  forall pred_y targets,
    Forall (fun row => length row = size) pred_y ->
    Forall (fun t => (t < size)%nat) targets ->
    length targets = length pred_y ->
    Forall P (cross_entropy_loss pred_y (one_hot targets size)).
Proof.
  intros HP. unfold cross_entropy_loss, cross_entropy_loss_and_log_normalizers.
  induction pred_y as [|row rows IH]; intros [|t ts] Hrows Hts Hlen;
    simpl in Hlen; try discriminate; simpl; [constructor|].
  inversion Hrows as [|? ? Hrow Hrows']; subst.
  inversion Hts as [|? ? Ht Hts']; subst.
  constructor.
  - rewrite dot_row_one_hot by exact Ht. apply HP; [reflexivity | exact Ht].
  - apply IH; [assumption | assumption | lia].
Qed.

End CrossEntropyMoreFacts.

Section CrossEntropyMoreProperties.
Import Reals Lra CrossEntropy CrossEntropyFacts CrossEntropyMoreFacts.
Local Open Scope R_scope.

(** X7. Against any targets of the shape of the logits that are not
    negative (one-hot or soft), over the reals no cross entropy loss is
    negative. *)
Theorem cross_entropy_loss_soft_targets_nonneg (pred_y target_y : list (list R)) :
  Forall2 (fun row trow => length row = length trow) pred_y target_y ->
  Forall (Forall (fun y => 0 <= y)) target_y ->
  Forall (fun loss => 0 <= loss) (cross_entropy_loss pred_y target_y).
Proof.
  unfold cross_entropy_loss, cross_entropy_loss_and_log_normalizers.
  induction 1 as [|row trow rows trows _ _ IH]; intros Ht; simpl; [constructor|].
  inversion Ht as [|? ? Hrow Ht']; subst.
  constructor; [|apply IH; exact Ht'].
  apply dot_row_nonneg; [|exact Hrow].
  intros t Hlt. apply logsumexp_row_ge. exact Hlt.
Qed.

(** X8. Over the reals (exact arithmetic, no rounding of the shifted
    logits), adding one constant to every logit leaves every loss as it
    was and adds the constant to every log normalizer, whatever the
    targets. *)
Theorem cross_entropy_loss_shift (c : R) (pred_y target_y : list (list R)) :
  Forall (fun row => row <> []) pred_y ->
  cross_entropy_loss_and_log_normalizers (Logits.shift c pred_y) target_y
  = (cross_entropy_loss pred_y target_y,
     map (fun l => l + c) (logsumexp pred_y)).
Proof.
  intros Hne. unfold cross_entropy_loss, cross_entropy_loss_and_log_normalizers.
  rewrite broadcast_sub_shift by exact Hne. f_equal.
  unfold Logits.shift, logsumexp. rewrite !map_map.
  apply map_ext_in. intros row Hin.
  apply logsumexp_row_shift. rewrite Forall_forall in Hne. apply Hne. exact Hin.
Qed.

(** X9. Over the reals (in floating point a loss can round to zero),
    against one-hot targets within range the loss is zero at every
    position when [Label] has one entry, and strictly positive at every
    position, whatever the logits, when it has two or more. *)
Theorem cross_entropy_loss_one_hot_positive
    (size : nat) (pred_y : list (list R)) (targets : list nat) :
  Forall (fun row => length row = size) pred_y ->
  Forall (fun t => (t < size)%nat) targets ->
  length targets = length pred_y ->
  (size = 1%nat ->
   Forall (fun loss => loss = 0) (cross_entropy_loss pred_y (one_hot targets size)))
  /\ ((2 <= size)%nat ->
      Forall (fun loss => 0 < loss) (cross_entropy_loss pred_y (one_hot targets size))).
Proof.
  intros Hrows Hts Hlen. split; intros Hsize.
  - apply cross_entropy_loss_Forall; try assumption.
    intros row t Hrow Ht. subst size.
    destruct row as [|p [|q row]]; simpl in Hrow; try discriminate.
    assert (t = 0%nat) by lia. subst t.
    rewrite logsumexp_row_single. simpl. lra.
  - apply cross_entropy_loss_Forall; try assumption.
    intros row t Hrow Ht.
    assert (nth t row 0 < logsumexp_row row).
    { apply logsumexp_row_gt; rewrite Hrow; assumption. }
    lra.
Qed.

Lemma cross_entropy_loss_soft_targets_nonneg_smoothed :
  Forall (fun loss => (0 <= loss)%R)
    (CrossEntropy.cross_entropy_loss [[0; 1]; [1; 0]]%R [[0.9; 0.1]; [0.5; 0.5]]%R).
Proof.
  apply cross_entropy_loss_soft_targets_nonneg.
  - repeat constructor.
  - repeat constructor; lra.
Defined.

Lemma cross_entropy_loss_shift_two_rows :
  CrossEntropy.cross_entropy_loss_and_log_normalizers
    (Logits.shift 3 [[0; 1]; [1; 0]]%R) [[1; 0]; [0; 1]]%R
  = (CrossEntropy.cross_entropy_loss [[0; 1]; [1; 0]]%R [[1; 0]; [0; 1]]%R,
     map (fun l => (l + 3)%R) (CrossEntropy.logsumexp [[0; 1]; [1; 0]]%R)).
Proof.
  apply cross_entropy_loss_shift.
  repeat constructor; discriminate.
Defined.

Lemma cross_entropy_loss_one_hot_positive_two_labels :
  Forall (fun loss => (0 < loss)%R)
    (CrossEntropy.cross_entropy_loss [[0; 0]; [1; 0]]%R
       (CrossEntropy.one_hot [0%nat; 1%nat] 2)).
Proof.
  destruct (@cross_entropy_loss_one_hot_positive 2%nat [[0; 0]; [1; 0]]%R [0%nat; 1%nat])
    as [_ H2].
  - repeat constructor.
  - repeat constructor.
  - reflexivity.
  - apply H2. apply Nat.le_refl.
Defined.

End CrossEntropyMoreProperties.

(* ===================================================================== *)
(** ** The masked loss of instruction_tune.py *)
(* ===================================================================== *)

Module InstructionTuneLossFacts.
Import Reals Lra CrossEntropy InstructionTuneLoss.
Local Open Scope R_scope.

Lemma Rsum_nonneg (xs : list R) : Forall (fun x => 0 <= x) xs -> 0 <= Rsum xs.
Proof. induction 1 as [|x xs Hx _ IH]; simpl; lra. Qed.

Lemma masked_Forall (P : R -> Prop) (mask : list bool) :
  forall xs, Forall P xs -> Forall P (masked mask xs).
Proof.
  induction mask as [|m mask IH]; intros xs Hxs; [constructor|].
  destruct xs as [|x xs]; [constructor|].
  inversion Hxs; subst. simpl. destruct m; [constructor|]; auto.
Qed.

Lemma masked_nil_iff (mask : list bool) :
  forall xs, length xs = length mask ->
    (masked mask xs = [] <-> Forall (fun m => m = false) mask).
Proof.
  induction mask as [|m mask IH]; intros xs Hlen.
  - split; [constructor | reflexivity].
  - destruct xs as [|x xs]; [discriminate|]. simpl in Hlen.
    specialize (IH xs ltac:(lia)). simpl. destruct m.
    + split; [discriminate|]. intros H. inversion H; discriminate.
    + rewrite IH. split; [intros H; constructor; [reflexivity | exact H]|].
      intros H. inversion H; assumption.
Qed.

Lemma hax_mean_where_nonneg (xs : list R) (mask : list bool) (v : R) :
  Forall (fun x => 0 <= x) xs -> hax_mean_where xs mask = Some v -> 0 <= v.
Proof.
  intros Hxs. unfold hax_mean_where.
  pose proof (masked_Forall mask Hxs) as Hk.
  destruct (masked mask xs) as [|k kept] eqn:E; [discriminate|].
  intros [= <-]. apply Rsum_nonneg in Hk.
  assert (0 < INR (length (k :: kept))) by (apply lt_0_INR; simpl; lia).
  apply Rmult_le_pos; [exact Hk|]. apply Rlt_le, Rinv_0_lt_compat. assumption.
Qed.

Lemma cross_entropy_loss_cons (size : nat) (row : list R) (rows : list (list R))
    (t : nat) (ts : list nat) :
  cross_entropy_loss (row :: rows) (one_hot (t :: ts) size)
  = dot_row (one_hot_row t size) (map (fun p => logsumexp_row row - p) row)
    :: cross_entropy_loss rows (one_hot ts size).
Proof. reflexivity. Qed.

Lemma length_cross_entropy_loss (size : nat) (pred_y : list (list R)) :
  forall targets, length targets = length pred_y ->
    length (cross_entropy_loss pred_y (one_hot targets size)) = length pred_y.
Proof.
  induction pred_y as [|row rows IH]; intros [|t ts] Hlen; simpl in Hlen;
    try discriminate; [reflexivity|].
  rewrite cross_entropy_loss_cons. simpl. f_equal. apply IH. lia.
Qed.

(** What is masked out does not reach the masked losses. *)
Lemma masked_cross_entropy_frame (size : nat) (mask : list bool) :
  forall pred_y pred_y' targets targets',
    length pred_y = length mask -> length targets = length mask ->
    length pred_y' = length mask -> length targets' = length mask ->
    (forall i, nth i mask false = true ->
               nth i pred_y [] = nth i pred_y' []
               /\ nth i targets 0%nat = nth i targets' 0%nat) ->
    masked mask (cross_entropy_loss pred_y (one_hot targets size))
    = masked mask (cross_entropy_loss pred_y' (one_hot targets' size)).
Proof.
  induction mask as [|m mask IH]; intros pred_y pred_y' targets targets' H1 H2 H3 H4 Hagree;
    [reflexivity|].
  destruct pred_y as [|row rows]; [discriminate|].
  destruct pred_y' as [|row' rows']; [discriminate|].
  destruct targets as [|t ts]; [discriminate|].
  destruct targets' as [|t' ts']; [discriminate|].
  simpl in H1, H2, H3, H4. rewrite !cross_entropy_loss_cons.
  assert (Htail : masked mask (cross_entropy_loss rows (one_hot ts size))
                  = masked mask (cross_entropy_loss rows' (one_hot ts' size))).
  { apply IH; try lia. intros i Hi. exact (Hagree (S i) Hi). }
  cbn [masked]. destruct m; [|exact Htail].
  destruct (Hagree 0%nat eq_refl) as [Hrow Ht]. simpl in Hrow, Ht. subst row' t'.
  rewrite Htail. reflexivity.
Qed.

End InstructionTuneLossFacts.

Section InstructionTuneLossProperties.
Import Reals Lra CrossEntropy InstructionTuneLoss InstructionTuneLossFacts.
Local Open Scope R_scope.

Variables Model Example Key : Type.
Variable Vocab : nat.
Variable forward : Model -> Example -> Key -> bool -> list (list R).
Variable targets : Example -> list nat.
Variable loss_mask : Example -> list bool.

Local Abbreviation compute_loss := (compute_loss Vocab forward targets loss_mask).

(** X10. Over the reals (finite logits, no overflow), for logits of one
    row of [Vocab] entries per position, targets below [Vocab] and a
    mask with one entry per position: the loss of an example is a [nan]
    exactly when its loss mask holds at no position, and otherwise a
    number that is not negative, the mean, over the positions the mask
    keeps, of the cross entropy losses. *)
Theorem compute_loss_nan_or_nonneg
    (model : Model) (ex : Example) (inference : bool) (key : Key) :
  Forall (fun row => length row = Vocab) (forward model ex key inference) ->
  Forall (fun t => (t < Vocab)%nat) (targets ex) ->
  length (targets ex) = length (forward model ex key inference) ->
  length (loss_mask ex) = length (forward model ex key inference) ->
  (compute_loss model ex inference key = None
   <-> Forall (fun m => m = false) (loss_mask ex))
  /\ (forall v, compute_loss model ex inference key = Some v -> 0 <= v).
Proof.
  intros Hrows Hts Hlen Hmask. unfold InstructionTuneLoss.compute_loss. split.
  - unfold hax_mean_where.
    rewrite <- (@masked_nil_iff (loss_mask ex)
                  (cross_entropy_loss (forward model ex key inference)
                                      (one_hot (targets ex) Vocab)))
      by (rewrite length_cross_entropy_loss; congruence).
    destruct (masked _ _); split; congruence.
  - intros v. apply hax_mean_where_nonneg.
    pose proof (CrossEntropyFacts.cross_entropy_loss_rows Hrows Hts Hlen) as H.
    exact (proj2 (CrossEntropyFacts.losses_eq_map H)).
Qed.

(** X11. Two examples with the same loss mask whose logits and targets
    agree at every position the mask keeps have the same loss: what the
    mask leaves out has no part in it. *)
Theorem compute_loss_masked_out
    (model model' : Model) (ex ex' : Example) (inference inference' : bool)
    (key key' : Key) :
  loss_mask ex' = loss_mask ex ->
  length (forward model ex key inference) = length (loss_mask ex) ->
  length (targets ex) = length (loss_mask ex) ->
  length (forward model' ex' key' inference') = length (loss_mask ex) ->
  length (targets ex') = length (loss_mask ex) ->
  (forall i, nth i (loss_mask ex) false = true ->
             nth i (forward model ex key inference) []
             = nth i (forward model' ex' key' inference') []
             /\ nth i (targets ex) 0%nat = nth i (targets ex') 0%nat) ->
  compute_loss model ex inference key = compute_loss model' ex' inference' key'.
Proof.
  intros Hm H1 H2 H3 H4 Hagree. unfold InstructionTuneLoss.compute_loss, hax_mean_where.
  rewrite Hm.
  rewrite (@masked_cross_entropy_frame Vocab (loss_mask ex) _ _ _ _ H1 H2 H3 H4 Hagree).
  reflexivity.
Qed.

End InstructionTuneLossProperties.

Section InstructionTuneLossExamples.
Import Reals Lra InstructionTuneLoss.
Local Open Scope R_scope.

Lemma compute_loss_nan_or_nonneg_toy :
  (compute_loss 2 toy_forward toy_targets toy_loss_mask tt true false tt = None
   <-> Forall (fun m => m = false) (toy_loss_mask true))
  /\ (forall v, compute_loss 2 toy_forward toy_targets toy_loss_mask tt true false tt
                = Some v -> 0 <= v).
Proof.
  apply (@compute_loss_nan_or_nonneg unit bool unit 2%nat toy_forward toy_targets
           toy_loss_mask tt true false tt).
  - repeat constructor.
  - repeat constructor.
  - reflexivity.
  - reflexivity.
Defined.

Lemma compute_loss_masked_out_toy :
  compute_loss 2 toy_forward toy_targets toy_loss_mask tt true false tt
  = compute_loss 2 toy_forward toy_targets toy_loss_mask tt false true tt.
Proof.
  apply (@compute_loss_masked_out unit bool unit 2%nat toy_forward toy_targets
           toy_loss_mask tt tt true false false true tt tt);
    try reflexivity.
  intros [|[|i]] Hi; simpl in Hi; try discriminate.
  - split; reflexivity.
  - destruct i; discriminate.
Defined.

End InstructionTuneLossExamples.

(* ===================================================================== *)
(** ** The training loop: its schedule, and resuming in the middle *)
(* ===================================================================== *)

Module TrainLmResumeFacts.
Import TrainLm TrainLmReading TrainLmFacts.

Section ResumeFacts.

Context {W : World}.
Variable config : TrainLmConfig.

Lemma step_infos_app (a b : list Event) :
  step_infos (a ++ b) = step_infos a ++ step_infos b.
Proof. apply flat_map_app. Qed.

Lemma trained_on_app (a b : list Event) :
  trained_on (a ++ b) = trained_on a ++ trained_on b.
Proof. apply flat_map_app. Qed.

Lemma outcomes_app (a b : list Event) : outcomes (a ++ b) = outcomes a ++ outcomes b.
Proof. unfold outcomes. now rewrite step_infos_app, map_app. Qed.

Lemma step_infos_on_step env info force : step_infos (on_step env info force) = [].
Proof. unfold on_step. destruct (force || save_due env info); reflexivity. Qed.

Lemma step_infos_seeking (l : list nat) :
  step_infos (map (fun j => ev_seek (train_loader j)) l) = [].
Proof. induction l; simpl; auto. Qed.

Lemma trained_on_seeking (l : list nat) :
  trained_on (map (fun j => ev_seek (train_loader j)) l) = [].
Proof. induction l; simpl; auto. Qed.

(** *** One pass *)

Lemma loop_body_events env step st :
  snd (loop_body config env step st)
  = ev_train_step step (train_loader (st_iter_data st))
                  (fst (split2 (st_training_key st)))
    :: run_hooks env (engine config)
         (info_of step (fst (loop_body config env step st))) false.
Proof.
  unfold loop_body. destruct (split2 (st_training_key st)) as [my_key key'].
  destruct (train_step config (st_model st) (st_opt_state st)
              (train_loader (st_iter_data st)) my_key) as [[l m] o].
  reflexivity.
Qed.

Lemma loop_body_key env step st :
  st_training_key (fst (loop_body config env step st))
  = snd (split2 (st_training_key st))
  /\ st_iter_data (fst (loop_body config env step st)) = S (st_iter_data st).
Proof.
  unfold loop_body. destruct (split2 (st_training_key st)) as [my_key key'].
  destruct (train_step config (st_model st) (st_opt_state st)
              (train_loader (st_iter_data st)) my_key) as [[l m] o].
  split; reflexivity.
Qed.

Lemma loop_body_same_start env env' step a b :
  same_start a b ->
  same_but_time (fst (loop_body config env step a)) (fst (loop_body config env' step b)).
Proof.
  intros (Hm & Ho & Hk & Hi). unfold loop_body. rewrite Hm, Ho, Hk, Hi.
  destruct (split2 (st_training_key b)) as [my_key key'].
  destruct (train_step config (st_model b) (st_opt_state b)
              (train_loader (st_iter_data b)) my_key) as [[l m] o].
  repeat split; reflexivity.
Qed.

Lemma step_infos_loop_body env step st :
  step_infos (snd (loop_body config env step st))
  = [info_of step (fst (loop_body config env step st))].
Proof.
  rewrite loop_body_events. cbn [step_infos flat_map app].
  change (flat_map _ ?evs) with (step_infos evs).
  apply step_infos_run_hooks.
Qed.

Lemma trained_on_loop_body env step st :
  trained_on (snd (loop_body config env step st))
  = [(step, train_loader (st_iter_data st), fst (split2 (st_training_key st)))].
Proof.
  rewrite loop_body_events. cbn [trained_on flat_map app]. f_equal.
  change (flat_map _ ?evs) with (trained_on evs).
  apply trained_on_hook_events, run_hooks_hook_event.
Qed.

(** *** The loop *)

Lemma train_loop_S env n step st :
  train_loop config env (S n) step st
  = (fst (train_loop config env n (S step) (fst (loop_body config env step st))),
     snd (loop_body config env step st)
     ++ snd (train_loop config env n (S step) (fst (loop_body config env step st)))).
Proof.
  simpl. destruct (loop_body config env step st) as [st' evs]. cbn [fst snd].
  destruct (train_loop config env n (S step) st') as [st'' evs']. reflexivity.
Qed.

(** Running [a + b] steps is running [a] steps, then [b] more. *)
Lemma train_loop_add env a b :
  forall step st,
    train_loop config env (a + b) step st
    = (fst (train_loop config env b (step + a) (fst (train_loop config env a step st))),
       snd (train_loop config env a step st)
       ++ snd (train_loop config env b (step + a) (fst (train_loop config env a step st)))).
Proof.
  induction a as [|a IH]; intros step st.
  - cbn [Nat.add train_loop fst snd app]. rewrite Nat.add_0_r.
    destruct (train_loop config env b step st); reflexivity.
  - change (S a + b)%nat with (S (a + b)). rewrite !train_loop_S, IH. cbn [fst snd].
    replace (S step + a)%nat with (step + S a)%nat by lia.
    rewrite app_assoc. reflexivity.
Qed.

Lemma train_loop_iter_data env n :
  forall step st,
    st_iter_data (fst (train_loop config env n step st)) = (st_iter_data st + n)%nat.
Proof.
  induction n as [|n IH]; intros step st.
  - simpl. lia.
  - rewrite train_loop_S. cbn [fst]. rewrite IH.
    destruct (loop_body_key env step st) as [_ ->]. lia.
Qed.

(** The [StepInfo] of the last of the steps holds the variables the loop
    ends with. *)
Lemma train_loop_last env n :
  forall step st,
    nth_error (step_infos (snd (train_loop config env (S n) step st))) n
    = Some (info_of (step + n) (fst (train_loop config env (S n) step st))).
Proof.
  induction n as [|n IH]; intros step st.
  - rewrite train_loop_S. cbn [fst snd train_loop]. rewrite app_nil_r.
    rewrite step_infos_loop_body, Nat.add_0_r. reflexivity.
  - rewrite train_loop_S. cbn [fst snd].
    rewrite step_infos_app, step_infos_loop_body. cbn [app nth_error].
    rewrite IH. do 2 f_equal. lia.
Qed.

(** From the same start, whatever the environment: the same steps, with
    the same outcomes. *)
Lemma train_loop_same_start env env' n :
  forall step a b,
    same_start a b ->
    outcomes (snd (train_loop config env n step a))
    = outcomes (snd (train_loop config env' n step b))
    /\ trained_on (snd (train_loop config env n step a))
       = trained_on (snd (train_loop config env' n step b))
    /\ same_start (fst (train_loop config env n step a))
                  (fst (train_loop config env' n step b))
    /\ ((0 < n)%nat ->
        st_step_loss (fst (train_loop config env n step a))
        = st_step_loss (fst (train_loop config env' n step b))).
Proof.
  induction n as [|n IH]; intros step a b Hab.
  - simpl. repeat split; try apply Hab. lia.
  - rewrite !train_loop_S. cbn [fst snd].
    pose proof (loop_body_same_start env env' step Hab) as (Hm & Ho & Hk & Hi & Hl).
    destruct (IH (S step) (fst (loop_body config env step a))
                (fst (loop_body config env' step b)))
      as (Hout & Htr & Hst & Hloss); [repeat split; assumption|].
    split; [|split; [|split]].
    + rewrite !outcomes_app, Hout. f_equal.
      unfold outcomes. rewrite !step_infos_loop_body. cbn [map].
      unfold outcome_of, info_of. cbn. now rewrite Hm, Ho, Hk, Hl.
    + rewrite !trained_on_app, Htr, !trained_on_loop_body.
      destruct Hab as (_ & _ & -> & ->). reflexivity.
    + exact Hst.
    + intros _. destruct n as [|n]; [exact Hl | apply Hloss; lia].
Qed.

(** Step [step + i] trains on batch [iter_data + i] with the first half
    of the [i]-th split of the key. *)
Lemma train_loop_schedule env n :
  forall step st,
    st_iter_data st = step ->
    trained_on (snd (train_loop config env n step st))
    = schedule step n (st_training_key st).
Proof.
  induction n as [|n IH]; intros step st Hit; [reflexivity|].
  rewrite train_loop_S. cbn [snd]. rewrite trained_on_app, trained_on_loop_body.
  destruct (loop_body_key env step st) as [Hk Hi].
  rewrite IH by (rewrite Hi, Hit; reflexivity).
  rewrite Hk, Hit. unfold schedule. cbn [seq map step_keys combine].
  destruct (split2 (st_training_key st)) as [my_key key']. reflexivity.
Qed.

Lemma length_step_keys (key : Key) (n : nat) : length (step_keys key n) = n.
Proof.
  revert key. induction n as [|n IH]; intros key; simpl; [reflexivity|].
  destruct (split2 key) as [my_key key']. simpl. now rewrite IH.
Qed.

Lemma length_schedule (start n : nat) (key : Key) : length (schedule start n key) = n.
Proof.
  unfold schedule.
  rewrite !length_combine, length_map, !length_seq, length_step_keys. lia.
Qed.

End ResumeFacts.

End TrainLmResumeFacts.

Section TrainLmResumeProperties.
Import TrainLm TrainLmReading TrainLmFacts TrainLmResumeFacts.

Context {W : World}.
Variable config : TrainLmConfig.

(** X12. A run without a checkpoint trains the steps [0 ..
    num_train_steps - 1], step [s] on batch [s] of the loader; a run
    resumed from a checkpoint of step [r] trains the steps [r + 1 ..
    num_train_steps - 1], again step [s] on batch [s]. In both, the key
    of a step is the first half of the split of the training key, and
    the second half is the training key of the next step. *)
Theorem main_schedule (env : Env) :
  trained_on (main config env (@None Checkpoint))
  = schedule 0 (num_train_steps config) (snd (fresh_start config))
  /\ forall model opt_state key step,
       trained_on (main config env (Some (model, opt_state, key, step)))
       = schedule (step + 1) (num_train_steps config - (step + 1)) key.
Proof.
  split.
  - unfold Checkpoint. rewrite main_fresh. cbv zeta.
    rewrite !trained_on_app.
    rewrite (trained_on_hook_events (run_hooks_hook_event _ _ _ _)).
    rewrite (trained_on_hook_events (on_step_hook_event _ _ _)).
    rewrite !app_nil_r.
    rewrite train_loop_schedule;
      destruct (fresh_start config) as [[m o] k]; reflexivity.
  - intros model opt_state key step. rewrite main_resumed. cbv zeta.
    rewrite !trained_on_app, trained_on_seeking.
    rewrite (trained_on_hook_events (run_hooks_hook_event _ _ _ _)).
    rewrite (trained_on_hook_events (on_step_hook_event _ _ _)).
    rewrite !app_nil_r. cbn [app].
    rewrite train_loop_schedule; reflexivity.
Qed.

(** X13. Take the [StepInfo] a run without a checkpoint hands to its
    hooks at step [k], not its last step, and start a run from the
    checkpoint that holds its model, optimizer state, key and step: the
    resumed run trains the remaining steps on the same batches with the
    same keys and reaches, step for step and at its end, the same model,
    optimizer state, key and loss as the uninterrupted run, whatever the
    measured durations and the checkpointer's cadence in either. *)
Theorem main_resume_continues (env env' : Env) (k : nat) (info : StepInfo) :
  (k + 1 < num_train_steps config)%nat ->
  nth_error (step_infos (main config env (@None Checkpoint))) k = Some info ->
  outcomes (main config env' (Some (checkpoint_of info)))
  = skipn (k + 1) (outcomes (main config env (@None Checkpoint)))
  /\ trained_on (main config env' (Some (checkpoint_of info)))
     = skipn (k + 1) (trained_on (main config env (@None Checkpoint))).
Proof.
  intros Hk Hinfo. unfold Checkpoint in *. rewrite main_fresh in *. cbv zeta in *.
  set (st0 := loop_entry (fresh_start config) 0) in *.
  assert (Hst0 : st_iter_data st0 = 0%nat).
  { unfold st0. destruct (fresh_start config) as [[m o] key]. reflexivity. }
  set (m := (num_train_steps config - (k + 1))%nat).
  assert (HN : num_train_steps config = (S k + m)%nat) by (unfold m; lia).
  rewrite HN in Hinfo |- *. rewrite train_loop_add in Hinfo |- *.
  cbn [fst snd] in Hinfo |- *.
  set (r1 := train_loop config env (S k) 0 st0) in *.
  set (st1 := fst r1) in *.
  set (r2 := train_loop config env m (0 + S k) st1) in *.
  assert (Hlast : info = info_of k st1).
  { rewrite !step_infos_app in Hinfo. rewrite <- !app_assoc in Hinfo.
    rewrite nth_error_app1 in Hinfo
      by (unfold r1; rewrite train_loop_step_infos; lia).
    unfold r1 in Hinfo. rewrite train_loop_last in Hinfo.
    injection Hinfo as <-. reflexivity. }
  subst info. unfold checkpoint_of, info_of. cbn [info_model info_opt_state info_key info_step].
  rewrite main_resumed. cbv zeta. fold m.
  replace (k + 1)%nat with (0 + S k)%nat by lia.
  rewrite <- !app_assoc.
  set (r2' := train_loop config env' m (0 + S k)
                (loop_entry (st_model st1, st_opt_state st1, st_training_key st1) (0 + S k))).
  destruct (@train_loop_same_start W config env' env m (0 + S k)
              (loop_entry (st_model st1, st_opt_state st1, st_training_key st1) (0 + S k))
              st1)
    as (Hout & Htr & (Hm & Ho & Hkey & _) & Hloss).
  { repeat split; try reflexivity. cbn [loop_entry st_iter_data].
    unfold st1, r1. rewrite train_loop_iter_data, Hst0. reflexivity. }
  fold r2' in Hout, Htr, Hm, Ho, Hkey, Hloss. fold r2 in Hout, Htr, Hm, Ho, Hkey, Hloss.
  specialize (Hloss ltac:(unfold m; lia)).
  assert (Hfinal : outcome_of (last_step config (fst r2'))
                   = outcome_of (last_step config (fst r2))).
  { unfold outcome_of, last_step. cbn. now rewrite Hm, Ho, Hkey, Hloss. }
  split.
  - rewrite !outcomes_app. unfold outcomes at 1.
    rewrite step_infos_seeking. cbn [map app].
    rewrite skipn_app.
    replace (0 + S k - length (outcomes (snd r1)))%nat with 0%nat
      by (unfold outcomes, r1; rewrite length_map, train_loop_step_infos; lia).
    rewrite skipn_all2
      by (unfold outcomes, r1; rewrite length_map, train_loop_step_infos; lia).
    cbn [skipn app]. rewrite Hout. f_equal.
    unfold outcomes. rewrite !step_infos_run_hooks, !step_infos_on_step.
    cbn [map app]. now rewrite Hfinal.
  - rewrite !trained_on_app, trained_on_seeking. cbn [app].
    rewrite !(trained_on_hook_events (run_hooks_hook_event _ _ _ _)).
    rewrite !(trained_on_hook_events (on_step_hook_event _ _ _)).
    rewrite !app_nil_r.
    rewrite skipn_app.
    assert (Hlen : length (trained_on (snd r1)) = S k).
    { unfold r1. rewrite train_loop_schedule by exact Hst0. apply length_schedule. }
    rewrite Hlen. replace (0 + S k - S k)%nat with 0%nat by lia.
    rewrite skipn_all2 by lia. cbn [skipn app]. exact Htr.
Qed.

End TrainLmResumeProperties.

Section TrainLmResumeExamples.
Import TrainLm TrainLmReading.

(** Four steps; the second run resumes from step 1 under other
    durations and another cadence of the checkpointer. *)
Lemma main_resume_continues_toy :
  exists info,
    (1 + 1 < num_train_steps (toy_config 4))%nat
    /\ nth_error (step_infos (main (toy_config 4) toy_env None)) 1 = Some info
    /\ outcomes (main (toy_config 4) slow_env (Some (checkpoint_of info)))
       = skipn (1 + 1) (outcomes (main (toy_config 4) toy_env None))
    /\ trained_on (main (toy_config 4) slow_env (Some (checkpoint_of info)))
       = skipn (1 + 1) (trained_on (main (toy_config 4) toy_env None)).
Proof.
  destruct (nth_error (step_infos (main (toy_config 4) toy_env None)) 1)
    as [info|] eqn:E; [|vm_compute in E; discriminate].
  exists info.
  assert (Hk : (1 + 1 < num_train_steps (toy_config 4))%nat) by (simpl; lia).
  split; [exact Hk|]. split; [reflexivity|].
  exact (@main_resume_continues toy_world (toy_config 4) toy_env slow_env 1 info Hk E).
Defined.

End TrainLmResumeExamples.

(* ===================================================================== *)
(** ** The two phases: batches, outcomes, and the runs without a second
       phase *)
(* ===================================================================== *)

Module InstructionTuneMoreFacts.
Import InstructionTune InstructionTuneReading InstructionTuneFacts.

Section LoopFacts.

Context {W : World}.
Variable config : InstructionTuneConfig.
Variable durations : Z -> Q.
Variables ul2r_key itune_key : Key.

Lemma take_examples_some (n : nat) (it : list Example) batch rest :
  take_examples n it = Some (batch, rest) ->
  batch = map convert_to_decoder_only (firstn n it) /\ rest = skipn n it.
Proof.
  intros H. destruct (Nat.le_gt_cases n (length it)) as [L|G].
  - rewrite (take_examples_enough it L) in H. injection H as <- <-. split; reflexivity.
  - rewrite (take_examples_short it G) in H. discriminate.
Qed.

Lemma train_on_state phase step batch iter_data st :
  st_iter_data (fst (train_on config durations phase step batch iter_data st)) = iter_data
  /\ st_last (fst (train_on config durations phase step batch iter_data st)) <> None.
Proof.
  unfold train_on. destruct (split2 (st_training_key st)) as [my_key key'].
  destruct (train_step (st_model st) (st_opt_state st) batch
              (global_key_array my_key (train_batch_size config))) as [[l m] o].
  split; [reflexivity | discriminate].
Qed.

Lemma train_on_batches phase step batch iter_data st :
  base_batches (snd (train_on config durations phase step batch iter_data st)) = []
  /\ itune_batches (snd (train_on config durations phase step batch iter_data st)) = [].
Proof.
  destruct (train_on_spec config durations phase step batch iter_data st)
    as (l & t & info & _ & -> & _).
  split; reflexivity.
Qed.

Lemma base_batches_app (a b : list Event) :
  base_batches (a ++ b) = base_batches a ++ base_batches b.
Proof. apply flat_map_app. Qed.

Lemma itune_batches_app (a b : list Event) :
  itune_batches (a ++ b) = itune_batches a ++ itune_batches b.
Proof. apply flat_map_app. Qed.

Lemma save_checkpoint_batches st tag :
  base_batches (fst (save_checkpoint st tag)) = []
  /\ itune_batches (fst (save_checkpoint st tag)) = [].
Proof.
  unfold save_checkpoint. destruct (st_last st) as [[[s l] t]|]; split; reflexivity.
Qed.

(** The first phase takes the next batches of [iter_data], one per
    step. *)
Lemma ul2r_loop_batches (n : nat) :
  forall step st,
    base_batches (snd (ul2r_loop config durations ul2r_key n step st))
    = map (base_dataset ul2r_key) (seq (st_iter_data st) n)
    /\ itune_batches (snd (ul2r_loop config durations ul2r_key n step st)) = []
    /\ st_iter_data (fst (ul2r_loop config durations ul2r_key n step st))
       = (st_iter_data st + n)%nat.
Proof.
  induction n as [|n IH]; intros step st.
  - simpl. repeat split; try reflexivity. lia.
  - cbn [ul2r_loop].
    destruct (train_on_state 1 step (base_dataset ul2r_key (st_iter_data st))
                (S (st_iter_data st)) st) as [Hi _].
    destruct (train_on_batches 1 step (base_dataset ul2r_key (st_iter_data st))
                (S (st_iter_data st)) st) as [Hb Ht].
    destruct (train_on config durations 1 step _ _ st) as [st' evs]. cbn [fst snd] in *.
    specialize (IH (step + 1)%Z st').
    destruct (ul2r_loop config durations ul2r_key n (step + 1)%Z st') as [st'' evs'].
    cbn [fst snd] in *. destruct IH as (IHb & IHt & IHi). rewrite Hi in *.
    split; [|split].
    + change (ev_next_batch step from_iter_data (base_dataset ul2r_key (st_iter_data st))
              :: evs ++ evs')
        with ([ev_next_batch step from_iter_data (base_dataset ul2r_key (st_iter_data st))]
              ++ evs ++ evs').
      rewrite !base_batches_app, Hb, IHb. reflexivity.
    + change (ev_next_batch step from_iter_data (base_dataset ul2r_key (st_iter_data st))
              :: evs ++ evs')
        with ([ev_next_batch step from_iter_data (base_dataset ul2r_key (st_iter_data st))]
              ++ evs ++ evs').
      rewrite !itune_batches_app, Ht, IHt. reflexivity.
    + rewrite IHi. lia.
Qed.

(** The second phase, however it ends: the batches taken from
    [iter_data] are its next ones, and the batches built from the
    instruction dataset are its examples in order, a batch size at a
    time. *)
Lemma itune_loop_batches (n : nat) :
  forall step st sampler st' events result,
    itune_loop config durations ul2r_key itune_key n step st sampler
    = (st', events, result) ->
    base_batches events
    = map (base_dataset ul2r_key) (seq (st_iter_data st) (length (base_batches events)))
    /\ itune_batches events
       = map (fun chunk => shard_batch (map convert_to_decoder_only chunk))
             (ModelingUtils.reshape (length (itune_batches events))
                (train_batch_size config) (iter_itune sampler)).
Proof.
  induction n as [|n IH]; intros step st sampler st' events result Hloop.
  - simpl in Hloop. injection Hloop as <- <- <-. split; reflexivity.
  - cbn [itune_loop] in Hloop. unfold batch_sampler_next in Hloop.
    destruct (Qltb (uniform itune_key (sampler_draws sampler)) (instruction_weight config)).
    + destruct (take_examples (train_batch_size config) (iter_itune sampler))
        as [[batch rest]|] eqn:Etake.
      * destruct (take_examples_some _ _ Etake) as [-> ->].
        destruct (train_on_state 2 step
                    (shard_batch (map convert_to_decoder_only
                                    (firstn (train_batch_size config) (iter_itune sampler))))
                    (st_iter_data st) st) as [Hi _].
        destruct (train_on_batches 2 step
                    (shard_batch (map convert_to_decoder_only
                                    (firstn (train_batch_size config) (iter_itune sampler))))
                    (st_iter_data st) st) as [Hb Ht].
        destruct (train_on config durations 2 step _ _ st) as [st1 evs].
        cbn [fst snd] in *.
        destruct (itune_loop config durations ul2r_key itune_key n (step + 1)%Z st1 _)
          as [[st2 evs2] result2] eqn:Erest.
        injection Hloop as <- <- <-.
        destruct (IH _ _ _ _ _ _ Erest) as [IHb IHt].
        cbn [iter_itune] in IHt. rewrite Hi in IHb.
        change (ev_next_batch step from_itune_dataset ?b :: evs ++ evs2)
          with ([ev_next_batch step from_itune_dataset b] ++ evs ++ evs2).
        rewrite !base_batches_app, !itune_batches_app, Hb, Ht.
        cbn [base_batches itune_batches flat_map app length].
        split; [exact IHb|].
        cbn [ModelingUtils.reshape map]. f_equal. exact IHt.
      * injection Hloop as <- <- <-. split; reflexivity.
    + destruct (train_on_state 2 step (base_dataset ul2r_key (st_iter_data st))
                  (S (st_iter_data st)) st) as [Hi _].
      destruct (train_on_batches 2 step (base_dataset ul2r_key (st_iter_data st))
                  (S (st_iter_data st)) st) as [Hb Ht].
      destruct (train_on config durations 2 step _ _ st) as [st1 evs].
      cbn [fst snd] in *.
      destruct (itune_loop config durations ul2r_key itune_key n (step + 1)%Z st1 _)
        as [[st2 evs2] result2] eqn:Erest.
      injection Hloop as <- <- <-.
      destruct (IH _ _ _ _ _ _ Erest) as [IHb IHt].
      cbn [iter_itune] in IHt. rewrite Hi in IHb.
      change (ev_next_batch step from_iter_data ?b :: evs ++ evs2)
        with ([ev_next_batch step from_iter_data b] ++ evs ++ evs2).
      rewrite !base_batches_app, !itune_batches_app, Hb, Ht.
      cbn [base_batches itune_batches flat_map app length].
      split; [|exact IHt].
      cbn [seq map]. f_equal. exact IHb.
Qed.

End LoopFacts.

End InstructionTuneMoreFacts.

Module InstructionTuneRunFacts.
Import InstructionTune InstructionTuneReading InstructionTuneFacts InstructionTuneMoreFacts.

Section RunFacts.

Context {W : World}.
Variable config : InstructionTuneConfig.
Variable durations : Z -> Q.

(** [main], part by part. *)
Lemma main_parts :
  main config durations
  = match snd (saved1 config durations) with
    | Ok _ =>
        match snd (phase2 config durations) with
        | Ok _ =>
            (snd (phase1 config durations) ++ fst (saved1 config durations)
             ++ snd (fst (phase2 config durations))
             ++ fst (save_checkpoint (fst (fst (phase2 config durations)))
                       "instruction_tuned"%string),
             snd (save_checkpoint (fst (fst (phase2 config durations)))
                    "instruction_tuned"%string))
        | Raise e =>
            (snd (phase1 config durations) ++ fst (saved1 config durations)
             ++ snd (fst (phase2 config durations)), Raise e)
        | NotANumber =>
            (snd (phase1 config durations) ++ fst (saved1 config durations)
             ++ snd (fst (phase2 config durations)), NotANumber)
        end
    | Raise e =>
        (snd (phase1 config durations) ++ fst (saved1 config durations), Raise e)
    | NotANumber =>
        (snd (phase1 config durations) ++ fst (saved1 config durations), NotANumber)
    end.
Proof.
  unfold main, phase2, saved1, phase1, first_state, ul2r_key, itune_key, ul2r_steps.
  destruct (split3 (PRNGKey (seed config))) as [[k1 k2] k3]. cbn [fst snd].
  destruct (ul2r_loop config durations k1 _ 0%Z _) as [st1 events1]. cbn [fst snd].
  destruct (if (0 <? _)%Z then _ else _) as [s1 [u|e|]]; cbn [fst snd]; try reflexivity.
  destruct (itune_loop config durations k1 k2 _ _ st1 _) as [[st2 events2] [u2|e|]];
    cbn [fst snd]; try reflexivity.
  destruct (save_checkpoint st2 "instruction_tuned"%string). reflexivity.
Qed.

(** The first loop leaves [step] bound exactly when it has run. *)
Lemma phase1_last :
  match Z.to_nat (ul2r_steps config) with
  | O => phase1 config durations = (first_state config, [])
  | S n' => exists l t,
      st_last (fst (phase1 config durations)) = Some (Z.of_nat n', l, t)
  end.
Proof.
  unfold phase1.
  destruct (ul2r_loop_spec config durations (ul2r_key config)
              (Z.to_nat (ul2r_steps config)) 0%Z (first_state config)) as (_ & _ & _ & H).
  destruct (Z.to_nat (ul2r_steps config)) as [|n']; [reflexivity|].
  destruct H as (l & t & H). exists l, t. rewrite H. reflexivity.
Qed.

(** The checkpoint after the first phase is saved when the phase has a
    step, and never fails. *)
Lemma saved1_spec :
  exists saved,
    saved1 config durations = (saved, Ok tt)
    /\ milestones saved
       = (if (0 <? ul2r_steps config)%Z
          then [inr ("ul2r_finished"%string, (ul2r_steps config - 1)%Z)] else [])
    /\ sources saved = []
    /\ saved_tags saved
       = (if (0 <? ul2r_steps config)%Z then ["ul2r_finished"%string] else [])
    /\ base_batches saved = [] /\ itune_batches saved = [].
Proof.
  unfold saved1. pose proof phase1_last as H.
  destruct (0 <? ul2r_steps config)%Z eqn:Epos.
  - apply Z.ltb_lt in Epos.
    destruct (Z.to_nat (ul2r_steps config)) as [|n'] eqn:En; [lia|].
    destruct H as (l & t & H). unfold save_checkpoint. rewrite H.
    eexists. split; [reflexivity|]. cbn.
    split; [|repeat split; reflexivity].
    repeat f_equal. lia.
  - exists []. repeat split; reflexivity.
Qed.

(** The second loop ends well or on the [RuntimeError] of the sampler;
    it saves nothing; when it ends well after a step, [step] is bound to
    its last step, and without a step it changes nothing. *)
Lemma itune_loop_result ul2r_key itune_key (n : nat) :
  forall step st sampler st' events result,
    itune_loop config durations ul2r_key itune_key n step st sampler
    = (st', events, result) ->
    (result = Ok tt \/ result = Raise RuntimeError)
    /\ saved_tags events = []
    /\ (result = Ok tt ->
        match n with
        | O => st' = st /\ events = []
        | S n' => exists l t, st_last st' = Some ((step + Z.of_nat n')%Z, l, t)
        end).
Proof.
  induction n as [|n IH]; intros step st sampler st' events result Hloop.
  - simpl in Hloop. injection Hloop as <- <- <-.
    split; [left; reflexivity|]. split; [reflexivity|]. intros _. split; reflexivity.
  - cbn [itune_loop] in Hloop.
    destruct (batch_sampler_next config ul2r_key itune_key (st_iter_data st) sampler)
      as [[[[batch source] iter_data] sampler']|e|] eqn:Enext.
    + destruct (train_on_spec config durations 2 step batch iter_data st)
        as (l & t & info & Hlast & Hev & _).
      destruct (train_on config durations 2 step batch iter_data st) as [st1 evs].
      cbn [fst snd] in *.
      destruct (itune_loop config durations ul2r_key itune_key n (step + 1)%Z st1 sampler')
        as [[st2 evs2] result2] eqn:Erest.
      injection Hloop as <- <- <-.
      destruct (IH _ _ _ _ _ _ Erest) as (Hres & Htags & Hok).
      split; [exact Hres|]. split.
      * subst evs. cbn. exact Htags.
      * intros Hr. specialize (Hok Hr). destruct n as [|n'].
        -- destruct Hok as [-> _]. exists l, t. rewrite Hlast.
           do 3 f_equal. lia.
        -- destruct Hok as (l' & t' & Hok). exists l', t'. rewrite Hok.
           do 3 f_equal. lia.
    + unfold batch_sampler_next in Enext.
      destruct (Qltb _ _); [|discriminate].
      destruct (take_examples _ _) as [[b r]|]; [discriminate|].
      injection Enext as <-. injection Hloop as <- <- <-.
      split; [right; reflexivity|]. split; [reflexivity|]. discriminate.
    + unfold batch_sampler_next in Enext.
      destruct (Qltb _ _); [|discriminate].
      destruct (take_examples _ _) as [[b r]|]; discriminate.
Qed.

End RunFacts.

End InstructionTuneRunFacts.

Section InstructionTuneRunProperties.
Import InstructionTune InstructionTuneReading InstructionTuneFacts.
Import InstructionTuneMoreFacts InstructionTuneRunFacts.

Context {W : World}.
Variable config : InstructionTuneConfig.
Variable durations : Z -> Q.

(** X14. However a run ends, the batches it took from [iter_data], in
    both phases together, are the first batches of that stream in order,
    none skipped and none taken twice; and the batches its sampler built
    are the examples of the instruction dataset in order, a batch size
    at a time, each converted and sharded. *)
Theorem main_batches_in_order :
  base_batches (fst (main config durations))
  = map (base_dataset (ul2r_key config))
        (seq 0 (length (base_batches (fst (main config durations)))))
  /\ itune_batches (fst (main config durations))
     = map (fun chunk => shard_batch (map convert_to_decoder_only chunk))
           (ModelingUtils.reshape (length (itune_batches (fst (main config durations))))
              (train_batch_size config) itune_dataset).
Proof.
  destruct (saved1_spec config durations) as (saved & Es & _ & _ & _ & Hsb & Hst).
  destruct (ul2r_loop_batches config durations (ul2r_key config)
              (Z.to_nat (ul2r_steps config)) 0%Z (first_state config))
    as (Hb1 & Ht1 & Hi1).
  fold (phase1 config durations) in Hb1, Ht1, Hi1.
  destruct (phase2 config durations) as [[st2 ev2] res2] eqn:E2.
  destruct (itune_loop_batches config durations (ul2r_key config) (itune_key config) _ _ _ _ E2)
    as [Hb2 Ht2].
  cbn [iter_itune] in Ht2. rewrite Hi1 in Hb2. cbn [first_state st_iter_data Nat.add] in Hb1, Hb2.
  assert (Hall : forall tail,
             base_batches tail = [] -> itune_batches tail = [] ->
             base_batches (snd (phase1 config durations) ++ saved ++ ev2 ++ tail)
             = map (base_dataset (ul2r_key config))
                   (seq 0 (length (base_batches
                              (snd (phase1 config durations) ++ saved ++ ev2 ++ tail))))
             /\ itune_batches (snd (phase1 config durations) ++ saved ++ ev2 ++ tail)
                = map (fun chunk => shard_batch (map convert_to_decoder_only chunk))
                      (ModelingUtils.reshape
                         (length (itune_batches
                                    (snd (phase1 config durations) ++ saved ++ ev2 ++ tail)))
                         (train_batch_size config) itune_dataset)).
  { intros tail Hb Ht.
    rewrite !base_batches_app, !itune_batches_app, Hb, Ht, Hsb, Hst, Ht1, !app_nil_r.
    cbn [app]. split; [|exact Ht2].
    assert (Hl1 : length (base_batches (snd (phase1 config durations)))
                  = Z.to_nat (ul2r_steps config))
      by (rewrite Hb1, length_map, length_seq; reflexivity).
    rewrite length_app, seq_app, map_app, Hl1. cbn [Nat.add].
    rewrite <- Hb1, <- Hb2. reflexivity. }
  rewrite main_parts, Es, E2. cbn [fst snd].
  destruct res2 as [u|e|]; cbn [fst snd].
  - apply Hall; apply save_checkpoint_batches.
  - rewrite <- (app_nil_r ev2). apply Hall; reflexivity.
  - rewrite <- (app_nil_r ev2). apply Hall; reflexivity.
Qed.

(** X15. [main] ends in a [NameError] exactly when neither loop has a
    step to run ([num_train_steps] of zero, say): the closing
    [save_checkpoint] then reads [step], which no loop has bound, and
    nothing has been trained, logged or saved. *)
Theorem main_NameError_iff :
  (snd (main config durations) = Raise NameError
   <-> (ul2r_steps config <= 0 /\ num_train_steps config <= ul2r_steps config)%Z)
  /\ (snd (main config durations) = Raise NameError -> fst (main config durations) = []).
Proof.
  destruct (saved1_spec config durations) as (saved & Es & _ & _ & _ & _ & _).
  pose proof (phase1_last config durations) as H1.
  destruct (phase2 config durations) as [[st2 ev2] res2] eqn:E2.
  pose proof E2 as E2'. unfold phase2 in E2'.
  destruct (itune_loop_result config durations _ _ _ _ _ _ E2') as (Hres & _ & Hok).
  (* with no step to run, the second loop returns at once *)
  assert (Hnostep : (ul2r_steps config <= 0
                     /\ num_train_steps config <= ul2r_steps config)%Z ->
                    res2 = Ok tt /\ st_last st2 = None).
  { intros [Hu Hn].
    assert (En1 : Z.to_nat (ul2r_steps config) = 0%nat) by lia.
    assert (En2 : Z.to_nat (num_train_steps config - ul2r_steps config) = 0%nat) by lia.
    rewrite En1 in H1. rewrite En2, H1 in E2'. cbn in E2'.
    injection E2' as <- <- <-. split; reflexivity. }
  (* and [step] is unbound at the end only then *)
  assert (Hunbound : res2 = Ok tt -> st_last st2 = None ->
                     (ul2r_steps config <= 0
                      /\ num_train_steps config <= ul2r_steps config)%Z
                     /\ snd (phase1 config durations) = [] /\ saved = [] /\ ev2 = []).
  { intros Hr El. specialize (Hok Hr).
    destruct (Z.to_nat (num_train_steps config - ul2r_steps config)) as [|n2] eqn:En2;
      [|destruct Hok as (l & t & Hok); congruence].
    destruct Hok as [-> ->].
    destruct (Z.to_nat (ul2r_steps config)) as [|n1] eqn:En1;
      [|destruct H1 as (l & t & H1); congruence].
    rewrite H1. cbn [snd]. unfold saved1 in Es.
    replace (0 <? ul2r_steps config)%Z with false in Es
      by (symmetry; apply Z.ltb_ge; lia).
    injection Es as <-. repeat split; try reflexivity; lia. }
  rewrite main_parts, Es, E2. cbn [fst snd].
  destruct Hres as [-> | ->]; cbn [fst snd].
  - unfold save_checkpoint.
    destruct (st_last st2) as [[[s l] t]|] eqn:El; cbn [fst snd].
    + split; [split; [discriminate|]|discriminate].
      intros Hc. destruct (Hnostep Hc) as [_ C]. discriminate.
    + destruct (Hunbound eq_refl eq_refl) as (Hc & Hp & -> & ->). rewrite Hp.
      split; [split; [intros _; exact Hc | reflexivity] | reflexivity].
  - split; [split; [discriminate|]|discriminate].
    intros Hc. destruct (Hnostep Hc) as [C _]. discriminate.
Qed.

(** X16. When the first phase takes all the training steps or more (a
    fraction of 1 or above), it runs its [int(num_train_steps *
    ul2r_phase_fraction)] steps, which can be more than
    [num_train_steps]; no step of the second phase runs, and the run
    ends well with both checkpoints, "ul2r_finished" and
    "instruction_tuned", saved from the last step of the first phase. *)
Theorem main_first_phase_only :
  (0 < ul2r_steps config)%Z ->
  (num_train_steps config <= ul2r_steps config)%Z ->
  snd (main config durations) = Ok tt
  /\ milestones (fst (main config durations))
     = map (fun s => inl (1%nat, s)) (py_range 0 (Z.to_nat (ul2r_steps config)))
       ++ [inr ("ul2r_finished"%string, (ul2r_steps config - 1)%Z);
           inr ("instruction_tuned"%string, (ul2r_steps config - 1)%Z)]
  /\ sources (fst (main config durations))
     = map (fun s => (s, from_iter_data)) (py_range 0 (Z.to_nat (ul2r_steps config))).
Proof.
  intros Hpos Hall.
  destruct (saved1_spec config durations) as (saved & Es & Hms & Hss & _).
  replace (0 <? ul2r_steps config)%Z with true in Hms by (symmetry; apply Z.ltb_lt; lia).
  pose proof (phase1_last config durations) as H1.
  destruct (ul2r_loop_spec config durations (ul2r_key config)
              (Z.to_nat (ul2r_steps config)) 0%Z (first_state config))
    as (Hm1 & Hs1 & _ & _).
  fold (phase1 config durations) in Hm1, Hs1.
  assert (E2 : phase2 config durations = (fst (phase1 config durations), [], Ok tt)).
  { unfold phase2.
    replace (Z.to_nat (num_train_steps config - ul2r_steps config)) with 0%nat by lia.
    reflexivity. }
  rewrite main_parts, Es, E2. cbn [fst snd].
  destruct (Z.to_nat (ul2r_steps config)) as [|n1] eqn:En1; [lia|].
  destruct H1 as (l & t & H1). unfold save_checkpoint. rewrite H1. cbn [fst snd].
  split; [reflexivity|]. split.
  - unfold milestones in *. rewrite !flat_map_app, Hm1, Hms. cbn [flat_map app info_step].
    replace (Z.of_nat n1) with (ul2r_steps config - 1)%Z by lia. reflexivity.
  - unfold sources in *. rewrite !flat_map_app, Hs1, Hss. cbn [flat_map app].
    now rewrite app_nil_r.
Qed.

(** X17. A run ends well or in one of two exceptions, the
    [RuntimeError] of the sampler or the [NameError] of the closing
    save; and the checkpoint "instruction_tuned" is saved exactly by the
    runs that end well. *)
Theorem main_final_checkpoint_iff :
  (snd (main config durations) = Ok tt
   \/ snd (main config durations) = Raise RuntimeError
   \/ snd (main config durations) = Raise NameError)
  /\ (In "instruction_tuned"%string (saved_tags (fst (main config durations)))
      <-> snd (main config durations) = Ok tt).
Proof.
  destruct (saved1_spec config durations) as (saved & Es & _ & _ & Hts & _).
  destruct (ul2r_loop_spec config durations (ul2r_key config)
              (Z.to_nat (ul2r_steps config)) 0%Z (first_state config))
    as (_ & _ & Ht1 & _).
  fold (phase1 config durations) in Ht1.
  destruct (phase2 config durations) as [[st2 ev2] res2] eqn:E2.
  pose proof E2 as E2'. unfold phase2 in E2'.
  destruct (itune_loop_result config durations _ _ _ _ _ _ E2') as (Hres & Ht2 & _).
  assert (Hnot : ~ In "instruction_tuned"%string (saved_tags saved)).
  { rewrite Hts. destruct (0 <? ul2r_steps config)%Z; simpl;
      [intros [C|[]]; discriminate | tauto]. }
  assert (Happ : forall a b : list Event,
             saved_tags (a ++ b) = saved_tags a ++ saved_tags b)
    by (intros; apply flat_map_app).
  rewrite main_parts, Es, E2. cbn [fst snd].
  destruct Hres as [-> | ->]; cbn [fst snd].
  - unfold save_checkpoint. destruct (st_last st2) as [[[s l] t]|]; cbn [fst snd].
    + split; [left; reflexivity|]. split; [reflexivity|]. intros _.
      rewrite !Happ. do 3 (apply in_or_app; right). left. reflexivity.
    + split; [right; right; reflexivity|]. split; [|discriminate].
      rewrite !Happ, Ht1, Ht2. cbn [app]. rewrite app_nil_r.
      intros Hin. exfalso. exact (Hnot Hin).
  - split; [right; left; reflexivity|]. split; [|discriminate].
    rewrite !Happ, Ht1, Ht2. cbn [app]. rewrite app_nil_r.
    intros Hin. exfalso. exact (Hnot Hin).
Qed.

(** X18. When the second phase has a step to run, its first draw falls
    below the instruction weight and the instruction dataset holds fewer
    examples than a batch, the run ends in the [RuntimeError] of the
    sampler at the first step of the second phase: it has done the first
    phase and saved its checkpoint, and nothing after. *)
Theorem main_dataset_runs_out :
  (ul2r_steps config < num_train_steps config)%Z ->
  uniform (itune_key config) 0 < instruction_weight config ->
  (length itune_dataset < train_batch_size config)%nat ->
  snd (main config durations) = Raise RuntimeError
  /\ fst (main config durations)
     = snd (phase1 config durations) ++ fst (saved1 config durations)
  /\ sources (fst (main config durations))
     = map (fun s => (s, from_iter_data)) (py_range 0 (Z.to_nat (ul2r_steps config))).
Proof.
  intros Hlt Hdraw Hshort.
  destruct (saved1_spec config durations) as (saved & Es & _ & Hss & _).
  destruct (ul2r_loop_spec config durations (ul2r_key config)
              (Z.to_nat (ul2r_steps config)) 0%Z (first_state config))
    as (_ & Hs1 & _ & _).
  fold (phase1 config durations) in Hs1.
  assert (E2 : phase2 config durations
               = (fst (phase1 config durations), [], Raise RuntimeError)).
  { unfold phase2.
    destruct (Z.to_nat (num_train_steps config - ul2r_steps config)) as [|n2] eqn:En2;
      [lia|].
    cbn [itune_loop]. unfold batch_sampler_next. cbn [sampler_draws iter_itune].
    apply Qltb_lt in Hdraw. rewrite Hdraw.
    rewrite (take_examples_short itune_dataset Hshort). reflexivity. }
  rewrite main_parts, Es, E2. cbn [fst snd]. rewrite app_nil_r.
  split; [reflexivity|]. split; [reflexivity|].
  unfold sources in *. rewrite flat_map_app, Hs1, Hss. now rewrite app_nil_r.
Qed.

End InstructionTuneRunProperties.

Section InstructionTuneRunExamples.
Import InstructionTune InstructionTuneReading.

Lemma main_first_phase_only_overlong :
  (0 < ul2r_steps overlong_config)%Z
  /\ (num_train_steps overlong_config <= ul2r_steps overlong_config)%Z
  /\ snd (@main toy_tuner overlong_config (fun _ => 0)) = Ok tt
  /\ milestones (fst (@main toy_tuner overlong_config (fun _ => 0)))
     = [inl (1%nat, 0%Z); inl (1%nat, 1%Z); inl (1%nat, 2%Z);
        inl (1%nat, 3%Z); inl (1%nat, 4%Z); inl (1%nat, 5%Z);
        inr ("ul2r_finished"%string, 5%Z); inr ("instruction_tuned"%string, 5%Z)].
Proof.
  assert (H1 : (0 < ul2r_steps overlong_config)%Z) by (vm_compute; reflexivity).
  assert (H2 : (num_train_steps overlong_config <= ul2r_steps overlong_config)%Z)
    by (vm_compute; discriminate).
  split; [exact H1|]. split; [exact H2|].
  destruct (@main_first_phase_only toy_tuner overlong_config (fun _ => 0) H1 H2)
    as (Hok & Hm & _).
  split; [exact Hok | exact Hm].
Defined.

Lemma main_dataset_runs_out_starved :
  (ul2r_steps starved_config < num_train_steps starved_config)%Z
  /\ @uniform toy_tuner (@itune_key toy_tuner starved_config) 0
     < instruction_weight starved_config
  /\ (length (@itune_dataset toy_tuner) < train_batch_size starved_config)%nat
  /\ snd (@main toy_tuner starved_config (fun _ => 0)) = Raise RuntimeError.
Proof.
  assert (H1 : (ul2r_steps starved_config < num_train_steps starved_config)%Z)
    by (vm_compute; reflexivity).
  assert (H2 : @uniform toy_tuner (@itune_key toy_tuner starved_config) 0
               < instruction_weight starved_config)
    by (vm_compute; reflexivity).
  assert (H3 : (length (@itune_dataset toy_tuner) < train_batch_size starved_config)%nat)
    by (simpl; lia).
  split; [exact H1|]. split; [exact H2|]. split; [exact H3|].
  exact (proj1 (@main_dataset_runs_out toy_tuner starved_config (fun _ => 0) H1 H2 H3)).
Defined.

End InstructionTuneRunExamples.

(* ===================================================================== *)
(** ** The accumulator and the order of the batch *)
(* ===================================================================== *)

Module AccumulatorOrderFacts.
Import ModelingUtils ModelingUtilsFacts.

Lemma Qsum_Permutation (xs ys : list Q) : Permutation xs ys -> Qsum xs == Qsum ys.
Proof.
  induction 1 as [|x xs ys _ IH|x y xs|xs ys zs _ IH1 _ IH2]; simpl.
  - reflexivity.
  - rewrite IH. reflexivity.
  - ring.
  - rewrite IH1. exact IH2.
Qed.

Lemma Forall2_Qeq_map {A} (g h : A -> Q) (l : list A) :
  (forall a, g a == h a) -> Forall2 Qeq (map g l) (map h l).
Proof. intros H. induction l; simpl; constructor; auto. Qed.

(** The full-batch mean does not see the order of the examples. *)
Lemma full_batch_mean_Permutation {X} (f : PyTree -> X -> Q * PyTree) (model : PyTree)
    (xs ys : list X) :
  Permutation xs ys ->
  mean_equiv (full_batch_mean f model xs) (full_batch_mean f model ys).
Proof.
  intros HP. unfold mean_equiv, full_batch_mean. cbn [fst snd].
  rewrite (Permutation_length HP). split.
  - apply Qdiv_comp; [|reflexivity].
    apply Qsum_Permutation. unfold example_losses. apply Permutation_map. exact HP.
  - apply Forall2_Qeq_map. intros k.
    apply Qdiv_comp; [|reflexivity].
    apply Qsum_Permutation. unfold example_leaf. apply Permutation_map. exact HP.
Qed.

End AccumulatorOrderFacts.

Section AccumulatorOrderProperties.
Import ModelingUtils ModelingUtilsFacts AccumulatorOrderFacts.

Variable X : Type.
Variable f : PyTree -> X -> Q * PyTree.
Variable model : PyTree.

(** X20. In exact arithmetic the loss and the gradient
    [accumulate_gradients_sharded] returns do not depend on the order of
    the examples in the batch: a batch and any rearrangement of it give
    the same result, whichever microbatch an example falls in. *)
Theorem accumulate_gradients_sharded_permutation
    (inputs inputs' : list X) (data_axis_size per_device_parallelism : nat) :
  (forall x, length (snd (f model x)) = length model) ->
  (0 < data_axis_size * per_device_parallelism)%nat ->
  inputs <> [] ->
  Nat.divide (data_axis_size * per_device_parallelism) (length inputs) ->
  Permutation inputs inputs' ->
  exists r r',
    accumulate_gradients_sharded f model inputs data_axis_size per_device_parallelism
    = (inputs, Ok r)
    /\ accumulate_gradients_sharded f model inputs' data_axis_size per_device_parallelism
       = (inputs', Ok r')
    /\ mean_equiv r r'.
Proof.
  intros Hf Hmb Hne Hdiv HP.
  destruct (@sharded_full_batch X f model Hf inputs data_axis_size per_device_parallelism
              Hmb Hne Hdiv) as (r & Hr & Heq).
  destruct (@sharded_full_batch X f model Hf inputs' data_axis_size per_device_parallelism
              Hmb) as (r' & Hr' & Heq').
  { intros ->. apply Permutation_sym, Permutation_nil in HP. contradiction. }
  { rewrite <- (Permutation_length HP). exact Hdiv. }
  exists r, r'. split; [exact Hr|]. split; [exact Hr'|].
  apply (mean_equiv_trans Heq).
  apply (mean_equiv_trans (full_batch_mean_Permutation f model HP)).
  apply mean_equiv_sym. exact Heq'.
Qed.

End AccumulatorOrderProperties.

Lemma accumulate_gradients_sharded_permutation_scenario :
  exists r r',
    ModelingUtils.accumulate_gradients_sharded ModelingUtils.scenario_f
      ModelingUtils.scenario_model ModelingUtils.scenario_batch 2 2
    = (ModelingUtils.scenario_batch, Ok r)
    /\ ModelingUtils.accumulate_gradients_sharded ModelingUtils.scenario_f
         ModelingUtils.scenario_model (rev ModelingUtils.scenario_batch) 2 2
       = (rev ModelingUtils.scenario_batch, Ok r')
    /\ ModelingUtils.mean_equiv r r'.
Proof.
  apply (@accumulate_gradients_sharded_permutation Q ModelingUtils.scenario_f
           ModelingUtils.scenario_model ModelingUtils.scenario_batch
           (rev ModelingUtils.scenario_batch) 2 2).
  - intros x. reflexivity.
  - simpl. lia.
  - discriminate.
  - exists 2%nat. reflexivity.
  - apply Permutation_rev.
Defined.

(* ===================================================================== *)
(** ** The training loop: the closing [StepInfo] and a run started from it *)
(* ===================================================================== *)

Module TrainLmEndFacts.
Import TrainLm TrainLmReading TrainLmFacts TrainLmResumeFacts.

Section EndFacts.

Context {W : World}.
Variable config : TrainLmConfig.

(** A run without a checkpoint hands the hooks the [StepInfo] of each
    step, then the closing one. *)
Lemma step_infos_main_fresh env :
  step_infos (main config env (@None (Model Params * OptState * Key * nat)))
  = step_infos (snd (train_loop config env (num_train_steps config) 0
                       (loop_entry (fresh_start config) 0)))
    ++ [last_step config
          (fst (train_loop config env (num_train_steps config) 0
                  (loop_entry (fresh_start config) 0)))].
Proof.
  rewrite main_fresh. cbv zeta.
  rewrite !step_infos_app, step_infos_run_hooks, step_infos_on_step.
  reflexivity.
Qed.

Lemma seeks_app (a b : list Event) : seeks (a ++ b) = seeks a ++ seeks b.
Proof. apply flat_map_app. Qed.

Lemma seeks_main_resumed env model opt_state key step :
  seeks (main config env (Some (model, opt_state, key, step)))
  = map train_loader (seq 0 (step + 1)).
Proof.
  rewrite main_resumed. cbv zeta.
  rewrite !seeks_app, seeks_seek_events.
  rewrite (proj1 (train_loop_hooks_only config env _ _ _)).
  rewrite (seeks_hook_events (run_hooks_hook_event _ _ _ _)).
  rewrite (seeks_hook_events (on_step_hook_event _ _ _)).
  now rewrite !app_nil_r.
Qed.

Lemma trained_on_main_resumed env model opt_state key step :
  trained_on (main config env (Some (model, opt_state, key, step)))
  = schedule (step + 1) (num_train_steps config - (step + 1)) key.
Proof.
  rewrite main_resumed. cbv zeta.
  rewrite !trained_on_app, trained_on_seeking.
  rewrite (trained_on_hook_events (run_hooks_hook_event _ _ _ _)).
  rewrite (trained_on_hook_events (on_step_hook_event _ _ _)).
  rewrite !app_nil_r. cbn [app].
  rewrite train_loop_schedule; reflexivity.
Qed.

End EndFacts.

End TrainLmEndFacts.

Section TrainLmEndProperties.
Import TrainLm TrainLmReading TrainLmFacts TrainLmResumeFacts TrainLmEndFacts.

Context {W : World}.
Variables config config' : TrainLmConfig.

(** X21. The closing [StepInfo] of a run without a checkpoint, the one
    its forced save is given, carries the step [num_train_steps] with
    the model, optimizer state, key and loss of the last trained step,
    [num_train_steps - 1]. A run started from the checkpoint that holds
    its model, optimizer state, key and step therefore drops the batches
    [0 .. num_train_steps] and trains from step [num_train_steps + 1] on,
    on batch [num_train_steps + 1]: the step and the batch numbered
    [num_train_steps] are passed over. *)
Theorem main_resume_after_end (env env' : Env) (closing : StepInfo) :
  nth_error (step_infos (main config env (@None Checkpoint))) (num_train_steps config)
  = Some closing ->
  info_step closing = num_train_steps config
  /\ (forall previous,
        nth_error (step_infos (main config env (@None Checkpoint)))
                  (num_train_steps config - 1) = Some previous ->
        (0 < num_train_steps config)%nat ->
        info_step previous = (num_train_steps config - 1)%nat
        /\ info_model closing = info_model previous
        /\ info_opt_state closing = info_opt_state previous
        /\ info_key closing = info_key previous
        /\ info_loss closing = info_loss previous)
  /\ seeks (main config' env' (Some (checkpoint_of closing)))
     = map train_loader (seq 0 (num_train_steps config + 1))
  /\ trained_on (main config' env' (Some (checkpoint_of closing)))
     = schedule (num_train_steps config + 1)
         (num_train_steps config' - (num_train_steps config + 1))
         (info_key closing).
Proof.
  unfold Checkpoint. intros Hclosing.
  rewrite step_infos_main_fresh in *.
  set (run := train_loop config env (num_train_steps config) 0
                (loop_entry (fresh_start config) 0)) in *.
  assert (Hlen : length (step_infos (snd run)) = num_train_steps config)
    by (unfold run; apply train_loop_step_infos).
  rewrite nth_error_app2 in Hclosing by lia.
  rewrite Hlen, Nat.sub_diag in Hclosing. injection Hclosing as <-.
  split; [reflexivity|]. split; [|split].
  - intros previous Hprev Hpos.
    rewrite nth_error_app1 in Hprev by lia.
    unfold run in Hprev.
    destruct (num_train_steps config) as [|n] eqn:EN; [lia|].
    replace (S n - 1)%nat with n in * by lia.
    rewrite train_loop_last in Hprev. injection Hprev as <-.
    repeat split; reflexivity.
  - unfold checkpoint_of. apply seeks_main_resumed.
  - unfold checkpoint_of. apply trained_on_main_resumed.
Qed.

End TrainLmEndProperties.

Section TrainLmEndExamples.
Import TrainLm TrainLmReading.

(** Three steps, then a run of six steps from the closing checkpoint:
    it trains the steps 4 and 5. *)
Lemma main_resume_after_end_toy :
  exists closing,
    nth_error (step_infos (main (toy_config 3) toy_env None)) 3 = Some closing
    /\ info_step closing = 3%nat
    /\ map fst (trained_on (main (toy_config 6) slow_env (Some (checkpoint_of closing))))
       = [(4%nat, train_loader 4); (5%nat, train_loader 5)].
Proof.
  destruct (nth_error (step_infos (main (toy_config 3) toy_env None)) 3)
    as [closing|] eqn:E; [|vm_compute in E; discriminate].
  exists closing. split; [reflexivity|].
  destruct (@main_resume_after_end toy_world (toy_config 3) (toy_config 6)
              toy_env slow_env closing E) as (Hs & _ & _ & Ht).
  split; [exact Hs|]. rewrite Ht. reflexivity.
Defined.

End TrainLmEndExamples.
